(** * Filter-to-query compilation and aggregation views of [app.py]

    The dashboard script builds a textual WHERE clause from the sidebar
    widgets ([where_clauses], [where_sql]), splices it into nine SQL
    statements and hands each statement to an embedded SQL engine
    ([con.execute]).  This development keeps both halves:

    - the Python side is transcribed as it is written: the clauses and the
      statements are strings, built by concatenation of the widget values;
    - the engine side is a small SQL interpreter (lexer, parser, binder,
      evaluator) for the fragment of SQL that the script emits.  Statements
      outside that fragment are rejected with [ParserException]; all results
      below are about statements inside it.

    Modelling choices for the engine: text is a sequence of bytes (UTF-8);
    case folding covers ASCII and the two-byte Latin-1 capitals; [_] in a LIKE
    pattern matches one byte; DOUBLE values are exact rationals; a text casts
    to DATE when it has the ISO shape YYYY-MM-DD and to DOUBLE when it is a
    plain decimal numeral.  A result that rests on one of these choices says
    so in its hypotheses: what a search finds is stated for texts of the
    Latin-1 range ([Text.latin1]), what a sum is for amounts that are whole
    numbers of pesos or no numbers at all ([exact_amounts]), and what becomes
    of a record without a date for any table, whatever the texts that the
    load read as dates.

    The access gate ([check_password]), the sidebar and a run of the script
    from the top ([script]) are transcribed as well, with the secrets file
    present or absent.  The download and the reading of the file are taken as
    given: a run starts from what [load_data_from_r2] hands back. *)

From Stdlib Require Import String Ascii List Arith ZArith QArith Qabs Lia Bool Permutation DecimalString.
Import ListNotations.
Local Open Scope string_scope.
Local Open Scope nat_scope.
Local Open Scope list_scope.

(** ** Text helpers *)

Module Text.

Definition code (c : ascii) : nat := nat_of_ascii c.

Definition is_digit (c : ascii) : bool := (48 <=? code c) && (code c <=? 57).

Definition is_alpha (c : ascii) : bool :=
  ((65 <=? code c) && (code c <=? 90)) || ((97 <=? code c) && (code c <=? 122))
  || (code c =? 95).

Definition is_space (c : ascii) : bool :=
  (code c =? 32) || (code c =? 10) || (code c =? 9) || (code c =? 13).

Definition quote : ascii := "'"%char.

Definition lower_ascii (c : ascii) : ascii :=
  if (65 <=? code c) && (code c <=? 90) then ascii_of_nat (code c + 32) else c.

(** Second byte of a two-byte UTF-8 sequence that starts with 0xC3: the
    capitals U+00C0..U+00DE (without the multiplication sign U+00D7) have
    their small letter 32 positions higher. *)
Definition lower_latin1 (c : ascii) : ascii :=
  if (128 <=? code c) && (code c <=? 158) && negb (code c =? 151)
  then ascii_of_nat (code c + 32) else c.

(** [str.lower()] of Python and [LOWER] of the engine. *)
Fixpoint lower (s : string) : string :=
  match s with
  | EmptyString => EmptyString
  | String c rest =>
      if code c =? 195 then
        match rest with
        | EmptyString => String c EmptyString
        | String d rest' => String c (String (lower_latin1 d) (lower rest'))
        end
      else String (lower_ascii c) (lower rest)
  end.

(** A text in UTF-8 whose characters all lie in U+0000..U+00FF (one byte
    below 128, or the byte 194 or 195 and one byte of 128..191).  On such a
    text [lower] is the folding of [str.lower()] and of [LOWER] alike. *)
Fixpoint latin1 (s : string) : bool :=
  match s with
  | EmptyString => true
  | String c rest =>
      if code c <? 128 then latin1 rest
      else if (code c =? 194) || (code c =? 195) then
        match rest with
        | EmptyString => false
        | String d rest' => (128 <=? code d) && (code d <=? 191) && latin1 rest'
        end
      else false
  end.

(** [sep.join(parts)] of Python. *)
Fixpoint join (sep : string) (parts : list string) : string :=
  match parts with
  | [] => ""
  | [p] => p
  | p :: ps => p ++ sep ++ join sep ps
  end.

(** The text holds no single quote. *)
Fixpoint quote_free (s : string) : bool :=
  match s with
  | EmptyString => true
  | String c rest => negb (Ascii.eqb c quote) && quote_free rest
  end.

Definition digit (n : nat) : ascii := ascii_of_nat (48 + n).
Definition digit_val (c : ascii) : nat := code c - 48.

(** [%02d] and [%04d]. *)
Definition pad2 (n : nat) : string :=
  String (digit (n / 10)) (String (digit (n mod 10)) "").
Definition pad4 (n : nat) : string :=
  String (digit (n / 1000)) (String (digit (n / 100 mod 10)) (pad2 (n mod 100))).

(** Value of a run of decimal digits; [None] when the text is empty or holds
    anything else. *)
Fixpoint digits_from (acc : nat) (s : string) : option nat :=
  match s with
  | EmptyString => Some acc
  | String c rest =>
      if is_digit c then digits_from (10 * acc + digit_val c) rest else None
  end.

Definition digits (s : string) : option nat :=
  match s with
  | EmptyString => None
  | _ => digits_from 0 s
  end.

(** LIKE: [%] matches any run of bytes, [_] one byte, anything else
    itself.  No escape character is in force. *)
Fixpoint like (pat s : string) : bool :=
  match pat with
  | EmptyString => match s with EmptyString => true | _ => false end
  | String p pat' =>
      if code p =? 37 then
        (fix any (t : string) : bool :=
           like pat' t || match t with
                          | EmptyString => false
                          | String _ t' => any t'
                          end) s
      else if code p =? 95 then
        match s with String _ s' => like pat' s' | EmptyString => false end
      else
        match s with
        | String c s' => Ascii.eqb p c && like pat' s'
        | EmptyString => false
        end
  end.

(** [needle in haystack] of Python: the literal substring test. *)
Fixpoint starts_with (p s : string) : bool :=
  match p, s with
  | EmptyString, _ => true
  | String a p', String b s' => Ascii.eqb a b && starts_with p' s'
  | _, _ => false
  end.

Fixpoint contains (needle hay : string) : bool :=
  starts_with needle hay ||
  match hay with
  | EmptyString => false
  | String _ hay' => contains needle hay'
  end.

End Text.

(** ** Dates *)

Record date := mkdate { year : nat; month : nat; day : nat }.

Module Date.

Definition leap (y : nat) : bool :=
  ((y mod 4 =? 0) && negb (y mod 100 =? 0)) || (y mod 400 =? 0).

Definition days_in_month (y m : nat) : nat :=
  match m with
  | 2 => if leap y then 29 else 28
  | 4 | 6 | 9 | 11 => 30
  | _ => 31
  end.

Definition valid (d : date) : bool :=
  (1 <=? month d) && (month d <=? 12) &&
  (1 <=? day d) && (day d <=? days_in_month (year d) (month d)).

(** A [datetime.date] of Python: a valid calendar day of the years 1..9999. *)
Definition python_date (d : date) : Prop :=
  valid d = true /\ 1 <= year d /\ year d < 100 * 100.

Definition leb (a b : date) : bool :=
  (year a <? year b) ||
  ((year a =? year b) &&
   ((month a <? month b) || ((month a =? month b) && (day a <=? day b)))).

Definition eqb (a b : date) : bool :=
  (year a =? year b) && (month a =? month b) && (day a =? day b).

(** [str(d)], the ISO form that an f-string writes. *)
Definition str (d : date) : string :=
  Text.pad4 (year d) ++ "-" ++ Text.pad2 (month d) ++ "-" ++ Text.pad2 (day d).

(** Cast of a text to DATE: [None] where the engine's TRY_CAST gives NULL. *)
Definition cast (s : string) : option date :=
  if (String.length s =? 10) &&
     (Ascii.eqb (match get 4 s with Some c => c | None => " "%char end) "-") &&
     (Ascii.eqb (match get 7 s with Some c => c | None => " "%char end) "-")
  then
    match Text.digits (substring 0 4 s), Text.digits (substring 5 2 s),
          Text.digits (substring 8 2 s) with
    | Some y, Some m, Some d =>
        let r := mkdate y m d in if valid r then Some r else None
    | _, _, _ => None
    end
  else None.

(** [DATE_TRUNC('month', d)]. *)
Definition trunc_month (d : date) : date := mkdate (year d) (month d) 1.

End Date.

(** ** Values of the engine *)

Inductive value :=
| VNull
| VBool (b : bool)
| VInt (n : Z)
| VNum (q : Q)
| VStr (s : string)
| VDate (d : date).

Module Num.

(** Cast of a text to DOUBLE: an optional minus sign, digits, and an optional
    fraction.  [None] where TRY_CAST gives NULL. *)
Fixpoint split_dot (s : string) : string * option string :=
  match s with
  | EmptyString => (EmptyString, None)
  | String c rest =>
      if Text.code c =? 46 then (EmptyString, Some rest)
      else let (a, b) := split_dot rest in (String c a, b)
  end.

Definition unsigned (s : string) : option Q :=
  match split_dot s with
  | (ip, None) =>
      match Text.digits ip with
      | Some n => Some (inject_Z (Z.of_nat n))
      | None => None
      end
  | (ip, Some fp) =>
      match Text.digits ip, Text.digits fp with
      | Some n, Some f =>
          Some (Qred (Qplus (inject_Z (Z.of_nat n))
                            (Qmake (Z.of_nat f) (Pos.of_nat (10 ^ String.length fp)))))
      | _, _ => None
      end
  end.

Definition cast (s : string) : option Q :=
  match s with
  | String c rest =>
      if Text.code c =? 45 then option_map Qopp (unsigned rest) else unsigned s
  | EmptyString => None
  end.

End Num.

(** ** Outcomes: a value, or the exception that the call raises *)

Inductive exn :=
| ParserException      (* the engine cannot parse the statement *)
| BinderException      (* unknown column, ill-typed or misplaced expression *)
| CatalogException     (* unknown table *)
| ConversionException  (* a literal that does not cast to its type *)
| IndexError.          (* [.iloc[0]] on an empty frame *)

Inductive outcome (A : Type) :=
| Returned (a : A)
| Raised (e : exn).
Arguments Returned {A} a.
Arguments Raised {A} e.

Definition bind {A B : Type} (m : outcome A) (k : A -> outcome B) : outcome B :=
  match m with
  | Returned a => k a
  | Raised e => Raised e
  end.

Notation "x <- m ;; k" := (bind m (fun x => k))
  (at level 61, m at next level, right associativity).

Definition returns {A : Type} (m : outcome A) : bool :=
  match m with Returned _ => true | Raised _ => false end.

(** ** The engine: lexer *)

Inductive token :=
| TWord (w : string)      (* identifier or keyword, as written *)
| TString (s : string)    (* contents of a quoted literal *)
| TNumber (n : nat)
| TLParen | TRParen | TComma | TStar
| TEq | TGe | TLe | TLt | TGt
| TMisc (c : ascii).      (* any other character; no statement of the fragment has one *)

Inductive lstate :=
| LNormal
| LWord (acc : string)
| LNum (acc : nat)
| LStr (acc : string)     (* inside a quoted literal *)
| LStrQ (acc : string)    (* a quote seen inside a literal: its end, or half of a doubled quote *)
| LDash                   (* one dash seen *)
| LComment                (* after two dashes, up to the end of the line *)
| LGt
| LLt.

Module Lexer.

Import Text.

Definition snoc (s : string) (c : ascii) : string := s ++ String c "".

(** A character met outside any token. *)
Definition start (c : ascii) : lstate * list token :=
  if is_space c then (LNormal, [])
  else if is_alpha c then (LWord (String c ""), [])
  else if is_digit c then (LNum (digit_val c), [])
  else if Ascii.eqb c quote then (LStr "", [])
  else if code c =? 45 then (LDash, [])
  else if code c =? 62 then (LGt, [])
  else if code c =? 60 then (LLt, [])
  else if code c =? 40 then (LNormal, [TLParen])
  else if code c =? 41 then (LNormal, [TRParen])
  else if code c =? 44 then (LNormal, [TComma])
  else if code c =? 42 then (LNormal, [TStar])
  else if code c =? 61 then (LNormal, [TEq])
  else (LNormal, [TMisc c]).

Definition emit (t : token) (r : lstate * list token) : lstate * list token :=
  (fst r, t :: snd r).

Definition step (st : lstate) (c : ascii) : lstate * list token :=
  match st with
  | LNormal => start c
  | LWord acc =>
      if is_alpha c || is_digit c then (LWord (snoc acc c), [])
      else emit (TWord acc) (start c)
  | LNum acc =>
      if is_digit c then (LNum (10 * acc + digit_val c), [])
      else emit (TNumber acc) (start c)
  | LStr acc =>
      if Ascii.eqb c quote then (LStrQ acc, []) else (LStr (snoc acc c), [])
  | LStrQ acc =>
      if Ascii.eqb c quote then (LStr (snoc acc quote), [])
      else emit (TString acc) (start c)
  | LDash =>
      if code c =? 45 then (LComment, []) else emit (TMisc "-"%char) (start c)
  | LComment =>
      if code c =? 10 then (LNormal, []) else (LComment, [])
  | LGt =>
      if code c =? 61 then (LNormal, [TGe]) else emit TGt (start c)
  | LLt =>
      if code c =? 61 then (LNormal, [TLe]) else emit TLt (start c)
  end.

Fixpoint run (st : lstate) (s : string) : lstate * list token :=
  match s with
  | EmptyString => (st, [])
  | String c rest =>
      let r1 := step st c in
      let r2 := run (fst r1) rest in
      (fst r2, snd r1 ++ snd r2)
  end.

(** End of the text: an open literal is an error. *)
Definition finish (st : lstate) : option (list token) :=
  match st with
  | LNormal | LComment => Some []
  | LWord acc => Some [TWord acc]
  | LNum acc => Some [TNumber acc]
  | LStr _ => None
  | LStrQ acc => Some [TString acc]
  | LDash => Some [TMisc "-"%char]
  | LGt => Some [TGt]
  | LLt => Some [TLt]
  end.

Definition lex_from (st : lstate) (s : string) : option (list token) :=
  let r := run st s in
  match finish (fst r) with
  | Some tl => Some (snd r ++ tl)
  | None => None
  end.

Definition lex (s : string) : option (list token) := lex_from LNormal s.

End Lexer.

(** ** The engine: syntax and parser *)

Inductive cmpop := OpEq | OpGe | OpLe | OpLt | OpGt.

Inductive expr :=
| ECol (name : string)
| EStr (s : string)
| EInt (n : nat)
| EDate (s : string)                    (* DATE '...' *)
| ELower (e : expr)
| ETryCastDouble (e : expr)             (* TRY_CAST(e AS DOUBLE) *)
| EDateTrunc (part : string) (e : expr)
| ECmp (op : cmpop) (a b : expr)
| ELike (a b : expr)
| EIsNotNull (e : expr)
| EAnd (a b : expr)
| EOr (a b : expr)
| ECountStar
| ECountDistinct (e : expr)
| ESum (e : expr)
| EAvg (e : expr).

Record select_item := mkitem { it_expr : expr; it_alias : option string }.

Record statement := mkstmt {
  s_items : list select_item;
  s_from : string;
  s_where : option expr;
  s_group : option expr;
  s_order : option (expr * bool);       (* the flag is DESC *)
  s_limit : option nat
}.

Module Parser.

Definition kw (w k : string) : bool := String.eqb (Text.lower w) k.

Definition reserved (w : string) : bool :=
  existsb (kw w)
    ["select"; "from"; "where"; "group"; "by"; "order"; "limit"; "and"; "or";
     "like"; "is"; "not"; "null"; "as"; "desc"; "asc"; "distinct"].

Definition result := option (expr * list token).

Definition close (r : result) : result :=
  match r with
  | Some (e, TRParen :: ts) => Some (e, ts)
  | _ => None
  end.

Definition wrap (f : expr -> expr) (r : result) : result :=
  match r with
  | Some (e, ts) => Some (f e, ts)
  | None => None
  end.

Definition cmp_of (t : token) : option cmpop :=
  match t with
  | TEq => Some OpEq | TGe => Some OpGe | TLe => Some OpLe
  | TLt => Some OpLt | TGt => Some OpGt
  | _ => None
  end.

(** Recursive descent, lowest precedence first: OR, AND, comparison,
    primary.  The first argument bounds the depth of the descent. *)
Fixpoint p_or (n : nat) (ts : list token) : result :=
  match n with
  | 0 => None
  | S n =>
      match p_and n ts with
      | Some (e, rest) => p_or_tail n e rest
      | None => None
      end
  end
with p_or_tail (n : nat) (e : expr) (ts : list token) : result :=
  match n with
  | 0 => None
  | S n =>
      match ts with
      | TWord w :: rest =>
          if kw w "or" then
            match p_and n rest with
            | Some (e2, rest2) => p_or_tail n (EOr e e2) rest2
            | None => None
            end
          else Some (e, ts)
      | _ => Some (e, ts)
      end
  end
with p_and (n : nat) (ts : list token) : result :=
  match n with
  | 0 => None
  | S n =>
      match p_cmp n ts with
      | Some (e, rest) => p_and_tail n e rest
      | None => None
      end
  end
with p_and_tail (n : nat) (e : expr) (ts : list token) : result :=
  match n with
  | 0 => None
  | S n =>
      match ts with
      | TWord w :: rest =>
          if kw w "and" then
            match p_cmp n rest with
            | Some (e2, rest2) => p_and_tail n (EAnd e e2) rest2
            | None => None
            end
          else Some (e, ts)
      | _ => Some (e, ts)
      end
  end
with p_cmp (n : nat) (ts : list token) : result :=
  match n with
  | 0 => None
  | S n =>
      match p_primary n ts with
      | Some (a, t :: rest) =>
          match cmp_of t with
          | Some op => wrap (ECmp op a) (p_primary n rest)
          | None =>
              match t, rest with
              | TWord w, TWord w1 :: TWord w2 :: rest' =>
                  if kw w "like" then wrap (ELike a) (p_primary n rest)
                  else if kw w "is" && kw w1 "not" && kw w2 "null"
                  then Some (EIsNotNull a, rest')
                  else Some (a, t :: rest)
              | TWord w, _ =>
                  if kw w "like" then wrap (ELike a) (p_primary n rest)
                  else Some (a, t :: rest)
              | _, _ => Some (a, t :: rest)
              end
          end
      | r => r
      end
  end
with p_primary (n : nat) (ts : list token) : result :=
  match n with
  | 0 => None
  | S n =>
      match ts with
      | TLParen :: rest => close (p_or n rest)
      | TString s :: rest => Some (EStr s, rest)
      | TNumber k :: rest => Some (EInt k, rest)
      | TWord w :: rest =>
          if kw w "date" then
            match rest with
            | TString s :: rest' => Some (EDate s, rest')
            | _ => None
            end
          else if reserved w then None
          else
            match rest with
            | TLParen :: args =>
                if kw w "lower" then wrap ELower (close (p_or n args))
                else if kw w "sum" then wrap ESum (close (p_or n args))
                else if kw w "avg" then wrap EAvg (close (p_or n args))
                else if kw w "count" then
                  match args with
                  | TStar :: TRParen :: rest' => Some (ECountStar, rest')
                  | TWord d :: args' =>
                      if kw d "distinct"
                      then wrap ECountDistinct (close (p_or n args'))
                      else None
                  | _ => None
                  end
                else if kw w "try_cast" then
                  match p_or n args with
                  | Some (e, TWord a :: TWord t :: TRParen :: rest') =>
                      if kw a "as" && kw t "double"
                      then Some (ETryCastDouble e, rest') else None
                  | _ => None
                  end
                else if kw w "date_trunc" then
                  match args with
                  | TString part :: TComma :: args' =>
                      wrap (EDateTrunc part) (close (p_or n args'))
                  | _ => None
                  end
                else None
            | _ => Some (ECol w, rest)
            end
      | _ => None
      end
  end.

Definition fuel (ts : list token) : nat := 8 * (List.length ts + 1).

Definition p_expr (ts : list token) : result := p_or (fuel ts) ts.

(** The select list: [expr [AS alias]] separated by commas. *)
Fixpoint p_items (n : nat) (ts : list token) : option (list select_item * list token) :=
  match n with
  | 0 => None
  | S n =>
      match p_expr ts with
      | Some (e, rest) =>
          let '(al, rest1) :=
            match rest with
            | TWord a :: TWord name :: rest' =>
                if kw a "as" then (Some name, rest') else (None, rest)
            | _ => (None, rest)
            end in
          match rest1 with
          | TComma :: rest2 =>
              match p_items n rest2 with
              | Some (its, rest3) => Some (mkitem e al :: its, rest3)
              | None => None
              end
          | _ => Some ([mkitem e al], rest1)
          end
      | None => None
      end
  end.

Definition p_where (ts : list token) : option (option expr * list token) :=
  match ts with
  | TWord w :: rest =>
      if kw w "where" then
        match p_expr rest with
        | Some (e, rest') => Some (Some e, rest')
        | None => None
        end
      else Some (None, ts)
  | _ => Some (None, ts)
  end.

Definition p_group (ts : list token) : option (option expr * list token) :=
  match ts with
  | TWord w :: TWord b :: rest =>
      if kw w "group" && kw b "by" then
        match p_expr rest with
        | Some (e, rest') => Some (Some e, rest')
        | None => None
        end
      else Some (None, ts)
  | _ => Some (None, ts)
  end.

Definition p_order (ts : list token) : option (option (expr * bool) * list token) :=
  match ts with
  | TWord w :: TWord b :: rest =>
      if kw w "order" && kw b "by" then
        match p_expr rest with
        | Some (e, TWord d :: rest') =>
            if kw d "desc" then Some (Some (e, true), rest')
            else if kw d "asc" then Some (Some (e, false), rest')
            else Some (Some (e, false), TWord d :: rest')
        | Some (e, rest') => Some (Some (e, false), rest')
        | None => None
        end
      else Some (None, ts)
  | _ => Some (None, ts)
  end.

Definition p_limit (ts : list token) : option (option nat * list token) :=
  match ts with
  | TWord w :: rest =>
      if kw w "limit" then
        match rest with
        | TNumber k :: rest' => Some (Some k, rest')
        | _ => None
        end
      else Some (None, ts)
  | _ => Some (None, ts)
  end.

(** SELECT items FROM table [WHERE e] [GROUP BY e] [ORDER BY e [DESC]] [LIMIT k] *)
Definition p_statement (ts : list token) : option statement :=
  match ts with
  | TWord s :: rest =>
      if kw s "select" then
        match p_items (List.length rest + 1) rest with
        | Some (its, TWord f :: TWord tbl :: rest1) =>
            if kw f "from" && negb (reserved tbl) then
              match p_where rest1 with
              | Some (w, rest2) =>
                  match p_group rest2 with
                  | Some (g, rest3) =>
                      match p_order rest3 with
                      | Some (o, rest4) =>
                          match p_limit rest4 with
                          | Some (l, []) => Some (mkstmt its tbl w g o l)
                          | _ => None
                          end
                      | None => None
                      end
                  | None => None
                  end
              | None => None
              end
            else None
        | _ => None
        end
      else None
  | _ => None
  end.

Definition parse (q : string) : outcome statement :=
  match Lexer.lex q with
  | Some ts =>
      match p_statement ts with
      | Some st => Returned st
      | None => Raised ParserException
      end
  | None => Raised ParserException
  end.

End Parser.

(** ** The data store *)

(** One record of the downloaded file, with the columns that the script
    reads.  Every field is text as it stands in the file; an empty field is
    NULL ([None]). *)
Record csv_row := mkcsv {
  codigoOC : option string;
  FechaEnvioOC : option string;
  Proveedor : option string;
  ProveedorRUT : option string;
  RegionProveedor : option string;
  RegionUnidadCompra : option string;
  ONUProducto : option string;
  RubroN1 : option string;
  MontoTotalOC_CLP : option string
}.

(** A row of table [compras]: the record and the derived date column. *)
Record row := mkrow {
  raw : csv_row;
  FechaEnvioOC_parsed : option date
}.

Definition try_cast_date (t : option string) : option date :=
  match t with
  | Some s => Date.cast s
  | None => None
  end.

Definition try_cast_double (t : option string) : option Q :=
  match t with
  | Some s => Num.cast s
  | None => None
  end.

(** [load_data_from_r2], after the download: CREATE TABLE compras from the
    file, ADD COLUMN FechaEnvioOC_parsed, and
    UPDATE compras SET FechaEnvioOC_parsed = TRY_CAST(FechaEnvioOC AS DATE). *)
Definition load_data (file : list csv_row) : list row :=
  map (fun r => mkrow r (try_cast_date (FechaEnvioOC r))) file.

(** ** The engine: binder and evaluator *)

Inductive ty := TyBool | TyInt | TyNum | TyStr | TyDate.

Module Engine.

Definition ty_eqb (a b : ty) : bool :=
  match a, b with
  | TyBool, TyBool | TyInt, TyInt | TyNum, TyNum | TyStr, TyStr | TyDate, TyDate => true
  | _, _ => false
  end.

Definition text (t : option string) : value :=
  match t with Some s => VStr s | None => VNull end.

Definition datev (t : option date) : value :=
  match t with Some d => VDate d | None => VNull end.

Definition numv (t : option Q) : value :=
  match t with Some q => VNum q | None => VNull end.

(** Column names are matched without regard to case. *)
Definition column (name : string) (r : row) : option value :=
  let n := Text.lower name in
  if String.eqb n "codigooc" then Some (text (codigoOC (raw r)))
  else if String.eqb n "fechaenviooc" then Some (text (FechaEnvioOC (raw r)))
  else if String.eqb n "proveedor" then Some (text (Proveedor (raw r)))
  else if String.eqb n "proveedorrut" then Some (text (ProveedorRUT (raw r)))
  else if String.eqb n "regionproveedor" then Some (text (RegionProveedor (raw r)))
  else if String.eqb n "regionunidadcompra" then Some (text (RegionUnidadCompra (raw r)))
  else if String.eqb n "onuproducto" then Some (text (ONUProducto (raw r)))
  else if String.eqb n "rubron1" then Some (text (RubroN1 (raw r)))
  else if String.eqb n "montototaloc_clp" then Some (text (MontoTotalOC_CLP (raw r)))
  else if String.eqb n "fechaenviooc_parsed" then Some (datev (FechaEnvioOC_parsed r))
  else None.

Definition column_type (name : string) : option ty :=
  let n := Text.lower name in
  if String.eqb n "fechaenviooc_parsed" then Some TyDate
  else if existsb (String.eqb n)
            ["codigooc"; "fechaenviooc"; "proveedor"; "proveedorrut"; "regionproveedor";
             "regionunidadcompra"; "onuproducto"; "rubron1"; "montototaloc_clp"]
  then Some TyStr
  else None.

Definition expect (t : ty) (m : outcome ty) (res : ty) : outcome ty :=
  t' <- m ;; if ty_eqb t t' then Returned res else Raised BinderException.

(** Type of a row-level expression.  An aggregate has no place here. *)
Fixpoint typeof (e : expr) : outcome ty :=
  match e with
  | ECol n =>
      match column_type n with
      | Some t => Returned t
      | None => Raised BinderException
      end
  | EStr _ => Returned TyStr
  | EInt _ => Returned TyInt
  | EDate s =>
      match Date.cast s with
      | Some _ => Returned TyDate
      | None => Raised ConversionException
      end
  | ELower a => expect TyStr (typeof a) TyStr
  | ETryCastDouble a => expect TyStr (typeof a) TyNum
  | EDateTrunc part a =>
      if String.eqb (Text.lower part) "month" then expect TyDate (typeof a) TyDate
      else Raised BinderException
  | ECmp _ a b =>
      ta <- typeof a ;; tb <- typeof b ;;
      if ty_eqb ta tb then Returned TyBool else Raised BinderException
  | ELike a b =>
      _ <- expect TyStr (typeof a) TyStr ;; expect TyStr (typeof b) TyBool
  | EIsNotNull a => _ <- typeof a ;; Returned TyBool
  | EAnd a b | EOr a b =>
      _ <- expect TyBool (typeof a) TyBool ;; expect TyBool (typeof b) TyBool
  | ECountStar | ECountDistinct _ | ESum _ | EAvg _ => Raised BinderException
  end.

Definition string_leb (a b : string) : bool :=
  match String.compare a b with Gt => false | _ => true end.

Definition value_leb (a b : value) : bool :=
  match a, b with
  | VInt x, VInt y => Z.leb x y
  | VNum x, VNum y => Qle_bool x y
  | VStr x, VStr y => string_leb x y
  | VDate x, VDate y => Date.leb x y
  | VBool x, VBool y => implb x y
  | _, _ => false
  end.

Definition value_eqb (a b : value) : bool :=
  match a, b with
  | VNull, VNull => true
  | VInt x, VInt y => Z.eqb x y
  | VNum x, VNum y => Qeq_bool x y
  | VStr x, VStr y => String.eqb x y
  | VDate x, VDate y => Date.eqb x y
  | VBool x, VBool y => Bool.eqb x y
  | _, _ => false
  end.

Definition is_null (v : value) : bool :=
  match v with VNull => true | _ => false end.

(** A comparison with NULL on either side is NULL. *)
Definition compare (op : cmpop) (a b : value) : value :=
  if is_null a || is_null b then VNull
  else VBool match op with
             | OpEq => value_eqb a b
             | OpGe => value_leb b a
             | OpLe => value_leb a b
             | OpLt => value_leb a b && negb (value_eqb a b)
             | OpGt => value_leb b a && negb (value_eqb a b)
             end.

(** Three-valued AND and OR. *)
Definition and3 (a b : value) : value :=
  match a, b with
  | VBool false, _ | _, VBool false => VBool false
  | VBool true, VBool true => VBool true
  | _, _ => VNull
  end.

Definition or3 (a b : value) : value :=
  match a, b with
  | VBool true, _ | _, VBool true => VBool true
  | VBool false, VBool false => VBool false
  | _, _ => VNull
  end.

(** Value of a well-typed row-level expression on a row. *)
Fixpoint eval (e : expr) (r : row) : value :=
  match e with
  | ECol n => match column n r with Some v => v | None => VNull end
  | EStr s => VStr s
  | EInt n => VInt (Z.of_nat n)
  | EDate s => datev (Date.cast s)
  | ELower a =>
      match eval a r with VStr s => VStr (Text.lower s) | _ => VNull end
  | ETryCastDouble a =>
      match eval a r with VStr s => numv (Num.cast s) | _ => VNull end
  | EDateTrunc _ a =>
      match eval a r with VDate d => VDate (Date.trunc_month d) | _ => VNull end
  | ECmp op a b => compare op (eval a r) (eval b r)
  | ELike a b =>
      match eval a r, eval b r with
      | VStr s, VStr p => VBool (Text.like p s)
      | _, _ => VNull
      end
  | EIsNotNull a => VBool (negb (is_null (eval a r)))
  | EAnd a b => and3 (eval a r) (eval b r)
  | EOr a b => or3 (eval a r) (eval b r)
  | ECountStar | ECountDistinct _ | ESum _ | EAvg _ => VNull
  end.

(** WHERE keeps the rows on which the predicate is true (not false, not NULL). *)
Definition holds (w : expr) (r : row) : bool :=
  match eval w r with VBool true => true | _ => false end.

(** *** Aggregates *)

Fixpoint distinct (vs : list value) : list value :=
  match vs with
  | [] => []
  | v :: rest => if existsb (value_eqb v) rest then distinct rest else v :: distinct rest
  end.

Definition non_null (vs : list value) : list value :=
  filter (fun v => negb (is_null v)) vs.

Fixpoint nums (vs : list value) : list Q :=
  match vs with
  | [] => []
  | VNum q :: rest => q :: nums rest
  | _ :: rest => nums rest
  end.

Definition total (qs : list Q) : Q := fold_right Qplus 0%Q qs.

(** SUM and AVG skip NULL and are NULL when nothing is left. *)
Definition sum_of (vs : list value) : value :=
  match nums vs with
  | [] => VNull
  | qs => VNum (Qred (total qs))
  end.

Definition avg_of (vs : list value) : value :=
  match nums vs with
  | [] => VNull
  | qs => VNum (Qred (total qs / inject_Z (Z.of_nat (List.length qs))))
  end.

Definition is_aggregate (e : expr) : bool :=
  match e with
  | ECountStar | ECountDistinct _ | ESum _ | EAvg _ => true
  | _ => false
  end.

Definition aggregate (e : expr) (g : list row) : value :=
  match e with
  | ECountStar => VInt (Z.of_nat (List.length g))
  | ECountDistinct a =>
      VInt (Z.of_nat (List.length (distinct (non_null (map (eval a) g)))))
  | ESum a => sum_of (map (eval a) g)
  | EAvg a => avg_of (map (eval a) g)
  | _ => VNull
  end.

Definition aggregate_type (e : expr) : outcome ty :=
  match e with
  | ECountStar => Returned TyInt
  | ECountDistinct a => _ <- typeof a ;; Returned TyInt
  | ESum a | EAvg a => expect TyNum (typeof a) TyNum
  | _ => Raised BinderException
  end.

Fixpoint expr_eqb (a b : expr) : bool :=
  match a, b with
  | ECol x, ECol y => String.eqb (Text.lower x) (Text.lower y)
  | EStr x, EStr y | EDate x, EDate y => String.eqb x y
  | EInt x, EInt y => Nat.eqb x y
  | ELower x, ELower y | ETryCastDouble x, ETryCastDouble y
  | EIsNotNull x, EIsNotNull y | ECountDistinct x, ECountDistinct y
  | ESum x, ESum y | EAvg x, EAvg y => expr_eqb x y
  | EDateTrunc p x, EDateTrunc q y => String.eqb p q && expr_eqb x y
  | ECmp o x1 x2, ECmp o' y1 y2 =>
      match o, o' with
      | OpEq, OpEq | OpGe, OpGe | OpLe, OpLe | OpLt, OpLt | OpGt, OpGt =>
          expr_eqb x1 y1 && expr_eqb x2 y2
      | _, _ => false
      end
  | ELike x1 x2, ELike y1 y2 | EAnd x1 x2, EAnd y1 y2 | EOr x1 x2, EOr y1 y2 =>
      expr_eqb x1 y1 && expr_eqb x2 y2
  | ECountStar, ECountStar => true
  | _, _ => false
  end.

(** *** Grouping: one group per key value, NULL included, in the order of the
    first row of each group. *)
Fixpoint add_to_group (k : value) (r : row) (gs : list (value * list row))
  : list (value * list row) :=
  match gs with
  | [] => [(k, [r])]
  | (k', g) :: rest =>
      if value_eqb k k' then (k', g ++ [r]) :: rest
      else (k', g) :: add_to_group k r rest
  end.

Definition group_rows (key : row -> value) (rs : list row) : list (value * list row) :=
  fold_left (fun gs r => add_to_group (key r) r gs) rs [].

(** *** Ordering: stable, NULL last in both directions. *)
Definition before (desc : bool) (a b : value) : bool :=
  if is_null b then true
  else if is_null a then false
  else if desc then value_leb b a else value_leb a b.

Section Sort.
Context {A : Type} (key : A -> value) (desc : bool).

Fixpoint insert (x : A) (l : list A) : list A :=
  match l with
  | [] => [x]
  | y :: l' => if before desc (key x) (key y) then x :: l else y :: insert x l'
  end.

Definition sort (l : list A) : list A := fold_right insert [] l.
End Sort.

Definition limit {A : Type} (k : option nat) (l : list A) : list A :=
  match k with Some n => firstn n l | None => l end.

End Engine.

(** ** The engine: running a statement *)

Record table := mktable { t_columns : list string; t_rows : list (list value) }.

Module Exec.

Import Engine.

Definition item_name (it : select_item) : string :=
  match it_alias it with
  | Some a => a
  | None => match it_expr it with ECol n => n | _ => "" end
  end.

(** The select item that an ORDER BY key names: by alias, or by being the
    same expression. *)
Fixpoint order_item (o : expr) (its : list select_item) : option nat :=
  match its with
  | [] => None
  | it :: rest =>
      let by_alias :=
        match o, it_alias it with
        | ECol n, Some a => String.eqb (Text.lower n) (Text.lower a)
        | _, _ => false
        end in
      if by_alias || expr_eqb o (it_expr it) then Some 0
      else option_map S (order_item o rest)
  end.

Fixpoint check_each {A : Type} (f : A -> outcome ty) (l : list A) : outcome unit :=
  match l with
  | [] => Returned tt
  | a :: rest => _ <- f a ;; check_each f rest
  end.

Definition filtered (w : option expr) (db : list row) : list row :=
  match w with
  | Some e => filter (holds e) db
  | None => db
  end.

Definition check_where (w : option expr) : outcome unit :=
  match w with
  | Some e => t <- typeof e ;; if ty_eqb t TyBool then Returned tt else Raised BinderException
  | None => Returned tt
  end.

(** A statement without aggregates: order the rows, project, cut. *)
Definition run_plain (st : statement) (rs : list row) : outcome (list (list value)) :=
  _ <- check_each (fun it => typeof (it_expr it)) (s_items st) ;;
  sorted <-
    match s_order st with
    | None => Returned rs
    | Some (o, desc) =>
        let key :=
          match order_item o (s_items st) with
          | Some i => it_expr (nth i (s_items st) (mkitem o None))
          | None => o
          end in
        _ <- typeof key ;; Returned (sort (eval key) desc rs)
    end ;;
  Returned (limit (s_limit st)
              (map (fun r => map (fun it => eval (it_expr it) r) (s_items st)) sorted)).

Definition item_type (g : option expr) (it : select_item) : outcome ty :=
  if is_aggregate (it_expr it) then aggregate_type (it_expr it)
  else
    match g with
    | Some k => if expr_eqb (it_expr it) k then typeof k else Raised BinderException
    | None => Raised BinderException
    end.

Definition output_row (its : list select_item) (g : value * list row) : list value :=
  map (fun it => if is_aggregate (it_expr it) then aggregate (it_expr it) (snd g) else fst g)
      its.

(** A statement with aggregates: one output row per group, or exactly one
    output row over all the kept rows when there is no GROUP BY. *)
Definition run_grouped (st : statement) (rs : list row) : outcome (list (list value)) :=
  _ <- check_each (item_type (s_group st)) (s_items st) ;;
  let groups :=
    match s_group st with
    | Some k => group_rows (eval k) rs
    | None => [(VNull, rs)]
    end in
  let out := map (output_row (s_items st)) groups in
  sorted <-
    match s_order st with
    | None => Returned out
    | Some (o, desc) =>
        match order_item o (s_items st) with
        | Some i => Returned (sort (fun r => nth i r VNull) desc out)
        | None => Raised BinderException
        end
    end ;;
  Returned (limit (s_limit st) sorted).

Definition exec (st : statement) (db : list row) : outcome table :=
  if negb (String.eqb (Text.lower (s_from st)) "compras") then Raised CatalogException
  else
    _ <- check_where (s_where st) ;;
    let rs := filtered (s_where st) db in
    out <- (if existsb (fun it => is_aggregate (it_expr it)) (s_items st)
               || match s_group st with Some _ => true | None => false end
            then run_grouped st rs else run_plain st rs) ;;
    Returned (mktable (map item_name (s_items st)) out).

(** [con.execute(q).df()] *)
Definition execute (q : string) (db : list row) : outcome table :=
  st <- Parser.parse q ;; exec st db.

End Exec.

(** ** The script: reference lists and sidebar state *)

Definition REGIONES_CHILE : list string :=
  ["Arica y Parinacota"; "Tarapacá"; "Antofagasta"; "Atacama"; "Coquimbo";
   "Valparaíso"; "Metropolitana de Santiago"; "Libertador Gral. Bernardo O'Higgins";
   "Maule"; "Ñuble"; "Biobío"; "La Araucanía"; "Los Ríos"; "Los Lagos";
   "Aysén del Gral. Carlos Ibáñez del Campo"; "Magallanes y de la Antártica Chilena"].

Definition region_proveedor_options : list string := "Todas" :: REGIONES_CHILE.
Definition region_compra_options : list string := "Todas" :: REGIONES_CHILE.

(** [st.sidebar.selectbox(label, options)]: the option at the position the
    user picked, the first one when nothing was picked. *)
Definition selectbox (options : list string) (picked : nat) : string :=
  nth picked options (hd "" options).

(** [st.slider(label, 100, 5000, 1000, 100)]: the values 100, 200, ..., 5000. *)
Definition slider_value (position : nat) : nat := 100 * (1 + position mod 50).

(** The values of the sidebar widgets in one run of the script. *)
Record filters := mkfilters {
  solo_salud : bool;
  fecha_inicio : date;
  fecha_fin : date;
  region_proveedor : string;
  region_compra : string;
  especialidad_selected : string;
  search_term : string
}.

(** The widgets' initial values. *)
Definition default_filters : filters :=
  mkfilters true (mkdate 2025 1 1) (mkdate 2025 12 31) "Todas" "Todas" "Todas" "".

(** [str(n)] for a non-negative integer. *)
Definition str_int (n : nat) : string := NilEmpty.string_of_uint (Nat.to_uint n).

(** Truth value of a Python string in [if s:]. *)
Definition truthy (s : string) : bool :=
  match s with EmptyString => false | _ => true end.

(** ** The script: construction of the WHERE clause (lines 209-234) *)

Definition where_clauses (f : filters) : list string :=
  (if solo_salud f
   then ["(LOWER(RubroN1) LIKE '%salud%' OR LOWER(RubroN1) LIKE '%médico%')"]
   else [])
  ++ [("FechaEnvioOC_parsed >= DATE '" ++ Date.str (fecha_inicio f) ++ "'")%string]
  ++ [("FechaEnvioOC_parsed <= DATE '" ++ Date.str (fecha_fin f) ++ "'")%string]
  ++ (if negb (String.eqb (region_proveedor f) "Todas")
      then [("RegionProveedor = '" ++ region_proveedor f ++ "'")%string]
      else [])
  ++ (if negb (String.eqb (region_compra f) "Todas")
      then [("RegionUnidadCompra = '" ++ region_compra f ++ "'")%string]
      else [])
  ++ (if negb (String.eqb (especialidad_selected f) "Todas")
      then [("ONUProducto = '" ++ especialidad_selected f ++ "'")%string]
      else [])
  ++ (if truthy (search_term f)
      then [("(LOWER(Proveedor) LIKE '%" ++ Text.lower (search_term f)
             ++ "%' OR ProveedorRUT LIKE '%" ++ search_term f ++ "%')")%string]
      else []).

Definition where_sql (f : filters) : string := Text.join " AND " (where_clauses f).

(** ** The script: the nine statements, character for character *)

Local Open Scope string_scope.

Definition kpi_query (f : filters) : string :=
  "
            SELECT 
                COUNT(DISTINCT ProveedorRUT) as total_adjudicadores,
                COUNT(*) as total_ordenes,
                SUM(TRY_CAST(MontoTotalOC_CLP AS DOUBLE)) as monto_total
            FROM compras
            WHERE "
  ++ where_sql f
  ++ "
        ".

Definition regiones_activas_query (f : filters) : string :=
  "
            SELECT COUNT(DISTINCT RegionProveedor) as regiones
            FROM compras
            WHERE "
  ++ where_sql f
  ++ "
        ".

Definition top_especialidades_query (f : filters) : string :=
  "
                SELECT 
                    ONUProducto as especialidad,
                    COUNT(*) as cantidad
                FROM compras
                WHERE "
  ++ where_sql f
  ++ " AND ONUProducto IS NOT NULL
                GROUP BY ONUProducto
                ORDER BY cantidad DESC
                LIMIT 10
            ".

Definition monto_region_query (f : filters) : string :=
  "
                SELECT 
                    RegionProveedor as region,
                    SUM(TRY_CAST(MontoTotalOC_CLP AS DOUBLE)) as monto
                FROM compras
                WHERE "
  ++ where_sql f
  ++ "
                GROUP BY RegionProveedor
                ORDER BY monto DESC
                LIMIT 10
            ".

Definition tendencia_query (f : filters) : string :=
  "
            SELECT 
                DATE_TRUNC('month', FechaEnvioOC_parsed) as mes,
                COUNT(*) as ordenes,
                COUNT(DISTINCT ProveedorRUT) as proveedores
            FROM compras
            WHERE "
  ++ where_sql f
  ++ "
            GROUP BY DATE_TRUNC('month', FechaEnvioOC_parsed)
            ORDER BY mes
        ".

Definition adj_region_query (f : filters) : string :=
  "
                SELECT 
                    RegionProveedor as region,
                    COUNT(DISTINCT ProveedorRUT) as adjudicadores,
                    COUNT(*) as ordenes
                FROM compras
                WHERE "
  ++ where_sql f
  ++ "
                GROUP BY RegionProveedor
                ORDER BY adjudicadores DESC
            ".

Definition compras_region_query (f : filters) : string :=
  "
                SELECT 
                    RegionUnidadCompra as region,
                    COUNT(*) as ordenes,
                    SUM(TRY_CAST(MontoTotalOC_CLP AS DOUBLE)) as monto_total
                FROM compras
                WHERE "
  ++ where_sql f
  ++ "
                GROUP BY RegionUnidadCompra
                ORDER BY ordenes DESC
            ".

Definition especialidades_completo_query (f : filters) : string :=
  "
            SELECT 
                ONUProducto as especialidad,
                COUNT(*) as ordenes,
                COUNT(DISTINCT ProveedorRUT) as proveedores,
                SUM(TRY_CAST(MontoTotalOC_CLP AS DOUBLE)) as monto_total,
                AVG(TRY_CAST(MontoTotalOC_CLP AS DOUBLE)) as monto_promedio
            FROM compras
            WHERE "
  ++ where_sql f
  ++ " AND ONUProducto IS NOT NULL
            GROUP BY ONUProducto
            ORDER BY ordenes DESC
        ".

Definition detalle_query (f : filters) (limit : nat) : string :=
  "
            SELECT 
                codigoOC,
                FechaEnvioOC_parsed as Fecha,
                Proveedor,
                ProveedorRUT,
                RegionProveedor,
                RegionUnidadCompra,
                ONUProducto as Especialidad,
                RubroN1 as Rubro,
                TRY_CAST(MontoTotalOC_CLP AS DOUBLE) as Monto_CLP
            FROM compras
            WHERE "
  ++ where_sql f
  ++ "
            ORDER BY FechaEnvioOC_parsed DESC
            LIMIT "
  ++ str_int limit
  ++ "
        ".

Local Open Scope list_scope.

(** ** The script: one run of the dashboard *)

Module Frame.

(** [df.iloc[0]] *)
Definition iloc0 (t : table) : outcome (list value) :=
  match t_rows t with
  | r :: _ => Returned r
  | [] => Raised IndexError
  end.

Fixpoint index_of (name : string) (cols : list string) : option nat :=
  match cols with
  | [] => None
  | c :: rest => if String.eqb c name then Some 0 else option_map S (index_of name rest)
  end.

(** [row[name]] for a row of frame [t]. *)
Definition cell (t : table) (name : string) (r : list value) : value :=
  match index_of name (t_columns t) with
  | Some i => nth i r VNull
  | None => VNull
  end.

(** [df[name]] *)
Definition column (t : table) (name : string) : list value :=
  map (cell t name) (t_rows t).

(** [df.empty] *)
Definition empty (t : table) : bool :=
  match t_rows t with [] => true | _ => false end.

(** [df[name] = values], one new value per row. *)
Definition assign (t : table) (name : string) (vals : list value) : table :=
  mktable (t_columns t ++ [name])
          (map (fun p => fst p ++ [snd p]) (combine (t_rows t) vals)).

Definition int_of (v : value) : Z :=
  match v with VInt n => n | _ => 0%Z end.

(** [series / k] on a float column: a missing value stays missing. *)
Definition scale (k : Z) (v : value) : value :=
  match v with
  | VNum q => VNum (Qred (q / inject_Z k))
  | _ => VNull
  end.

(** Rounding of [num / den] to the nearest integer, a tie going to the even
    neighbour, as [.round] does. *)
Definition round_half_even (num den : Z) : Z :=
  let q := (num / den)%Z in
  let r := (num mod den)%Z in
  if (2 * r <? den)%Z then q
  else if (den <? 2 * r)%Z then (q + 1)%Z
  else if Z.even q then q else (q + 1)%Z.

Definition sumZ (l : list Z) : Z := fold_right Z.add 0%Z l.

(** [(ordenes / ordenes.sum() * 100).round(1)]: a percentage with one
    decimal, here the number of tenths over ten. *)
Definition participacion (ordenes : list Z) : list Q :=
  map (fun n => Qmake (round_half_even (1000 * n) (sumZ ordenes)) 10) ordenes.

End Frame.

Record dashboard := mkdashboard {
  kpis : list value;
  regiones_activas : value;
  df_esp : table;
  df_monto : table;
  df_tend : table;
  df_adj_reg : table;
  df_comp_reg : table;
  df_esp_completo : table;
  df_detalle : table
}.

(** Tab 3 adds three derived columns when the frame is not empty. *)
Definition with_derived_columns (t : table) : table :=
  if Frame.empty t then t
  else
    let t1 := Frame.assign t "monto_total_millones"
                (map (Frame.scale 1000000) (Frame.column t "monto_total")) in
    let t2 := Frame.assign t1 "monto_promedio_miles"
                (map (Frame.scale 1000) (Frame.column t1 "monto_promedio")) in
    Frame.assign t2 "participacion"
      (map VNum (Frame.participacion (map Frame.int_of (Frame.column t2 "ordenes")))).

(** The statements run in the order of the script; the first exception ends
    the run. *)
Definition render (f : filters) (limit : nat) (db : list row) : outcome dashboard :=
  k <- Exec.execute (kpi_query f) db ;;
  kpis <- Frame.iloc0 k ;;
  ra <- Exec.execute (regiones_activas_query f) db ;;
  ra0 <- Frame.iloc0 ra ;;
  esp <- Exec.execute (top_especialidades_query f) db ;;
  monto <- Exec.execute (monto_region_query f) db ;;
  tend <- Exec.execute (tendencia_query f) db ;;
  adj <- Exec.execute (adj_region_query f) db ;;
  comp <- Exec.execute (compras_region_query f) db ;;
  espc <- Exec.execute (especialidades_completo_query f) db ;;
  det <- Exec.execute (detalle_query f limit) db ;;
  Returned (mkdashboard kpis (Frame.cell ra "regiones" ra0) esp monto tend adj comp
              (with_derived_columns espc) det).

(** ** Notions used in the statements *)

(** The predicate that [where_sql] denotes: the engine's reading of the text
    as one boolean expression. *)
Definition compiled (f : filters) : outcome expr :=
  match Lexer.lex (where_sql f) with
  | Some ts =>
      match Parser.p_expr ts with
      | Some (e, []) => Returned e
      | _ => Raised ParserException
      end
  | None => Raised ParserException
  end.

(** A row passes the filters when the compiled predicate is true on it. *)
Definition passes (f : filters) (r : row) : bool :=
  match compiled f with
  | Returned e => Engine.holds e r
  | Raised _ => false
  end.

(** The dates come from [st.date_input], the texts hold no single quote. *)
Definition plain (f : filters) : Prop :=
  Date.python_date (fecha_inicio f) /\ Date.python_date (fecha_fin f) /\
  Text.quote_free (region_proveedor f) = true /\
  Text.quote_free (region_compra f) = true /\
  Text.quote_free (especialidad_selected f) = true /\
  Text.quote_free (search_term f) = true.

(** The expression that each clause of [where_clauses] is read as when the
    texts hold no single quote, clause by clause. *)
Definition clause_exprs (f : filters) : list expr :=
  (if solo_salud f
   then [EOr (ELike (ELower (ECol "RubroN1")) (EStr "%salud%"))
             (ELike (ELower (ECol "RubroN1")) (EStr "%médico%"))]
   else [])
  ++ [ECmp OpGe (ECol "FechaEnvioOC_parsed") (EDate (Date.str (fecha_inicio f)))]
  ++ [ECmp OpLe (ECol "FechaEnvioOC_parsed") (EDate (Date.str (fecha_fin f)))]
  ++ (if negb (String.eqb (region_proveedor f) "Todas")
      then [ECmp OpEq (ECol "RegionProveedor") (EStr (region_proveedor f))]
      else [])
  ++ (if negb (String.eqb (region_compra f) "Todas")
      then [ECmp OpEq (ECol "RegionUnidadCompra") (EStr (region_compra f))]
      else [])
  ++ (if negb (String.eqb (especialidad_selected f) "Todas")
      then [ECmp OpEq (ECol "ONUProducto") (EStr (especialidad_selected f))]
      else [])
  ++ (if truthy (search_term f)
      then [EOr (ELike (ELower (ECol "Proveedor"))
                       (EStr ("%" ++ Text.lower (search_term f) ++ "%")%string))
                (ELike (ECol "ProveedorRUT")
                       (EStr ("%" ++ search_term f ++ "%")%string))]
      else []).

Definition all_of (es : list expr) : expr :=
  match es with
  | [] => EInt 1
  | e :: rest => fold_left EAnd rest e
  end.

Definition predicate (f : filters) : expr := all_of (clause_exprs f).

(** ** Reading of the texts by the engine, for the proofs *)

(** The text that follows a clause: nothing, or something that starts with
    white space. *)
Definition clean_start (rest : string) : Prop :=
  match rest with
  | EmptyString => True
  | String w _ => Text.is_space w = true
  end.

(** [lexes_as c ts]: wherever clause [c] stands in clean surroundings, the
    lexer reads it as the tokens [ts]. *)
Definition lexes_as (c : string) (ts : list token) : Prop :=
  forall rest, clean_start rest ->
    Lexer.lex_from LNormal (c ++ rest) = option_map (app ts) (Lexer.lex_from LNormal rest).

Definition search_head : list token :=
  [TLParen; TWord "LOWER"; TLParen; TWord "Proveedor"; TRParen; TWord "LIKE"].

(** The tokens of each clause, clause by clause, when the texts hold no
    single quote. *)
Definition clause_tokens (f : filters) : list (list token) :=
  (if solo_salud f
   then [[TLParen; TWord "LOWER"; TLParen; TWord "RubroN1"; TRParen; TWord "LIKE";
          TString "%salud%"; TWord "OR"; TWord "LOWER"; TLParen; TWord "RubroN1"; TRParen;
          TWord "LIKE"; TString "%médico%"; TRParen]]
   else [])
  ++ [[TWord "FechaEnvioOC_parsed"; TGe; TWord "DATE"; TString (Date.str (fecha_inicio f))]]
  ++ [[TWord "FechaEnvioOC_parsed"; TLe; TWord "DATE"; TString (Date.str (fecha_fin f))]]
  ++ (if negb (String.eqb (region_proveedor f) "Todas")
      then [[TWord "RegionProveedor"; TEq; TString (region_proveedor f)]]
      else [])
  ++ (if negb (String.eqb (region_compra f) "Todas")
      then [[TWord "RegionUnidadCompra"; TEq; TString (region_compra f)]]
      else [])
  ++ (if negb (String.eqb (especialidad_selected f) "Todas")
      then [[TWord "ONUProducto"; TEq; TString (especialidad_selected f)]]
      else [])
  ++ (if truthy (search_term f)
      then [search_head ++
            [TString ("%" ++ Text.lower (search_term f) ++ "%")%string; TWord "OR";
             TWord "ProveedorRUT"; TWord "LIKE";
             TString ("%" ++ search_term f ++ "%")%string; TRParen]]
      else []).

Fixpoint join_tokens (tss : list (list token)) : list token :=
  match tss with
  | [] => []
  | [ts] => ts
  | ts :: rest => ts ++ TWord "AND" :: join_tokens rest
  end.

Definition where_tokens (f : filters) : list token := join_tokens (clause_tokens f).

(** The statements that the nine texts are read as, given the predicate
    [w] that the WHERE clause is read as. *)
Module Stmt.

Definition amount : expr := ETryCastDouble (ECol "MontoTotalOC_CLP").
Definition not_null_category (w : expr) : expr := EAnd w (EIsNotNull (ECol "ONUProducto")).
Definition month_of_date : expr := EDateTrunc "month" (ECol "FechaEnvioOC_parsed").

Definition kpi (w : expr) : statement :=
  mkstmt [mkitem (ECountDistinct (ECol "ProveedorRUT")) (Some "total_adjudicadores");
          mkitem ECountStar (Some "total_ordenes");
          mkitem (ESum amount) (Some "monto_total")]
         "compras" (Some w) None None None.

Definition regiones_activas (w : expr) : statement :=
  mkstmt [mkitem (ECountDistinct (ECol "RegionProveedor")) (Some "regiones")]
         "compras" (Some w) None None None.

Definition top_especialidades (w : expr) : statement :=
  mkstmt [mkitem (ECol "ONUProducto") (Some "especialidad");
          mkitem ECountStar (Some "cantidad")]
         "compras" (Some (not_null_category w)) (Some (ECol "ONUProducto"))
         (Some (ECol "cantidad", true)) (Some 10).

Definition monto_region (w : expr) : statement :=
  mkstmt [mkitem (ECol "RegionProveedor") (Some "region");
          mkitem (ESum amount) (Some "monto")]
         "compras" (Some w) (Some (ECol "RegionProveedor"))
         (Some (ECol "monto", true)) (Some 10).

Definition tendencia (w : expr) : statement :=
  mkstmt [mkitem month_of_date (Some "mes");
          mkitem ECountStar (Some "ordenes");
          mkitem (ECountDistinct (ECol "ProveedorRUT")) (Some "proveedores")]
         "compras" (Some w) (Some month_of_date) (Some (ECol "mes", false)) None.

Definition adj_region (w : expr) : statement :=
  mkstmt [mkitem (ECol "RegionProveedor") (Some "region");
          mkitem (ECountDistinct (ECol "ProveedorRUT")) (Some "adjudicadores");
          mkitem ECountStar (Some "ordenes")]
         "compras" (Some w) (Some (ECol "RegionProveedor"))
         (Some (ECol "adjudicadores", true)) None.

Definition compras_region (w : expr) : statement :=
  mkstmt [mkitem (ECol "RegionUnidadCompra") (Some "region");
          mkitem ECountStar (Some "ordenes");
          mkitem (ESum amount) (Some "monto_total")]
         "compras" (Some w) (Some (ECol "RegionUnidadCompra"))
         (Some (ECol "ordenes", true)) None.

Definition especialidades_completo (w : expr) : statement :=
  mkstmt [mkitem (ECol "ONUProducto") (Some "especialidad");
          mkitem ECountStar (Some "ordenes");
          mkitem (ECountDistinct (ECol "ProveedorRUT")) (Some "proveedores");
          mkitem (ESum amount) (Some "monto_total");
          mkitem (EAvg amount) (Some "monto_promedio")]
         "compras" (Some (not_null_category w)) (Some (ECol "ONUProducto"))
         (Some (ECol "ordenes", true)) None.

Definition detalle (w : expr) (limit : nat) : statement :=
  mkstmt [mkitem (ECol "codigoOC") None;
          mkitem (ECol "FechaEnvioOC_parsed") (Some "Fecha");
          mkitem (ECol "Proveedor") None;
          mkitem (ECol "ProveedorRUT") None;
          mkitem (ECol "RegionProveedor") None;
          mkitem (ECol "RegionUnidadCompra") None;
          mkitem (ECol "ONUProducto") (Some "Especialidad");
          mkitem (ECol "RubroN1") (Some "Rubro");
          mkitem amount (Some "Monto_CLP")]
         "compras" (Some w) None (Some (ECol "FechaEnvioOC_parsed", true)) (Some limit).

End Stmt.

(** The end of [detalle_query], after the clause. *)
Definition detalle_tail (limit : nat) : string :=
  "
            ORDER BY FechaEnvioOC_parsed DESC
            LIMIT " ++ str_int limit ++ "
        ".

(** ** What the statements return, for the proofs *)

Definition date_from (d : date) : expr :=
  ECmp OpGe (ECol "FechaEnvioOC_parsed") (EDate (Date.str d)).

Definition date_to (d : date) : expr :=
  ECmp OpLe (ECol "FechaEnvioOC_parsed") (EDate (Date.str d)).

Definition members (gs : list (value * list row)) : list row := concat (map snd gs).

(** The key of a group is the key of its first row. *)
Definition headed (key : row -> value) (kg : value * list row) : Prop :=
  match snd kg with
  | r :: _ => fst kg = key r
  | [] => False
  end.

Definition has_key (k : value) (gs : list (value * list row)) : Prop :=
  exists k' g, In (k', g) gs /\ Engine.value_eqb k k' = true.

Definition kept (w : expr) (db : list row) : list row := filter (Engine.holds w) db.

Definition grouped_rows (st : statement) (key : expr) (rs : list row) : list (list value) :=
  map (Exec.output_row (s_items st)) (Engine.group_rows (Engine.eval key) rs).

Definition detalle_columns : list string :=
  ["codigoOC"; "Fecha"; "Proveedor"; "ProveedorRUT"; "RegionProveedor";
   "RegionUnidadCompra"; "Especialidad"; "Rubro"; "Monto_CLP"].

Definition detalle_row (r : row) : list value :=
  map (fun it => Engine.eval (it_expr it) r) (s_items (Stmt.detalle (EInt 1) 0)).

Definition run_of (f : filters) (limit : nat) (db : list row) : dashboard :=
  let w := predicate f in
  let wc := Stmt.not_null_category w in
  mkdashboard
    (Exec.output_row (s_items (Stmt.kpi w)) (VNull, kept w db))
    (nth 0 (Exec.output_row (s_items (Stmt.regiones_activas w)) (VNull, kept w db)) VNull)
    (mktable ["especialidad"; "cantidad"]
       (firstn 10 (Engine.sort (fun r => nth 1 r VNull) true
          (grouped_rows (Stmt.top_especialidades w) (ECol "ONUProducto") (kept wc db)))))
    (mktable ["region"; "monto"]
       (firstn 10 (Engine.sort (fun r => nth 1 r VNull) true
          (grouped_rows (Stmt.monto_region w) (ECol "RegionProveedor") (kept w db)))))
    (mktable ["mes"; "ordenes"; "proveedores"]
       (Engine.sort (fun r => nth 0 r VNull) false
          (grouped_rows (Stmt.tendencia w) Stmt.month_of_date (kept w db))))
    (mktable ["region"; "adjudicadores"; "ordenes"]
       (Engine.sort (fun r => nth 1 r VNull) true
          (grouped_rows (Stmt.adj_region w) (ECol "RegionProveedor") (kept w db))))
    (mktable ["region"; "ordenes"; "monto_total"]
       (Engine.sort (fun r => nth 1 r VNull) true
          (grouped_rows (Stmt.compras_region w) (ECol "RegionUnidadCompra") (kept w db))))
    (with_derived_columns
       (mktable ["especialidad"; "ordenes"; "proveedores"; "monto_total"; "monto_promedio"]
          (Engine.sort (fun r => nth 1 r VNull) true
             (grouped_rows (Stmt.especialidades_completo w) (ECol "ONUProducto")
                (kept wc db)))))
    (mktable detalle_columns
       (firstn limit (map detalle_row
          (Engine.sort (Engine.eval (ECol "FechaEnvioOC_parsed")) true (kept w db))))).

Definition empty_dashboard : dashboard :=
  mkdashboard [VInt 0; VInt 0; VNull] (VInt 0)
    (mktable ["especialidad"; "cantidad"] [])
    (mktable ["region"; "monto"] [])
    (mktable ["mes"; "ordenes"; "proveedores"] [])
    (mktable ["region"; "adjudicadores"; "ordenes"] [])
    (mktable ["region"; "ordenes"; "monto_total"] [])
    (mktable ["especialidad"; "ordenes"; "proveedores"; "monto_total"; "monto_promedio"] [])
    (mktable detalle_columns []).

(** ** Sample records for the concrete runs *)

Definition rec_clinica : csv_row :=
  mkcsv (Some "OC-1") (Some "2025-03-10") (Some "Clinica Norte") (Some "76.1-K")
        (Some "Maule") (Some "Maule") (Some "Insumos") (Some "Salud y servicios")
        (Some "1000").

(** No supplier region, no category, and an amount that is not a number. *)
Definition rec_farmacia : csv_row :=
  mkcsv (Some "OC-2") (Some "2025-04-10") (Some "Farmacia Sur") (Some "77.2-1")
        None (Some "Maule") None (Some "Equipamiento MÉDICO") (Some "n/a").


(** Outside the health sector and outside the year 2025. *)
Definition rec_obra : csv_row :=
  mkcsv (Some "OC-4") (Some "2024-07-01") (Some "Constructora Andes") (Some "78.3-2")
        (Some "Atacama") (Some "Atacama") (Some "Obras") (Some "Construcción")
        (Some "500").

Definition with_search (term : string) : filters :=
  mkfilters true (mkdate 2025 1 1) (mkdate 2025 12 31) "Todas" "Todas" "Todas" term.

Definition with_region (region : string) : filters :=
  mkfilters true (mkdate 2025 1 1) (mkdate 2025 12 31) region "Todas" "Todas" "".

Definition with_dates (inicio fin : date) : filters :=
  mkfilters true inicio fin "Todas" "Todas" "Todas" "".

(** ** Aggregates of a group of rows, for the statements about amounts *)

(** The amount text of the row casts to a number. *)
Definition parseable (r : row) : bool :=
  match try_cast_double (MontoTotalOC_CLP (raw r)) with Some _ => true | None => false end.

Definition has_category (r : row) : bool :=
  match ONUProducto (raw r) with Some _ => true | None => false end.

(** [TRY_CAST(MontoTotalOC_CLP AS DOUBLE)] on each row. *)
Definition amounts (g : list row) : list value := map (Engine.eval Stmt.amount) g.

Definition count_of (g : list row) : value := VInt (Z.of_nat (List.length g)).

Definition suppliers_of (g : list row) : value :=
  Engine.aggregate (ECountDistinct (ECol "ProveedorRUT")) g.

(** Sum and mean of the amounts of the rows whose amount is a number. *)
Definition amount_sum (g : list row) : value := Engine.sum_of (amounts (filter parseable g)).
Definition amount_avg (g : list row) : value := Engine.avg_of (amounts (filter parseable g)).


(** Six categories with one order each. *)
Definition six_single_orders : list Z := [1; 1; 1; 1; 1; 1]%Z.

(** The reading of the search filter that the sidebar label promises: the
    term occurs as it stands in the supplier name, letter case aside, or in
    the supplier tax id. *)
Definition literal_match (term : string) (r : row) : bool :=
  match Proveedor (raw r) with
  | Some name => Text.contains (Text.lower term) (Text.lower name)
  | None => false
  end
  || match ProveedorRUT (raw r) with
     | Some rut => Text.contains term rut
     | None => false
     end.

(** The order codes of the listing, or the exception of the statement. *)
Definition listed (f : filters) (limit : nat) (db : list row) : outcome (list value) :=
  det <- Exec.execute (detalle_query f limit) db ;; Returned (Frame.column det "codigoOC").

(** The shares in tenths of a percent. *)
Definition tenths (total : Z) (ordenes : list Z) : list Z :=
  map (fun n => Frame.round_half_even (1000 * n)%Z total) ordenes.

(** ** Tokens that end an expression, for the proofs about the parser *)

(** A word that the expression parser neither consumes nor looks for. *)
Definition stop_word (s : string) : bool :=
  negb (existsb (Parser.kw s) ["or"; "and"; "like"; "is"; "not"; "null"; "as"]).

(** What follows an expression: nothing, or a word that ends it. *)
Definition stops (suf : list token) : Prop :=
  match suf with
  | [] => True
  | TWord s :: _ => stop_word s = true
  | _ => False
  end.

(** Whenever [p] parses an expression out of some tokens, [q] parses the
    same expression out of these tokens followed by [suf]. *)
Definition extends (suf : list token) (p q : list token -> Parser.result) : Prop :=
  forall ts e rest, p ts = Some (e, rest) -> q (ts ++ suf) = Some (e, rest ++ suf).

Definition newline : ascii := "010"%char.

(** The text holds neither of the LIKE wildcards. *)
Fixpoint no_wildcard (s : string) : bool :=
  match s with
  | EmptyString => true
  | String c rest =>
      negb (Text.code c =? 37)%nat && negb (Text.code c =? 95)%nat && no_wildcard rest
  end.

(** ** The engine: SELECT DISTINCT *)

(** The statement that fills the category control is the only one of the
    script with DISTINCT.  The repetitions among the output rows go first,
    then the rows are ordered and cut; the ORDER BY key has to be one of
    the select items. *)
Module Distinct.

Import Engine.

Definition p_statement (ts : list token) : option statement :=
  match ts with
  | TWord s :: TWord d :: rest =>
      if Parser.kw s "select" && Parser.kw d "distinct"
      then Parser.p_statement (TWord s :: rest)
      else None
  | _ => None
  end.

Definition parse (q : string) : outcome statement :=
  match Lexer.lex q with
  | Some ts =>
      match p_statement ts with
      | Some st => Returned st
      | None => Raised ParserException
      end
  | None => Raised ParserException
  end.

Fixpoint row_eqb (a b : list value) : bool :=
  match a, b with
  | [], [] => true
  | x :: a', y :: b' => value_eqb x y && row_eqb a' b'
  | _, _ => false
  end.

Fixpoint distinct_rows (rows : list (list value)) : list (list value) :=
  match rows with
  | [] => []
  | r :: rest =>
      if existsb (row_eqb r) rest then distinct_rows rest else r :: distinct_rows rest
  end.

Definition run (st : statement) (rs : list row) : outcome (list (list value)) :=
  out <- (if existsb (fun it => is_aggregate (it_expr it)) (s_items st)
             || match s_group st with Some _ => true | None => false end
          then Exec.run_grouped
                 (mkstmt (s_items st) (s_from st) (s_where st) (s_group st) None None) rs
          else
            _ <- Exec.check_each (fun it => typeof (it_expr it)) (s_items st) ;;
            Returned (map (fun r => map (fun it => eval (it_expr it) r) (s_items st)) rs)) ;;
  sorted <-
    match s_order st with
    | None => Returned (distinct_rows out)
    | Some (o, desc) =>
        match Exec.order_item o (s_items st) with
        | Some i => Returned (sort (fun r => nth i r VNull) desc (distinct_rows out))
        | None => Raised BinderException
        end
    end ;;
  Returned (limit (s_limit st) sorted).

Definition exec (st : statement) (db : list row) : outcome table :=
  if negb (String.eqb (Text.lower (s_from st)) "compras") then Raised CatalogException
  else
    _ <- Exec.check_where (s_where st) ;;
    out <- run st (Exec.filtered (s_where st) db) ;;
    Returned (mktable (map Exec.item_name (s_items st)) out).

(** [con.execute(q).df()] for a statement that starts with SELECT DISTINCT. *)
Definition execute (q : string) (db : list row) : outcome table :=
  st <- parse q ;; exec st db.

End Distinct.

(** ** The script: the access gate (lines 73-96) *)

(** A value under a key of a table of the secrets file: a text, or
    something else (a number, a flag, a date, an array, a table). *)
Inductive toml :=
| TomlStr (s : string)
| TomlOther.

(** What stands under a top-level key of the secrets file: a table, or a
    value that is none. *)
Inductive secret :=
| Table (entries : list (string * toml))
| Plain (v : toml).

(** [st.secrets]: the top-level keys of the secrets file of the deployment,
    or no secrets file at all. *)
Inductive secrets_file :=
| NoSecretsFile
| SecretsFile (keys : list (string * secret)).

(** The entry under a key, as [mapping.get(key)] finds it. *)
Fixpoint lookup {A : Type} (key : string) (entries : list (string * A)) : option A :=
  match entries with
  | [] => None
  | (k, v) :: rest => if String.eqb k key then Some v else lookup key rest
  end.

(** [st.session_state], as far as the script uses it: the key
    [password_correct] is absent or holds a flag. *)
Record session_state := mksession { password_correct : option bool }.

(** What one call displays. *)
Inductive element :=
| StMarkdown (body : string)
| StTextInput (label : string)
| StError (body : string)
| StInfo (body : string).

(** The exceptions of the access gate: a [.get] on a secret that is no
    table, and a reading of [st.secrets] without a secrets file. *)
Inductive error :=
| AttributeError
| StreamlitSecretNotFoundError.

(** How a call ends: with a value, with [st.rerun()], or with an exception. *)
Inductive control (A : Type) :=
| Return (a : A)
| Rerun
| Raise (e : error).
Arguments Return {A} a.
Arguments Rerun {A}.
Arguments Raise {A} e.

(** [st.secrets.get("GENERAL", {}).get("APP_PASSWORD", "salud2025")]: the
    value, or the exception that the reading raises.  The defaults stand in
    for a missing key of a secrets file, not for a missing file. *)
Definition secret_pwd (secrets : secrets_file) : toml + error :=
  match secrets with
  | NoSecretsFile => inr StreamlitSecretNotFoundError
  | SecretsFile keys =>
      match lookup "GENERAL" keys with
      | None => inl (TomlStr "salud2025")
      | Some (Table general) =>
          match lookup "APP_PASSWORD" general with
          | Some v => inl v
          | None => inl (TomlStr "salud2025")
          end
      | Some (Plain _) => inr AttributeError
      end
  end.

(** [pwd_input == secret_pwd]: a text equals a text of the same characters
    and nothing else. *)
Definition same_text (pwd_input : string) (v : toml) : bool :=
  match v with
  | TomlStr s => String.eqb pwd_input s
  | _ => false
  end.

Definition login_title : element :=
  StMarkdown "<h1 style='text-align: center; color: white;'>🔐 Inteligencia en Salud - Chile</h1>".

Definition login_input : element := StTextInput "Código de Acceso".

Definition login_denied : element := StError "❌ Acceso Denegado".

Definition login_hint : element := StInfo "💡 Contraseña por defecto: **salud2025**".

(** One call of [check_password]: the session state after it, what it
    displayed, and how it ended. *)
Definition check_password (secrets : secrets_file) (session : session_state)
           (pwd_input : string) : session_state * list element * control bool :=
  let session :=
    match password_correct session with
    | None => mksession (Some false)
    | Some _ => session
    end in
  match password_correct session with
  | Some true => (session, [], Return true)
  | _ =>
      if truthy pwd_input then
        match secret_pwd secrets with
        | inr e => (session, [login_title; login_input], Raise e)
        | inl v =>
            if same_text pwd_input v
            then (mksession (Some true), [login_title; login_input], Rerun)
            else (session, [login_title; login_input; login_denied; login_hint],
                  Return false)
        end
      else (session, [login_title; login_input; login_hint], Return false)
  end.

(** ** The script: the sidebar (lines 176-203) *)

Definition especialidades_query : string :=
  "SELECT DISTINCT ONUProducto FROM compras WHERE ONUProducto IS NOT NULL ORDER BY ONUProducto".

(** [series.tolist()] on a column of texts; a missing value is [None],
    which a format string writes as None. *)
Definition tolist (vs : list value) : list string :=
  map (fun v => match v with VStr s => s | _ => "None" end) vs.

(** The options of the category control (lines 196-198). *)
Definition especialidades (db : list row) : outcome (list string) :=
  especialidades_df <- Distinct.execute especialidades_query db ;;
  Returned ("Todas" :: tolist (Frame.column especialidades_df "ONUProducto")).

(** The state of the widgets of a run: the flag, the two dates, the
    position picked in each of the three lists, the text of the search box
    and the position of the slider. *)
Record widgets := mkwidgets {
  w_solo_salud : bool;
  w_fecha_inicio : date;
  w_fecha_fin : date;
  w_region_proveedor : nat;
  w_region_compra : nat;
  w_especialidad : nat;
  w_search_term : string;
  w_limit : nat
}.

(** The widgets as a first run finds them. *)
Definition initial_widgets : widgets :=
  mkwidgets true (mkdate 2025 1 1) (mkdate 2025 12 31) 0 0 0 "" 9.

(** The values that the sidebar hands to the construction of the clause. *)
Definition sidebar (w : widgets) (db : list row) : outcome filters :=
  options <- especialidades db ;;
  Returned (mkfilters (w_solo_salud w) (w_fecha_inicio w) (w_fecha_fin w)
              (selectbox region_proveedor_options (w_region_proveedor w))
              (selectbox region_compra_options (w_region_compra w))
              (selectbox options (w_especialidad w))
              (w_search_term w)).

(** ** The script: one run from the top (lines 160-170) *)

(** What [load_data_from_r2] hands back: the connection and no error, or no
    connection and the text of the exception. *)
Inductive load_result :=
| Loaded (con : list row)
| NotLoaded (error : string).

(** What a run leaves on the page. *)
Inductive page :=
| LoginPage (shown : list element)
| LoadErrorPage (error : string)          (* [st.error], [st.info], [st.stop()] *)
| DashboardPage (f : filters) (d : dashboard)
| ExceptionPage (e : exn).                (* an exception of the engine, not caught *)

Definition script (secrets : secrets_file) (loaded : load_result)
           (session : session_state) (pwd_input : string) (w : widgets)
  : session_state * control page :=
  let '(session, shown, c) := check_password secrets session pwd_input in
  match c with
  | Return true =>
      match loaded with
      | NotLoaded error => (session, Return (LoadErrorPage error))
      | Loaded con =>
          match (f <- sidebar w con ;;
                 d <- render f (slider_value (w_limit w)) con ;;
                 Returned (f, d)) with
          | Returned (f, d) => (session, Return (DashboardPage f d))
          | Raised e => (session, Return (ExceptionPage e))
          end
      end
  | Return false => (session, Return (LoginPage shown))
  | Rerun => (session, Rerun)
  | Raise e => (session, Raise e)
  end.

(** The session over successive runs, one per state of the password box;
    a rerun is one more run with the box as it is. *)
Fixpoint sessions (secrets : secrets_file) (loaded : load_result)
         (session : session_state) (runs : list (string * widgets)) : session_state :=
  match runs with
  | [] => session
  | (pwd_input, w) :: rest =>
      sessions secrets loaded (fst (script secrets loaded session pwd_input w)) rest
  end.

(** ** The script: the KPI cards (lines 253-288) *)

(** [kpis[name]] *)
Definition kpi_value (d : dashboard) (name : string) : value :=
  match Frame.index_of name ["total_adjudicadores"; "total_ordenes"; "monto_total"] with
  | Some i => nth i (kpis d) VNull
  | None => VNull
  end.

(** Line 270: [monto / 1_000_000_000 if monto else 0].  A missing sum is
    NaN in the frame; NaN counts as true in a condition and stays NaN when
    divided. *)
Definition monto_miles_millones (monto_total : value) : value :=
  match monto_total with
  | VNum q => if Qeq_bool q 0 then VInt 0 else Frame.scale 1000000000 (VNum q)
  | _ => VNull
  end.

(** ** Direct reading of the filters on a record, for the statements *)

(** The choice made in a list: everything at 'Todas', else the records
    whose field is the chosen text. *)
Definition chosen (choice : string) (field : option string) : bool :=
  String.eqb choice "Todas"
  || match field with Some s => String.eqb s choice | None => false end.

Definition in_health_sector (r : row) : bool :=
  match RubroN1 (raw r) with
  | Some s => Text.contains "salud" (Text.lower s) || Text.contains "médico" (Text.lower s)
  | None => false
  end.

Definition in_period (inicio fin : date) (r : row) : bool :=
  match FechaEnvioOC_parsed r with
  | Some d => Date.leb inicio d && Date.leb d fin
  | None => false
  end.

(** The search box: the pattern of the clause on the supplier name in small
    letters, or on the tax id as it stands. *)
Definition found (term : string) (r : row) : bool :=
  match Proveedor (raw r) with
  | Some name => Text.like ("%" ++ Text.lower term ++ "%") (Text.lower name)
  | None => false
  end
  || match ProveedorRUT (raw r) with
     | Some rut => Text.like ("%" ++ term ++ "%") rut
     | None => false
     end.

Definition row_passes (f : filters) (r : row) : bool :=
  (negb (solo_salud f) || in_health_sector r)
  && in_period (fecha_inicio f) (fecha_fin f) r
  && chosen (region_proveedor f) (RegionProveedor (raw r))
  && chosen (region_compra f) (RegionUnidadCompra (raw r))
  && chosen (especialidad_selected f) (ONUProducto (raw r))
  && (negb (truthy (search_term f)) || found (search_term f) r).

(** [g] is [f] with some of the filters released: the health flag off, a
    list back at 'Todas', the search box emptied, the period widened. *)
Definition released (f g : filters) : Prop :=
  (solo_salud g = true -> solo_salud f = true) /\
  Date.leb (fecha_inicio g) (fecha_inicio f) = true /\
  Date.leb (fecha_fin f) (fecha_fin g) = true /\
  (region_proveedor g = "Todas" \/ region_proveedor g = region_proveedor f) /\
  (region_compra g = "Todas" \/ region_compra g = region_compra f) /\
  (especialidad_selected g = "Todas" \/ especialidad_selected g = especialidad_selected f) /\
  (search_term g = "" \/ search_term g = search_term f).

(** ** Notions used in the statements about the views *)

(** The rows of the data store that pass the filters and hold [k] in the
    column [col]. *)
Definition orders_with (f : filters) (db : list row) (col : expr) (k : value) : list row :=
  filter (fun r => passes f r && Engine.value_eqb (Engine.eval col r) k) db.

(** A column of a frame as whole numbers. *)
Definition ints (t : table) (name : string) : list Z :=
  map Frame.int_of (Frame.column t name).

Definition is_nil {A : Type} (l : list A) : bool :=
  match l with [] => true | _ => false end.

(** Every element of the list stands in relation [R] to each of the
    elements that follow it. *)
Fixpoint ordered {A : Type} (R : A -> A -> Prop) (l : list A) : Prop :=
  match l with
  | [] => True
  | x :: rest => Forall (R x) rest /\ ordered R rest
  end.

(** Date [a] is earlier than date [b]. *)
Definition date_lt (a b : date) : bool := Date.leb a b && negb (Date.eqb a b).

(** The date in a cell. *)
Definition date_in (v : value) : date :=
  match v with VDate d => d | _ => mkdate 0 0 0 end.

(** Row [a] was sent on the day of row [b] or later. *)
Definition not_before (a b : row) : Prop :=
  match FechaEnvioOC_parsed a, FechaEnvioOC_parsed b with
  | Some x, Some y => Date.leb y x = true
  | _, _ => False
  end.

(** Amount [a] comes before amount [b] when the larger sum goes first and a
    missing sum goes last. *)
Definition larger_first (a b : value) : Prop :=
  match a, b with
  | _, VNull => True
  | VNum x, VNum y => (y <= x)%Q
  | _, _ => False
  end.

(** The initial filters with a category chosen. *)
Definition with_category (category : string) : filters :=
  mkfilters true (mkdate 2025 1 1) (mkdate 2025 12 31) "Todas" "Todas" category "".


(** ** Texts and amounts that the model reads as the engine does

    The model folds the letters of the Latin-1 range only, its [_] stands for
    one byte, and its DOUBLE is an exact rational.  The statements that say
    what a search finds or what a sum is are made for the texts and the
    amounts on which this is what the program computes too. *)

(** A field of a record: missing, or a text of the Latin-1 range. *)
Definition latin1_field (field : option string) : bool :=
  match field with
  | Some s => Text.latin1 s
  | None => true
  end.

(** The text holds no [_], the wildcard of LIKE for one character. *)
Fixpoint no_underscore (s : string) : bool :=
  match s with
  | EmptyString => true
  | String c rest => negb (Text.code c =? 95)%nat && no_underscore rest
  end.

(** Some character of the text has the property. *)
Fixpoint has (p : ascii -> bool) (s : string) : bool :=
  match s with
  | EmptyString => false
  | String c rest => p c || has p rest
  end.

Definition is_letter (c : ascii) : bool :=
  ((65 <=? Text.code c)%nat && (Text.code c <=? 90)%nat)
  || ((97 <=? Text.code c)%nat && (Text.code c <=? 122)%nat).

Definition is_blank (c : ascii) : bool :=
  ((9 <=? Text.code c)%nat && (Text.code c <=? 13)%nat) || (Text.code c =? 32)%nat.

(** An amount written as a whole number of pesos: one to fifteen digits and
    nothing else.  The engine reads it as that number, whether the column was
    loaded as text or as numbers, and a DOUBLE holds it exactly. *)
Definition whole_pesos (s : string) : bool :=
  (1 <=? String.length s)%nat && (String.length s <=? 15)%nat
  && negb (has (fun c => negb (Text.is_digit c)) s).

(** A text that is no number in any reading: it holds no digit, neither of
    the words nan and inf in whatever letter case, and some character that is
    neither a letter nor a blank.  [n/a] is one. *)
Definition no_number (s : string) : bool :=
  negb (has Text.is_digit s)
  && negb (Text.contains "nan" (Text.lower s))
  && negb (Text.contains "inf" (Text.lower s))
  && has (fun c => negb (is_letter c || is_blank c)) s.

(** The pesos of an amount field, none when the field is no whole number. *)
Definition pesos (field : option string) : Z :=
  match field with
  | Some s =>
      if whole_pesos s
      then match Text.digits s with Some n => Z.of_nat n | None => 0%Z end
      else 0%Z
  | None => 0%Z
  end.

Definition amount_in_range (field : option string) : bool :=
  match field with
  | Some s => whole_pesos s || no_number s
  | None => true
  end.

(** Every amount of the file is missing, a whole number of pesos or no
    number at all, and the pesos of the whole file stay below 2^53: every sum
    of amounts is then a whole number that a DOUBLE holds exactly, in
    whatever order the engine adds. *)
Definition exact_amounts (file : list csv_row) : Prop :=
  Forall (fun rec => amount_in_range (MontoTotalOC_CLP rec) = true) file /\
  (Frame.sumZ (map (fun rec => pesos (MontoTotalOC_CLP rec)) file) < 2 ^ 53)%Z.

(** ** Groups, order and frames, for the proofs *)

(** The rows with key [k], the keys being compared as GROUP BY compares
    them. *)
Definition same_key (key : row -> value) (k : value) (r : row) : bool :=
  Engine.value_eqb (key r) k.

(** Two groups with different keys. *)
Definition apart (a b : value * list row) : Prop :=
  Engine.value_eqb (fst a) (fst b) = false.

(** Two elements in the order of an ORDER BY key. *)
Definition in_order {A : Type} (key : A -> value) (desc : bool) (x y : A) : Prop :=
  Engine.before desc (key x) (key y) = true.

(** Kinds of values that an ORDER BY key takes in the statements. *)
Definition is_int (v : value) : Prop := exists n, v = VInt n.
Definition is_date (v : value) : Prop := exists d, v = VDate d.
Definition is_text (v : value) : Prop := exists s, v = VStr s.
Definition is_amount (v : value) : Prop := v = VNull \/ exists q, v = VNum q.

(** Every row of the frame has one value per column. *)
Definition well_formed (t : table) : Prop :=
  Forall (fun r => List.length r = List.length (t_columns t)) (t_rows t).

(** * Part II: results *)

Local Open Scope string_scope.
Local Open Scope nat_scope.
Local Open Scope list_scope.

(** ** Sanity checks of the engine on concrete inputs *)

Example lower_ex : Text.lower "MÉDICO Ñu" = "médico ñu".
Proof. reflexivity. Qed.

Example date_ex : Date.cast "2025-02-29" = None /\ Date.cast "2024-02-29" = Some (mkdate 2024 2 29).
Proof. split; reflexivity. Qed.

Example num_ex : Num.cast "12.5" = Some (25 # 2)%Q /\ Num.cast "1.234.567" = None.
Proof. split; reflexivity. Qed.

Example lex_ex :
  Lexer.lex "WHERE a >= DATE '2025-01-01' AND (LOWER(b) LIKE '%o''h%') -- x" =
  Some [TWord "WHERE"; TWord "a"; TGe; TWord "DATE"; TString "2025-01-01"; TWord "AND";
        TLParen; TWord "LOWER"; TLParen; TWord "b"; TRParen; TWord "LIKE";
        TString "%o'h%"; TRParen].
Proof. reflexivity. Qed.

Example parse_ex :
  Parser.parse "SELECT COUNT(*) as n, SUM(TRY_CAST(m AS DOUBLE)) FROM t
                WHERE a = 'x' AND (LOWER(b) LIKE '%y%' OR c LIKE '%y%') AND d IS NOT NULL
                GROUP BY k ORDER BY n DESC LIMIT 10" =
  Returned (mkstmt [mkitem ECountStar (Some "n"); mkitem (ESum (ETryCastDouble (ECol "m"))) None]
              "t"
              (Some (EAnd (EAnd (ECmp OpEq (ECol "a") (EStr "x"))
                                (EOr (ELike (ELower (ECol "b")) (EStr "%y%"))
                                     (ELike (ECol "c") (EStr "%y%"))))
                          (EIsNotNull (ECol "d"))))
              (Some (ECol "k")) (Some (ECol "n", true)) (Some 10)).
Proof. vm_compute. reflexivity. Qed.

Example like_ex : Text.like "%salud%" "servicios de salud" = true.
Proof. reflexivity. Qed.

Example str_ex : Date.str (mkdate 2025 1 1) = "2025-01-01".
Proof. reflexivity. Qed.

(** ** Text and dates *)

Lemma append_assoc (a b c : string) : ((a ++ b) ++ c = a ++ (b ++ c))%string.
Proof. induction a as [|x a IH]; simpl; [reflexivity | now rewrite IH]. Qed.

Lemma append_nil_r (a : string) : (a ++ "" = a)%string.
Proof. induction a as [|x a IH]; simpl; [reflexivity | now rewrite IH]. Qed.

Lemma quote_free_app (a b : string) :
  Text.quote_free (a ++ b) = Text.quote_free a && Text.quote_free b.
Proof.
  induction a as [|x a IH]; simpl; [reflexivity|].
  rewrite IH. now rewrite andb_assoc.
Qed.

Lemma digit_facts (k : nat) :
  k < 10 ->
  Text.is_digit (Text.digit k) = true /\ Text.digit_val (Text.digit k) = k /\
  Ascii.eqb (Text.digit k) Text.quote = false.
Proof.
  intros H.
  do 10 (destruct k as [|k]; [repeat split; reflexivity|]).
  lia.
Qed.

Lemma lower_ascii_not_quote (c : ascii) :
  Ascii.eqb c Text.quote = false -> Ascii.eqb (Text.lower_ascii c) Text.quote = false.
Proof.
  destruct c as [[] [] [] [] [] [] [] []]; intros H; try reflexivity; discriminate H.
Qed.

Lemma lower_latin1_not_quote (c : ascii) :
  Ascii.eqb c Text.quote = false -> Ascii.eqb (Text.lower_latin1 c) Text.quote = false.
Proof.
  destruct c as [[] [] [] [] [] [] [] []]; intros H; try reflexivity; discriminate H.
Qed.

Lemma lower_quote_free_aux (n : nat) :
  forall s, String.length s < n -> Text.quote_free s = true ->
            Text.quote_free (Text.lower s) = true.
Proof.
  induction n as [|n IH]; intros s Hn Hq; [lia|].
  destruct s as [|c s]; [reflexivity|].
  simpl in Hq. apply andb_prop in Hq. destruct Hq as [Hc Hs].
  apply negb_true_iff in Hc.
  simpl. destruct (Text.code c =? 195) eqn:E.
  - destruct s as [|d s].
    + simpl. now rewrite Hc.
    + simpl in Hs. apply andb_prop in Hs. destruct Hs as [Hd Hs].
      apply negb_true_iff in Hd.
      simpl. rewrite Hc, (lower_latin1_not_quote d Hd). simpl.
      apply IH; [simpl in Hn; lia | exact Hs].
  - simpl. rewrite (lower_ascii_not_quote c Hc). simpl.
    apply IH; [simpl in Hn; lia | exact Hs].
Qed.

Lemma lower_quote_free (s : string) :
  Text.quote_free s = true -> Text.quote_free (Text.lower s) = true.
Proof. apply (lower_quote_free_aux (S (String.length s))). lia. Qed.

Lemma python_date_bounds (d : date) :
  Date.python_date d -> year d < 100 * 100 /\ 1 <= month d <= 12 /\ 1 <= day d <= 31.
Proof.
  intros [Hv [Hy1 Hy2]].
  unfold Date.valid in Hv.
  repeat (apply andb_prop in Hv; destruct Hv as [Hv ?]).
  repeat match goal with H : (_ <=? _) = true |- _ => apply Nat.leb_le in H end.
  assert (Date.days_in_month (year d) (month d) <= 31).
  { unfold Date.days_in_month.
    generalize (month d). intros m.
    destruct (Date.leap (year d));
      do 13 (destruct m as [|m]; [simpl; lia|]); simpl; lia. }
  lia.
Qed.

Lemma pad2_digits (n : nat) :
  n < 100 ->
  Text.pad2 n = String (Text.digit (n / 10)) (String (Text.digit (n mod 10)) "") /\
  n / 10 < 10 /\ n mod 10 < 10.
Proof.
  intros H. split; [reflexivity|]. split.
  - apply Nat.Div0.div_lt_upper_bound. lia.
  - apply Nat.mod_upper_bound. lia.
Qed.

Lemma str_quote_free (d : date) :
  Date.python_date d -> Text.quote_free (Date.str d) = true.
Proof.
  intros H. apply python_date_bounds in H. destruct H as [Hy [Hm Hd]].
  assert (A : year d / 1000 < 10) by (apply Nat.Div0.div_lt_upper_bound; lia).
  assert (B : year d / 100 mod 10 < 10) by (apply Nat.mod_upper_bound; lia).
  assert (C : year d mod 100 < 100) by (apply Nat.mod_upper_bound; lia).
  destruct (pad2_digits _ C) as [_ [C1 C2]].
  destruct (pad2_digits (month d)) as [_ [M1 M2]]; [lia|].
  destruct (pad2_digits (day d)) as [_ [D1 D2]]; [lia|].
  unfold Date.str, Text.pad4, Text.pad2.
  cbn [append Text.quote_free].
  repeat match goal with
         | |- context [Ascii.eqb (Text.digit ?k) Text.quote] =>
             rewrite (proj2 (proj2 (digit_facts k ltac:(assumption))))
         end.
  reflexivity.
Qed.

Lemma cast_str (d : date) : Date.python_date d -> Date.cast (Date.str d) = Some d.
Proof.
  intros H. pose proof H as [Hv _].
  apply python_date_bounds in H. destruct H as [Hy [Hm Hd]].
  assert (A : year d / 1000 < 10) by (apply Nat.Div0.div_lt_upper_bound; lia).
  assert (B : year d / 100 mod 10 < 10) by (apply Nat.mod_upper_bound; lia).
  assert (C : year d mod 100 < 100) by (apply Nat.mod_upper_bound; lia).
  destruct (pad2_digits _ C) as [_ [C1 C2]].
  destruct (pad2_digits (month d)) as [_ [M1 M2]]; [lia|].
  destruct (pad2_digits (day d)) as [_ [D1 D2]]; [lia|].
  unfold Date.cast, Date.str, Text.pad4, Text.pad2.
  cbn [append String.length get substring Nat.eqb andb Ascii.eqb Bool.eqb
       Text.digits Text.digits_from].
  repeat match goal with
         | |- context [Text.is_digit (Text.digit ?k)] =>
             rewrite (proj1 (digit_facts k ltac:(assumption)))
         | |- context [Text.digit_val (Text.digit ?k)] =>
             rewrite (proj1 (proj2 (digit_facts k ltac:(assumption))))
         end.
  cbn [Text.digits_from].
  replace (10 * (10 * (10 * (10 * 0 + year d / 1000) + year d / 100 mod 10)
                 + year d mod 100 / 10) + year d mod 100 mod 10) with (year d).
  2:{ pose proof (Nat.div_mod_eq (year d) 1000).
      pose proof (Nat.div_mod_eq (year d) 100).
      pose proof (Nat.div_mod_eq (year d / 100) 10).
      pose proof (Nat.div_mod_eq (year d mod 100) 10).
      pose proof (Nat.Div0.div_div (year d) 100 10).
      change (100 * 10) with 1000 in *. lia. }
  replace (10 * (10 * 0 + month d / 10) + month d mod 10) with (month d)
    by (pose proof (Nat.div_mod_eq (month d) 10); lia).
  replace (10 * (10 * 0 + day d / 10) + day d mod 10) with (day d)
    by (pose proof (Nat.div_mod_eq (day d) 10); lia).
  destruct d as [y m dd]. cbn [year month day] in *. now rewrite Hv.
Qed.

(** ** Lexing of the clauses *)

Lemma run_app (st : lstate) (a b : string) :
  Lexer.run st (a ++ b) =
  (fst (Lexer.run (fst (Lexer.run st a)) b),
   snd (Lexer.run st a) ++ snd (Lexer.run (fst (Lexer.run st a)) b)).
Proof.
  revert st. induction a as [|c a IH]; intros st; simpl.
  - now destruct (Lexer.run st b).
  - rewrite IH. simpl. now rewrite app_assoc.
Qed.

Lemma run_body (acc body : string) :
  Text.quote_free body = true ->
  Lexer.run (LStr acc) body = (LStr (acc ++ body), []).
Proof.
  revert acc. induction body as [|c body IH]; intros acc H; simpl.
  - now rewrite append_nil_r.
  - simpl in H. apply andb_prop in H. destruct H as [Hc Hb].
    apply negb_true_iff in Hc. rewrite Hc. simpl.
    rewrite (IH _ Hb). unfold Lexer.snoc. now rewrite append_assoc.
Qed.

Lemma lex_from_app (st : lstate) (a b : string) :
  Lexer.lex_from st (a ++ b) =
  option_map (app (snd (Lexer.run st a))) (Lexer.lex_from (fst (Lexer.run st a)) b).
Proof.
  unfold Lexer.lex_from. rewrite run_app. simpl.
  destruct (Lexer.finish _); simpl; [now rewrite app_assoc | reflexivity].
Qed.

Lemma space_not_quote (w : ascii) :
  Text.is_space w = true -> Ascii.eqb w Text.quote = false.
Proof.
  destruct w as [[] [] [] [] [] [] [] []]; intros H; try reflexivity; discriminate H.
Qed.

Lemma start_space (w : ascii) : Text.is_space w = true -> Lexer.start w = (LNormal, []).
Proof. intros H. unfold Lexer.start. now rewrite H. Qed.

Lemma lex_from_body (acc body rest : string) :
  Text.quote_free body = true ->
  Lexer.lex_from (LStr acc) (body ++ rest) = Lexer.lex_from (LStr (acc ++ body)) rest.
Proof.
  intros H. rewrite lex_from_app, (run_body _ _ H). simpl.
  now destruct (Lexer.lex_from _ rest).
Qed.

(** A literal closes at the quote when the text goes on cleanly. *)
Lemma lex_from_close (acc rest : string) :
  clean_start rest ->
  Lexer.lex_from (LStr acc) (String Text.quote rest) =
  option_map (cons (TString acc)) (Lexer.lex_from LNormal rest).
Proof.
  intros H. unfold Lexer.lex_from. simpl.
  destruct rest as [|w rest]; [reflexivity|].
  simpl in H. simpl.
  rewrite (space_not_quote _ H), (start_space _ H). simpl.
  now destruct (Lexer.finish _).
Qed.

Lemma lex_from_prefix (st st' : lstate) (a b : string) (ts : list token) :
  Lexer.run st a = (st', ts) ->
  Lexer.lex_from st (a ++ b) = option_map (app ts) (Lexer.lex_from st' b).
Proof. intros H. now rewrite lex_from_app, H. Qed.

Lemma option_map_app (a b : list token) (o : option (list token)) :
  option_map (app a) (option_map (app b) o) = option_map (app (a ++ b)) o.
Proof. destruct o; simpl; [now rewrite app_assoc | reflexivity]. Qed.

Lemma option_map_cons (t : token) (o : option (list token)) :
  option_map (cons t) o = option_map (app [t]) o.
Proof. now destruct o. Qed.

Lemma lexes_closed (c : string) (ts : list token) :
  Lexer.run LNormal c = (LNormal, ts) -> lexes_as c ts.
Proof. intros H rest _. now apply lex_from_prefix. Qed.

(** [<column> <op> [DATE] '<body>'] *)
Lemma lexes_quoted (pre body : string) (ts : list token) :
  Lexer.run LNormal pre = (LStr "", ts) ->
  Text.quote_free body = true ->
  lexes_as (pre ++ body ++ "'") (ts ++ [TString body]).
Proof.
  intros Hpre Hb rest Hrest.
  rewrite !append_assoc.
  rewrite (lex_from_prefix _ _ _ _ _ Hpre), (lex_from_body _ _ _ Hb).
  change ("'" ++ rest)%string with (String Text.quote rest).
  rewrite (lex_from_close _ _ Hrest), option_map_cons, option_map_app.
  reflexivity.
Qed.

Lemma lexes_search (a b : string) :
  Text.quote_free a = true -> Text.quote_free b = true ->
  lexes_as ("(LOWER(Proveedor) LIKE '%" ++ a ++ "%' OR ProveedorRUT LIKE '%" ++ b ++ "%')")
           (search_head ++ [TString ("%" ++ a ++ "%"); TWord "OR"; TWord "ProveedorRUT";
                            TWord "LIKE"; TString ("%" ++ b ++ "%"); TRParen]).
Proof.
  intros Ha Hb rest _.
  rewrite !append_assoc.
  rewrite (lex_from_prefix LNormal (LStr "%") _ _ search_head) by reflexivity.
  rewrite (lex_from_body _ _ _ Ha).
  rewrite (lex_from_prefix (LStr ("%" ++ a)) (LStr "%") _ _
             [TString ("%" ++ a ++ "%"); TWord "OR"; TWord "ProveedorRUT"; TWord "LIKE"]).
  2:{ reflexivity. }
  rewrite (lex_from_body _ _ _ Hb).
  rewrite (lex_from_prefix (LStr ("%" ++ b)) LNormal _ _
             [TString ("%" ++ b ++ "%"); TRParen]).
  2:{ reflexivity. }
  rewrite !option_map_app. reflexivity.
Qed.

Lemma lexes_join (cs : list string) (tss : list (list token)) :
  Forall2 lexes_as cs tss -> lexes_as (Text.join " AND " cs) (join_tokens tss).
Proof.
  induction 1 as [|c ts cs tss Hc Hcs IH].
  - intros rest _. simpl. now destruct (Lexer.lex_from LNormal rest).
  - destruct Hcs as [|c' ts' cs' tss' Hc' Hcs'].
    + exact Hc.
    + intros rest Hrest.
      change (Text.join " AND " (c :: c' :: cs'))
        with (c ++ " AND " ++ Text.join " AND " (c' :: cs'))%string.
      change (join_tokens (ts :: ts' :: tss'))
        with (ts ++ TWord "AND" :: join_tokens (ts' :: tss')).
      rewrite !append_assoc.
      rewrite (Hc _ (eq_refl : clean_start (" AND " ++ _))).
      rewrite (lex_from_prefix LNormal LNormal " AND " _ [TWord "AND"]) by reflexivity.
      rewrite (IH rest Hrest), !option_map_app.
      now rewrite <- app_assoc.
Qed.

Lemma lexes_clauses (f : filters) :
  plain f -> Forall2 lexes_as (where_clauses f) (clause_tokens f).
Proof.
  intros (H1 & H2 & H3 & H4 & H5 & H6).
  unfold where_clauses, clause_tokens.
  repeat apply Forall2_app.
  - destruct (solo_salud f); constructor; [|constructor].
    now apply lexes_closed.
  - constructor; [|constructor].
    apply (lexes_quoted "FechaEnvioOC_parsed >= DATE '" _
             [TWord "FechaEnvioOC_parsed"; TGe; TWord "DATE"]);
      [reflexivity | now apply str_quote_free].
  - constructor; [|constructor].
    apply (lexes_quoted "FechaEnvioOC_parsed <= DATE '" _
             [TWord "FechaEnvioOC_parsed"; TLe; TWord "DATE"]);
      [reflexivity | now apply str_quote_free].
  - destruct (negb _); constructor; [|constructor].
    now apply (lexes_quoted "RegionProveedor = '" _ [TWord "RegionProveedor"; TEq]).
  - destruct (negb _); constructor; [|constructor].
    now apply (lexes_quoted "RegionUnidadCompra = '" _ [TWord "RegionUnidadCompra"; TEq]).
  - destruct (negb _); constructor; [|constructor].
    now apply (lexes_quoted "ONUProducto = '" _ [TWord "ONUProducto"; TEq]).
  - destruct (truthy _); constructor; [|constructor].
    apply lexes_search; [now apply lower_quote_free | assumption].
Qed.

Lemma lexes_where (f : filters) : plain f -> lexes_as (where_sql f) (where_tokens f).
Proof. intros H. apply lexes_join, lexes_clauses, H. Qed.

(** A statement text: a fixed head that ends where the clause starts, the
    clause, and a tail that starts with white space. *)
Lemma lex_statement (f : filters) (head tail : string) (hs ts : list token) :
  plain f ->
  Lexer.run LNormal head = (LNormal, hs) ->
  clean_start tail ->
  Lexer.lex_from LNormal tail = Some ts ->
  Lexer.lex (head ++ where_sql f ++ tail) = Some (hs ++ where_tokens f ++ ts).
Proof.
  intros Hf Hh Hc Ht. unfold Lexer.lex.
  rewrite (lex_from_prefix _ _ _ _ _ Hh), (lexes_where f Hf tail Hc), Ht.
  reflexivity.
Qed.

(** ** Parsing of the nine statements *)

Ltac shapes f :=
  unfold where_tokens, clause_tokens, predicate, clause_exprs;
  generalize (Date.str (fecha_inicio f)) (Date.str (fecha_fin f))
             (Text.lower (search_term f));
  intros ? ? ?;
  destruct (solo_salud f), (negb (String.eqb (region_proveedor f) "Todas")),
           (negb (String.eqb (region_compra f) "Todas")),
           (negb (String.eqb (especialidad_selected f) "Todas")),
           (truthy (search_term f));
  vm_compute; reflexivity.

Ltac parse_statement f H :=
  unfold Parser.parse;
  erewrite lex_statement;
  [ | exact H | vm_compute; reflexivity | exact eq_refl | vm_compute; reflexivity ];
  match goal with
  | |- match ?p with _ => _ end = Returned ?s =>
      replace p with (Some s); [reflexivity | symmetry; shapes f]
  end.

Lemma parse_kpi (f : filters) :
  plain f -> Parser.parse (kpi_query f) = Returned (Stmt.kpi (predicate f)).
Proof. intros H. unfold kpi_query. parse_statement f H. Qed.

Lemma parse_regiones_activas (f : filters) :
  plain f ->
  Parser.parse (regiones_activas_query f) = Returned (Stmt.regiones_activas (predicate f)).
Proof. intros H. unfold regiones_activas_query. parse_statement f H. Qed.

Lemma parse_top_especialidades (f : filters) :
  plain f ->
  Parser.parse (top_especialidades_query f) = Returned (Stmt.top_especialidades (predicate f)).
Proof. intros H. unfold top_especialidades_query. parse_statement f H. Qed.

Lemma parse_monto_region (f : filters) :
  plain f -> Parser.parse (monto_region_query f) = Returned (Stmt.monto_region (predicate f)).
Proof. intros H. unfold monto_region_query. parse_statement f H. Qed.

Lemma parse_tendencia (f : filters) :
  plain f -> Parser.parse (tendencia_query f) = Returned (Stmt.tendencia (predicate f)).
Proof. intros H. unfold tendencia_query. parse_statement f H. Qed.

Lemma parse_adj_region (f : filters) :
  plain f -> Parser.parse (adj_region_query f) = Returned (Stmt.adj_region (predicate f)).
Proof. intros H. unfold adj_region_query. parse_statement f H. Qed.

Lemma parse_compras_region (f : filters) :
  plain f -> Parser.parse (compras_region_query f) = Returned (Stmt.compras_region (predicate f)).
Proof. intros H. unfold compras_region_query. parse_statement f H. Qed.

Lemma parse_especialidades_completo (f : filters) :
  plain f ->
  Parser.parse (especialidades_completo_query f)
  = Returned (Stmt.especialidades_completo (predicate f)).
Proof. intros H. unfold especialidades_completo_query. parse_statement f H. Qed.

Lemma lex_detalle_tail (position : nat) :
  Lexer.lex_from LNormal (detalle_tail (slider_value position))
  = Some [TWord "ORDER"; TWord "BY"; TWord "FechaEnvioOC_parsed"; TWord "DESC";
          TWord "LIMIT"; TNumber (slider_value position)].
Proof.
  unfold slider_value.
  assert (B : position mod 50 < 50) by (apply Nat.mod_upper_bound; lia).
  generalize dependent (position mod 50). intros k B.
  do 50 (destruct k as [|k]; [vm_compute; reflexivity|]).
  lia.
Qed.

Lemma parse_detalle (f : filters) (position : nat) :
  plain f ->
  Parser.parse (detalle_query f (slider_value position))
  = Returned (Stmt.detalle (predicate f) (slider_value position)).
Proof.
  intros H. unfold detalle_query, Parser.parse.
  erewrite lex_statement;
    [ | exact H | vm_compute; reflexivity | exact eq_refl
      | exact (lex_detalle_tail position) ].
  generalize (slider_value position). intros limit.
  match goal with
  | |- match ?p with _ => _ end = Returned ?s =>
      replace p with (Some s); [reflexivity | symmetry; shapes f]
  end.
Qed.

Lemma compiled_plain (f : filters) : plain f -> compiled f = Returned (predicate f).
Proof.
  intros H. unfold compiled, Lexer.lex.
  rewrite <- (append_nil_r (where_sql f)), (lexes_where f H "" I).
  cbn [Lexer.lex_from Lexer.run Lexer.finish fst snd option_map].
  rewrite !app_nil_r.
  replace (Parser.p_expr (where_tokens f)) with (Some (predicate f, @nil token));
    [reflexivity | symmetry; shapes f].
Qed.

(** ** The predicate on a row *)

Lemma holds_and (a b : expr) (r : row) :
  Engine.holds (EAnd a b) r = Engine.holds a r && Engine.holds b r.
Proof.
  unfold Engine.holds. cbn [Engine.eval].
  destruct (Engine.eval a r) as [|[]| | | |], (Engine.eval b r) as [|[]| | | |];
    reflexivity.
Qed.

Lemma holds_fold (rest : list expr) (e : expr) (r : row) :
  Engine.holds (fold_left EAnd rest e) r
  = Engine.holds e r && forallb (fun x => Engine.holds x r) rest.
Proof.
  revert e. induction rest as [|x rest IH]; intros e; simpl.
  - now rewrite andb_true_r.
  - now rewrite IH, holds_and, andb_assoc.
Qed.

Lemma clause_exprs_cons (f : filters) : exists e es, clause_exprs f = e :: es.
Proof. unfold clause_exprs. destruct (solo_salud f); simpl; eauto. Qed.

Lemma holds_predicate (f : filters) (r : row) :
  Engine.holds (predicate f) r = forallb (fun e => Engine.holds e r) (clause_exprs f).
Proof.
  unfold predicate. destruct (clause_exprs_cons f) as (e & es & ->).
  simpl. apply holds_fold.
Qed.

Lemma typeof_fold (rest : list expr) (e : expr) :
  Engine.typeof e = Returned TyBool ->
  Forall (fun x => Engine.typeof x = Returned TyBool) rest ->
  Engine.typeof (fold_left EAnd rest e) = Returned TyBool.
Proof.
  revert e. induction rest as [|x rest IH]; intros e He Hr; simpl; [exact He|].
  inversion Hr; subst. apply IH; [|assumption].
  cbn [Engine.typeof]. now rewrite He, H1.
Qed.

Lemma typeof_clauses (f : filters) :
  plain f -> Forall (fun x => Engine.typeof x = Returned TyBool) (clause_exprs f).
Proof.
  intros (H1 & H2 & _). unfold clause_exprs.
  assert (A : Engine.typeof (ECmp OpGe (ECol "FechaEnvioOC_parsed")
                               (EDate (Date.str (fecha_inicio f)))) = Returned TyBool).
  { cbn [Engine.typeof]. rewrite (cast_str _ H1). reflexivity. }
  assert (B : Engine.typeof (ECmp OpLe (ECol "FechaEnvioOC_parsed")
                               (EDate (Date.str (fecha_fin f)))) = Returned TyBool).
  { cbn [Engine.typeof]. rewrite (cast_str _ H2). reflexivity. }
  apply Forall_app; split.
  { destruct (solo_salud f); [apply Forall_cons; [reflexivity|]|]; apply Forall_nil. }
  apply Forall_app; split.
  { apply Forall_cons; [exact A | apply Forall_nil]. }
  apply Forall_app; split.
  { apply Forall_cons; [exact B | apply Forall_nil]. }
  apply Forall_app; split.
  { destruct (negb _); [apply Forall_cons; [reflexivity|]|]; apply Forall_nil. }
  apply Forall_app; split.
  { destruct (negb _); [apply Forall_cons; [reflexivity|]|]; apply Forall_nil. }
  apply Forall_app; split.
  { destruct (negb _); [apply Forall_cons; [reflexivity|]|]; apply Forall_nil. }
  destruct (truthy _); [apply Forall_cons; [reflexivity|]|]; apply Forall_nil.
Qed.

Lemma typeof_predicate (f : filters) :
  plain f -> Engine.typeof (predicate f) = Returned TyBool.
Proof.
  intros H. pose proof (typeof_clauses f H) as T.
  unfold predicate. destruct (clause_exprs_cons f) as (e & es & E).
  rewrite E in *. inversion T; subst. now apply typeof_fold.
Qed.

Lemma passes_plain (f : filters) (r : row) :
  plain f -> passes f r = Engine.holds (predicate f) r.
Proof. intros H. unfold passes. now rewrite compiled_plain. Qed.

Lemma holds_date_from (d : date) (r : row) :
  Date.python_date d ->
  Engine.holds (date_from d) r
  = match FechaEnvioOC_parsed r with Some x => Date.leb d x | None => false end.
Proof.
  intros H. unfold Engine.holds, date_from. cbn [Engine.eval].
  change (Engine.column "FechaEnvioOC_parsed" r)
    with (Some (Engine.datev (FechaEnvioOC_parsed r))).
  rewrite (cast_str d H).
  destruct (FechaEnvioOC_parsed r) as [x|]; [|reflexivity].
  cbn. now destruct (Date.leb d x).
Qed.

Lemma holds_date_to (d : date) (r : row) :
  Date.python_date d ->
  Engine.holds (date_to d) r
  = match FechaEnvioOC_parsed r with Some x => Date.leb x d | None => false end.
Proof.
  intros H. unfold Engine.holds, date_to. cbn [Engine.eval].
  change (Engine.column "FechaEnvioOC_parsed" r)
    with (Some (Engine.datev (FechaEnvioOC_parsed r))).
  rewrite (cast_str d H).
  destruct (FechaEnvioOC_parsed r) as [x|]; [|reflexivity].
  cbn. now destruct (Date.leb x d).
Qed.

Lemma date_clauses_in (f : filters) :
  In (date_from (fecha_inicio f)) (clause_exprs f) /\
  In (date_to (fecha_fin f)) (clause_exprs f).
Proof.
  unfold clause_exprs. split; apply in_or_app; right.
  - now left.
  - apply in_or_app. right. now left.
Qed.

(** A row that the predicate keeps has a parsed date inside the bounds. *)
Lemma holds_in_range (f : filters) (r : row) :
  plain f ->
  Engine.holds (predicate f) r = true ->
  exists d, FechaEnvioOC_parsed r = Some d /\
            Date.leb (fecha_inicio f) d = true /\ Date.leb d (fecha_fin f) = true.
Proof.
  intros Hf H. rewrite holds_predicate, forallb_forall in H.
  destruct (date_clauses_in f) as [A B].
  apply H in A. apply H in B.
  destruct Hf as (H1 & H2 & _).
  rewrite holds_date_from in A by assumption.
  rewrite holds_date_to in B by assumption.
  destruct (FechaEnvioOC_parsed r) as [d|]; [eauto | discriminate].
Qed.

Lemma leb_trans (a b c : date) :
  Date.leb a b = true -> Date.leb b c = true -> Date.leb a c = true.
Proof.
  unfold Date.leb. intros H1 H2.
  repeat match goal with
         | H : _ || _ = true |- _ => apply orb_prop in H; destruct H as [H|H]
         | H : _ && _ = true |- _ => apply andb_prop in H; destruct H
         | H : (_ <? _) = true |- _ => apply Nat.ltb_lt in H
         | H : (_ <=? _) = true |- _ => apply Nat.leb_le in H
         | H : (_ =? _) = true |- _ => apply Nat.eqb_eq in H
         end;
    destruct (year a <? year c) eqn:Y; try reflexivity;
    apply Nat.ltb_ge in Y; simpl;
    (replace (year a =? year c) with true by (symmetry; apply Nat.eqb_eq; lia));
    simpl;
    destruct (month a <? month c) eqn:M; try reflexivity;
    apply Nat.ltb_ge in M; simpl;
    (replace (month a =? month c) with true by (symmetry; apply Nat.eqb_eq; lia));
    simpl; apply Nat.leb_le; lia.
Qed.

(** ** Ordering and grouping *)

Section SortFacts.
Context {A : Type} (key : A -> value) (desc : bool).

Lemma insert_perm (x : A) (l : list A) :
  Permutation (Engine.insert key desc x l) (x :: l).
Proof.
  induction l as [|y l IH]; simpl; [reflexivity|].
  destruct (Engine.before desc (key x) (key y)); [reflexivity|].
  rewrite IH. apply perm_swap.
Qed.

Lemma sort_perm (l : list A) : Permutation (Engine.sort key desc l) l.
Proof.
  induction l as [|x l IH]; simpl; [reflexivity|].
  rewrite insert_perm. now constructor.
Qed.

Lemma sort_length (l : list A) : List.length (Engine.sort key desc l) = List.length l.
Proof. apply Permutation_length, sort_perm. Qed.

Lemma sort_in (x : A) (l : list A) : In x (Engine.sort key desc l) <-> In x l.
Proof.
  split; apply Permutation_in; [apply sort_perm | symmetry; apply sort_perm].
Qed.

End SortFacts.

Lemma value_eqb_refl (v : value) : Engine.value_eqb v v = true.
Proof.
  destruct v as [|b|n|q|s|d]; simpl.
  - reflexivity.
  - now destruct b.
  - apply Z.eqb_refl.
  - apply Qeq_bool_iff. reflexivity.
  - apply String.eqb_refl.
  - unfold Date.eqb. now rewrite !Nat.eqb_refl.
Qed.

Lemma value_eqb_null (v : value) : Engine.value_eqb VNull v = true -> v = VNull.
Proof. destruct v; simpl; intros H; [reflexivity | discriminate H ..]. Qed.

Section GroupFacts.
Context (key : row -> value).

Lemma add_to_group_members (k : value) (r : row) (gs : list (value * list row)) :
  Permutation (members (Engine.add_to_group k r gs)) (members gs ++ [r]).
Proof.
  unfold members. induction gs as [|[k' g] gs IH]; simpl; [reflexivity|].
  destruct (Engine.value_eqb k k'); simpl.
  - rewrite <- !app_assoc. apply Permutation_app_head, Permutation_app_comm.
  - rewrite IH. now rewrite app_assoc.
Qed.

Lemma fold_members (rs : list row) (gs : list (value * list row)) :
  Permutation
    (members (fold_left (fun gs r => Engine.add_to_group (key r) r gs) rs gs))
    (members gs ++ rs).
Proof.
  revert gs. induction rs as [|r rs IH]; intros gs; simpl.
  - now rewrite app_nil_r.
  - rewrite IH, add_to_group_members, <- app_assoc. reflexivity.
Qed.

(** Every kept row lies in exactly one group. *)
Lemma group_rows_members (rs : list row) :
  Permutation (members (Engine.group_rows key rs)) rs.
Proof. unfold Engine.group_rows. now rewrite fold_members. Qed.

Lemma add_to_group_headed (r : row) (gs : list (value * list row)) :
  Forall (headed key) gs -> Forall (headed key) (Engine.add_to_group (key r) r gs).
Proof.
  induction 1 as [|[k' g] gs H Hgs IH]; simpl.
  - repeat constructor.
  - destruct (Engine.value_eqb (key r) k').
    + constructor; [|assumption].
      unfold headed in *. simpl in *. destruct g; [contradiction | exact H].
    + constructor; assumption.
Qed.

Lemma group_rows_headed (rs : list row) : Forall (headed key) (Engine.group_rows key rs).
Proof.
  unfold Engine.group_rows.
  assert (G : forall gs, Forall (headed key) gs ->
              Forall (headed key) (fold_left (fun gs r => Engine.add_to_group (key r) r gs) rs gs)).
  { induction rs as [|r rs IH]; intros gs H; simpl; [exact H|].
    apply IH, add_to_group_headed, H. }
  apply G. constructor.
Qed.

Lemma group_member_in (rs : list row) (k : value) (g : list row) (r : row) :
  In (k, g) (Engine.group_rows key rs) -> In r g -> In r rs.
Proof.
  intros Hg Hr.
  apply (Permutation_in _ (group_rows_members rs)).
  unfold members. apply in_concat. exists g. split; [|exact Hr].
  change g with (snd (k, g)). now apply in_map.
Qed.

(** The key of every group is the key of one of the rows. *)
Lemma group_key_from_row (rs : list row) (k : value) (g : list row) :
  In (k, g) (Engine.group_rows key rs) -> exists r, In r rs /\ In r g /\ k = key r.
Proof.
  intros H.
  pose proof (group_rows_headed rs) as F. rewrite Forall_forall in F.
  specialize (F _ H). unfold headed in F. simpl in F.
  destruct g as [|r g]; [contradiction|].
  exists r. repeat split; [|now left|exact F].
  apply (group_member_in rs k (r :: g)); [exact H | now left].
Qed.

Lemma add_to_group_keeps (k k0 : value) (r : row) (gs : list (value * list row)) :
  has_key k0 gs -> has_key k0 (Engine.add_to_group k r gs).
Proof.
  intros (k' & g & Hin & E).
  assert (G : exists g', In (k', g') (Engine.add_to_group k r gs)).
  { clear E. induction gs as [|[k1 g1] gs IH]; [contradiction|].
    simpl. destruct Hin as [Heq|Hin].
    - inversion Heq; subst.
      destruct (Engine.value_eqb k k'); eexists; left; reflexivity.
    - destruct (Engine.value_eqb k k1).
      + exists g. now right.
      + destruct (IH Hin) as [g' Hg']. exists g'. now right. }
  destruct G as [g' Hg']. now exists k', g'.
Qed.

Lemma add_to_group_has (k : value) (r : row) (gs : list (value * list row)) :
  has_key k (Engine.add_to_group k r gs).
Proof.
  induction gs as [|[k1 g1] gs IH]; simpl.
  - exists k, [r]. split; [now left | apply value_eqb_refl].
  - destruct (Engine.value_eqb k k1) eqn:E.
    + exists k1, (g1 ++ [r]). split; [now left | exact E].
    + destruct IH as (k' & g' & Hin & E'). exists k', g'. split; [now right | exact E'].
Qed.

Lemma group_rows_has_key (rs : list row) (r : row) :
  In r rs -> has_key (key r) (Engine.group_rows key rs).
Proof.
  unfold Engine.group_rows.
  assert (K : forall rs gs k0, has_key k0 gs ->
              has_key k0 (fold_left (fun gs r => Engine.add_to_group (key r) r gs) rs gs)).
  { clear. induction rs as [|x rs IH]; intros gs k0 H; simpl; [exact H|].
    apply IH, add_to_group_keeps, H. }
  generalize (@nil (value * list row)).
  induction rs as [|x rs IH]; intros gs Hin; [contradiction|].
  simpl. destruct Hin as [->|Hin].
  - apply K, add_to_group_has.
  - now apply IH.
Qed.

(** A kept row with a NULL key makes a NULL group. *)
Lemma group_rows_null (rs : list row) (r : row) :
  In r rs -> key r = VNull -> exists g, In (VNull, g) (Engine.group_rows key rs).
Proof.
  intros Hin Hk. destruct (group_rows_has_key rs r Hin) as (k' & g & Hg & E).
  rewrite Hk in E. apply value_eqb_null in E. subst k'. now exists g.
Qed.

End GroupFacts.

(** ** What each statement returns *)

Lemma typeof_not_null_category (w : expr) :
  Engine.typeof w = Returned TyBool ->
  Engine.typeof (Stmt.not_null_category w) = Returned TyBool.
Proof. intros H. unfold Stmt.not_null_category. cbn [Engine.typeof]. now rewrite H. Qed.

Ltac run_exec H :=
  unfold Exec.exec, Exec.check_where;
  cbn [s_from s_where s_items s_group s_order s_limit
       Stmt.kpi Stmt.regiones_activas Stmt.top_especialidades Stmt.monto_region
       Stmt.tendencia Stmt.adj_region Stmt.compras_region Stmt.especialidades_completo
       Stmt.detalle];
  rewrite H; reflexivity.

Lemma exec_kpi (w : expr) (db : list row) :
  Engine.typeof w = Returned TyBool ->
  Exec.exec (Stmt.kpi w) db
  = Returned (mktable ["total_adjudicadores"; "total_ordenes"; "monto_total"]
                [Exec.output_row (s_items (Stmt.kpi w)) (VNull, kept w db)]).
Proof. intros H. run_exec H. Qed.

Lemma exec_regiones_activas (w : expr) (db : list row) :
  Engine.typeof w = Returned TyBool ->
  Exec.exec (Stmt.regiones_activas w) db
  = Returned (mktable ["regiones"]
                [Exec.output_row (s_items (Stmt.regiones_activas w)) (VNull, kept w db)]).
Proof. intros H. run_exec H. Qed.

Lemma exec_top_especialidades (w : expr) (db : list row) :
  Engine.typeof w = Returned TyBool ->
  Exec.exec (Stmt.top_especialidades w) db
  = Returned (mktable ["especialidad"; "cantidad"]
                (firstn 10
                   (Engine.sort (fun r => nth 1 r VNull) true
                      (grouped_rows (Stmt.top_especialidades w) (ECol "ONUProducto")
                         (kept (Stmt.not_null_category w) db))))).
Proof. intros H. apply typeof_not_null_category in H. run_exec H. Qed.

Lemma exec_monto_region (w : expr) (db : list row) :
  Engine.typeof w = Returned TyBool ->
  Exec.exec (Stmt.monto_region w) db
  = Returned (mktable ["region"; "monto"]
                (firstn 10
                   (Engine.sort (fun r => nth 1 r VNull) true
                      (grouped_rows (Stmt.monto_region w) (ECol "RegionProveedor")
                         (kept w db))))).
Proof. intros H. run_exec H. Qed.

Lemma exec_tendencia (w : expr) (db : list row) :
  Engine.typeof w = Returned TyBool ->
  Exec.exec (Stmt.tendencia w) db
  = Returned (mktable ["mes"; "ordenes"; "proveedores"]
                (Engine.sort (fun r => nth 0 r VNull) false
                   (grouped_rows (Stmt.tendencia w) Stmt.month_of_date (kept w db)))).
Proof. intros H. run_exec H. Qed.

Lemma exec_adj_region (w : expr) (db : list row) :
  Engine.typeof w = Returned TyBool ->
  Exec.exec (Stmt.adj_region w) db
  = Returned (mktable ["region"; "adjudicadores"; "ordenes"]
                (Engine.sort (fun r => nth 1 r VNull) true
                   (grouped_rows (Stmt.adj_region w) (ECol "RegionProveedor") (kept w db)))).
Proof. intros H. run_exec H. Qed.

Lemma exec_compras_region (w : expr) (db : list row) :
  Engine.typeof w = Returned TyBool ->
  Exec.exec (Stmt.compras_region w) db
  = Returned (mktable ["region"; "ordenes"; "monto_total"]
                (Engine.sort (fun r => nth 1 r VNull) true
                   (grouped_rows (Stmt.compras_region w) (ECol "RegionUnidadCompra")
                      (kept w db)))).
Proof. intros H. run_exec H. Qed.

Lemma exec_especialidades_completo (w : expr) (db : list row) :
  Engine.typeof w = Returned TyBool ->
  Exec.exec (Stmt.especialidades_completo w) db
  = Returned (mktable ["especialidad"; "ordenes"; "proveedores"; "monto_total";
                       "monto_promedio"]
                (Engine.sort (fun r => nth 1 r VNull) true
                   (grouped_rows (Stmt.especialidades_completo w) (ECol "ONUProducto")
                      (kept (Stmt.not_null_category w) db)))).
Proof. intros H. apply typeof_not_null_category in H. run_exec H. Qed.

Lemma exec_detalle (w : expr) (limit : nat) (db : list row) :
  Engine.typeof w = Returned TyBool ->
  Exec.exec (Stmt.detalle w limit) db
  = Returned (mktable detalle_columns
                (firstn limit
                   (map detalle_row
                      (Engine.sort (Engine.eval (ECol "FechaEnvioOC_parsed")) true
                         (kept w db))))).
Proof. intros H. run_exec H. Qed.

(** ** One run of the dashboard, for texts without a single quote *)

Lemma render_plain (f : filters) (position : nat) (db : list row) :
  plain f ->
  render f (slider_value position) db = Returned (run_of f (slider_value position) db).
Proof.
  intros H. pose proof (typeof_predicate f H) as T.
  unfold render, Exec.execute.
  rewrite (parse_kpi f H), (parse_regiones_activas f H), (parse_top_especialidades f H),
    (parse_monto_region f H), (parse_tendencia f H), (parse_adj_region f H),
    (parse_compras_region f H), (parse_especialidades_completo f H),
    (parse_detalle f position H).
  cbn [bind].
  rewrite (exec_kpi _ db T), (exec_regiones_activas _ db T),
    (exec_top_especialidades _ db T), (exec_monto_region _ db T), (exec_tendencia _ db T),
    (exec_adj_region _ db T), (exec_compras_region _ db T),
    (exec_especialidades_completo _ db T), (exec_detalle _ _ db T).
  reflexivity.
Qed.

Lemma kept_none (w : expr) (db : list row) :
  (forall r, In r db -> Engine.holds w r = false) -> kept w db = [].
Proof.
  intros H. unfold kept. induction db as [|r db IH]; [reflexivity|].
  simpl. rewrite (H r (or_introl eq_refl)). apply IH.
  intros x Hx. apply H. now right.
Qed.

Lemma render_no_match (f : filters) (position : nat) (db : list row) :
  plain f ->
  (forall r, In r db -> passes f r = false) ->
  render f (slider_value position) db = Returned empty_dashboard.
Proof.
  intros H N. rewrite (render_plain f position db H). unfold run_of.
  assert (K : kept (predicate f) db = []).
  { apply kept_none. intros r Hr. rewrite <- (passes_plain f r H). now apply N. }
  assert (K' : kept (Stmt.not_null_category (predicate f)) db = []).
  { apply kept_none. intros r Hr. unfold Stmt.not_null_category.
    rewrite holds_and, <- (passes_plain f r H), (N r Hr). reflexivity. }
  rewrite K, K'. generalize (slider_value position). intros limit.
  destruct limit; reflexivity.
Qed.

(** ** The default filters (C3) *)

(** C3. With the health filter off, both regions and the category at
    'Todas' and an empty search term, [where_clauses] holds the two date
    clauses and nothing else, and the predicate they compile to is true on a
    row exactly when the row's parsed send date exists and lies between the
    two bounds, both included. *)
Theorem C3_default_filters_keep_date_range (inicio fin : date) :
  Date.python_date inicio -> Date.python_date fin ->
  let f := mkfilters false inicio fin "Todas" "Todas" "Todas" "" in
  where_clauses f
  = [("FechaEnvioOC_parsed >= DATE '" ++ Date.str inicio ++ "'")%string;
     ("FechaEnvioOC_parsed <= DATE '" ++ Date.str fin ++ "'")%string]
  /\ exists w, compiled f = Returned w /\
       forall r, Engine.holds w r = true <->
                 exists d, FechaEnvioOC_parsed r = Some d /\
                           Date.leb inicio d = true /\ Date.leb d fin = true.
Proof.
  intros Hi Hf f.
  assert (P : plain f) by (repeat split; solve [apply Hi | apply Hf | reflexivity]).
  split; [reflexivity|].
  exists (predicate f). split; [now apply compiled_plain|].
  intros r.
  change (predicate f) with (EAnd (date_from inicio) (date_to fin)).
  rewrite holds_and, holds_date_from, holds_date_to by assumption.
  destruct (FechaEnvioOC_parsed r) as [d|].
  - rewrite andb_true_iff. split.
    + intros [A B]. now exists d.
    + intros (d' & E & A & B). inversion E; subst. now split.
  - split; [discriminate|]. intros (d' & E & _). discriminate E.
Qed.

Lemma C3_default_filters_keep_date_range_witness :
  Date.python_date (mkdate 2025 1 1) /\ Date.python_date (mkdate 2025 12 31) /\
  exists w, compiled (mkfilters false (mkdate 2025 1 1) (mkdate 2025 12 31)
                        "Todas" "Todas" "Todas" "") = Returned w /\
       forall r, Engine.holds w r = true <->
                 exists d, FechaEnvioOC_parsed r = Some d /\
                           Date.leb (mkdate 2025 1 1) d = true /\
                           Date.leb d (mkdate 2025 12 31) = true.
Proof.
  assert (A : Date.python_date (mkdate 2025 1 1))
    by (repeat split; [apply Nat.leb_le | apply Nat.ltb_lt]; reflexivity).
  assert (B : Date.python_date (mkdate 2025 12 31))
    by (repeat split; [apply Nat.leb_le | apply Nat.ltb_lt]; reflexivity).
  split; [exact A|]. split; [exact B|].
  exact (proj2 (C3_default_filters_keep_date_range _ _ A B)).
Defined.

(** ** Nothing passes the filters (C9, C10) *)

(** C9, as stated, fails: on an empty data store the KPI statement returns
    one row (two zero counts and a NULL sum), not an empty result; the script
    reads that row with [.iloc[0]]. *)
Lemma C9_kpi_row_on_empty_store :
  Exec.execute (kpi_query default_filters) (load_data [])
  = Returned (mktable ["total_adjudicadores"; "total_ordenes"; "monto_total"]
                [[VInt 0; VInt 0; VNull]])
  /\ Frame.empty (mktable ["total_adjudicadores"; "total_ordenes"; "monto_total"]
                    [[VInt 0; VInt 0; VNull]]) = false.
Proof. split; vm_compute; reflexivity. Qed.

(** C9, amended.  For filters whose texts hold no single quote: when no row
    of the data store passes the filters (an empty store included), the run
    raises nothing; the seven grouped and row-level frames are empty, and
    the KPI row holds two zero counts and a NULL sum, the count of active
    regions being zero. *)
Theorem C9_no_match_gives_empty_frames (f : filters) (position : nat) (file : list csv_row) :
  plain f ->
  (forall r, In r (load_data file) -> passes f r = false) ->
  render f (slider_value position) (load_data file) = Returned empty_dashboard.
Proof. intros H N. now apply render_no_match. Qed.

Lemma plain_default : plain default_filters.
Proof.
  repeat split; try reflexivity;
    solve [apply Nat.leb_le; reflexivity | apply Nat.ltb_lt; reflexivity].
Qed.

Lemma C9_no_match_gives_empty_frames_witness :
  plain default_filters /\
  render default_filters (slider_value 9) (load_data []) = Returned empty_dashboard.
Proof.
  split; [exact plain_default|].
  apply (C9_no_match_gives_empty_frames default_filters 9 []).
  - exact plain_default.
  - intros r Hr. simpl in Hr. contradiction.
Defined.

(** C10, as stated, fails for the KPI view: with the start date after the
    end date the KPI statement still returns one row. *)
Lemma C10_kpi_row_with_inverted_dates :
  Date.leb (mkdate 2025 12 31) (mkdate 2025 1 1) = false /\
  Exec.execute (kpi_query (with_dates (mkdate 2025 12 31) (mkdate 2025 1 1)))
               (load_data [rec_clinica; rec_farmacia])
  = Returned (mktable ["total_adjudicadores"; "total_ordenes"; "monto_total"]
                [[VInt 0; VInt 0; VNull]]).
Proof. split; vm_compute; reflexivity. Qed.

Lemma inverted_dates_pass_nothing (f : filters) (r : row) :
  plain f -> Date.leb (fecha_inicio f) (fecha_fin f) = false -> passes f r = false.
Proof.
  intros H D. rewrite (passes_plain f r H).
  destruct (Engine.holds (predicate f) r) eqn:E; [|reflexivity].
  destruct (holds_in_range f r H E) as (d & _ & A & B).
  rewrite (leb_trans _ _ _ A B) in D. discriminate D.
Qed.

(** C10, amended.  For filters whose texts hold no single quote: when the
    start date is after the end date no row passes the filters, whatever the
    other values are; the seven grouped and row-level frames are empty and
    the KPI row holds two zero counts and a NULL sum. *)
Theorem C10_inverted_dates_match_nothing (f : filters) (position : nat) (file : list csv_row) :
  plain f ->
  Date.leb (fecha_inicio f) (fecha_fin f) = false ->
  (forall r, passes f r = false) /\
  render f (slider_value position) (load_data file) = Returned empty_dashboard.
Proof.
  intros H D. split.
  - intros r. now apply inverted_dates_pass_nothing.
  - apply render_no_match; [exact H|]. intros r _. now apply inverted_dates_pass_nothing.
Qed.

Lemma C10_inverted_dates_match_nothing_witness :
  plain (with_dates (mkdate 2025 12 31) (mkdate 2025 1 1)) /\
  Date.leb (mkdate 2025 12 31) (mkdate 2025 1 1) = false /\
  render (with_dates (mkdate 2025 12 31) (mkdate 2025 1 1)) (slider_value 9)
         (load_data [rec_clinica; rec_farmacia]) = Returned empty_dashboard.
Proof.
  assert (P : plain (with_dates (mkdate 2025 12 31) (mkdate 2025 1 1))).
  { repeat split; try reflexivity;
      solve [apply Nat.leb_le; reflexivity | apply Nat.ltb_lt; reflexivity]. }
  split; [exact P|]. split; [reflexivity|].
  exact (proj2 (C10_inverted_dates_match_nothing _ 9 [rec_clinica; rec_farmacia]
                  P eq_refl)).
Defined.

(** ** Rows of the frames; a send date that does not parse (C4) *)

Lemma in_firstn {A : Type} (n : nat) (x : A) (l : list A) : In x (firstn n l) -> In x l.
Proof.
  revert l. induction n as [|n IH]; intros l H; [contradiction|].
  destruct l as [|y l]; [contradiction|].
  simpl in H. destruct H as [->|H]; [now left | right; now apply IH].
Qed.

Lemma in_kept (w : expr) (db : list row) (r : row) :
  In r (kept w db) <-> In r db /\ Engine.holds w r = true.
Proof. apply filter_In. Qed.

(** Every row of a grouped frame is the output row of a group whose key is
    the key of one of the kept rows. *)
Lemma in_grouped_rows (st : statement) (key : expr) (rs : list row) (out : list value) :
  In out (grouped_rows st key rs) ->
  exists r g, In r rs /\ In r g /\
              out = Exec.output_row (s_items st) (Engine.eval key r, g).
Proof.
  unfold grouped_rows. intros H. apply in_map_iff in H.
  destruct H as ([k g] & E & Hin).
  destruct (group_key_from_row _ _ _ _ Hin) as (r & Hr & Hg & Hk).
  exists r, g. subst. auto.
Qed.





Lemma holds_not_null_category (w : expr) (r : row) :
  Engine.holds (Stmt.not_null_category w) r = true ->
  Engine.holds w r = true /\ Engine.eval (ECol "ONUProducto") r <> VNull.
Proof.
  unfold Stmt.not_null_category. rewrite holds_and. intros H.
  apply andb_prop in H. destruct H as [Hw Hn]. split; [exact Hw|].
  unfold Engine.holds in Hn.
  change (Engine.eval (EIsNotNull (ECol "ONUProducto")) r)
    with (VBool (negb (Engine.is_null (Engine.eval (ECol "ONUProducto") r)))) in Hn.
  destruct (Engine.eval (ECol "ONUProducto") r); simpl in Hn;
    [discriminate Hn | discriminate ..].
Qed.

(** ** NULL keys in the grouped views (C5) *)

(** Rows of a frame that is sorted and cut come from the groups. *)
Lemma in_sorted_groups (st : statement) (key : expr) (rs : list row) (i : nat)
      (desc : bool) (out : list value) :
  In out (Engine.sort (fun r => nth i r VNull) desc (grouped_rows st key rs)) ->
  exists r g, In r rs /\ In r g /\
              out = Exec.output_row (s_items st) (Engine.eval key r, g).
Proof. intros H. apply sort_in in H. now apply in_grouped_rows. Qed.

Lemma null_group_row (st : statement) (key : expr) (rs : list row) (r : row) :
  In r rs -> Engine.eval key r = VNull ->
  exists g, In (Exec.output_row (s_items st) (VNull, g)) (grouped_rows st key rs).
Proof.
  intros Hin Hk.
  destruct (group_rows_null (Engine.eval key) rs r Hin Hk) as [g Hg].
  exists g. unfold grouped_rows. apply in_map_iff. now exists (VNull, g).
Qed.

(** C5.  The three statements grouped by a region have no restriction on
    the key, unlike the two statements grouped by category, which add
    [ONUProducto IS NOT NULL]: under the initial filters a record without a
    supplier region makes a group of its own, with a NULL key, in the
    Supplier-Region Breakdown and in the Region Amount Distribution, while
    the record without a category is left out of Top Categories. *)
Theorem C5_null_region_is_a_group :
  let db := load_data [rec_clinica; rec_farmacia] in
  Exec.execute (adj_region_query default_filters) db
  = Returned (mktable ["region"; "adjudicadores"; "ordenes"]
                [[VStr "Maule"; VInt 1; VInt 1]; [VNull; VInt 1; VInt 1]]) /\
  Exec.execute (monto_region_query default_filters) db
  = Returned (mktable ["region"; "monto"] [[VStr "Maule"; VNum 1000]; [VNull; VNull]]) /\
  Exec.execute (top_especialidades_query default_filters) db
  = Returned (mktable ["especialidad"; "cantidad"] [[VStr "Insumos"; VInt 1]]).
Proof. repeat split; vm_compute; reflexivity. Qed.

(** Null keys in the grouped views, in general.  For filters whose texts
    hold no single quote:
    - no row of Top Categories and of Category Detail has a NULL category,
      and no row of Monthly Trend has a NULL month (a row without a parsed
      date fails the date clauses);
    - the Supplier-Region and Purchase-Region breakdowns have a row with a
      NULL region as soon as a row that passes the filters has no such
      region;
    - the KPI row counts every row that passes the filters, whatever its
      category and regions. *)
Lemma null_keys_in_grouped_views (f : filters) (file : list csv_row) :
  plain f ->
  let db := load_data file in
  (exists t, Exec.execute (top_especialidades_query f) db = Returned t /\
             forall out, In out (t_rows t) -> Frame.cell t "especialidad" out <> VNull) /\
  (exists t, Exec.execute (especialidades_completo_query f) db = Returned t /\
             forall out, In out (t_rows t) -> Frame.cell t "especialidad" out <> VNull) /\
  (exists t, Exec.execute (tendencia_query f) db = Returned t /\
             forall out, In out (t_rows t) -> Frame.cell t "mes" out <> VNull) /\
  (exists t, Exec.execute (adj_region_query f) db = Returned t /\
             forall r, In r db -> passes f r = true -> RegionProveedor (raw r) = None ->
                       exists out, In out (t_rows t) /\ Frame.cell t "region" out = VNull) /\
  (exists t, Exec.execute (compras_region_query f) db = Returned t /\
             forall r, In r db -> passes f r = true -> RegionUnidadCompra (raw r) = None ->
                       exists out, In out (t_rows t) /\ Frame.cell t "region" out = VNull) /\
  (exists k kpis, Exec.execute (kpi_query f) db = Returned k /\
                  Frame.iloc0 k = Returned kpis /\
                  Frame.cell k "total_ordenes" kpis
                  = VInt (Z.of_nat (List.length (filter (passes f) db)))).
Proof.
  intros H db. pose proof (typeof_predicate f H) as T.
  unfold Exec.execute.
  rewrite (parse_top_especialidades f H), (parse_especialidades_completo f H),
    (parse_tendencia f H), (parse_adj_region f H), (parse_compras_region f H),
    (parse_kpi f H).
  cbn [bind].
  rewrite (exec_top_especialidades _ db T), (exec_especialidades_completo _ db T),
    (exec_tendencia _ db T), (exec_adj_region _ db T), (exec_compras_region _ db T),
    (exec_kpi _ db T).
  repeat apply conj.
  - eexists. split; [reflexivity|]. cbn [t_rows]. intros out Ho.
    apply in_firstn, in_sorted_groups in Ho. destruct Ho as (r & g & Hr & _ & ->).
    apply in_kept in Hr. destruct Hr as [_ Hr].
    apply holds_not_null_category in Hr. exact (proj2 Hr).
  - eexists. split; [reflexivity|]. cbn [t_rows]. intros out Ho.
    apply in_sorted_groups in Ho. destruct Ho as (r & g & Hr & _ & ->).
    apply in_kept in Hr. destruct Hr as [_ Hr].
    apply holds_not_null_category in Hr. exact (proj2 Hr).
  - eexists. split; [reflexivity|]. cbn [t_rows]. intros out Ho.
    apply in_sorted_groups in Ho. destruct Ho as (r & g & Hr & _ & ->).
    apply in_kept in Hr. destruct Hr as [_ Hr].
    destruct (holds_in_range f r H Hr) as (d & Hd & _).
    change (Frame.cell _ "mes" _) with (Engine.eval Stmt.month_of_date r).
    unfold Stmt.month_of_date. cbn [Engine.eval].
    change (Engine.column "FechaEnvioOC_parsed" r)
      with (Some (Engine.datev (FechaEnvioOC_parsed r))).
    rewrite Hd. discriminate.
  - eexists. split; [reflexivity|]. cbn [t_rows]. intros r Hr Hp Hn.
    rewrite (passes_plain f r H) in Hp.
    destruct (null_group_row (Stmt.adj_region (predicate f)) (ECol "RegionProveedor")
                (kept (predicate f) db) r) as [g Hg].
    { apply in_kept. now split. }
    { cbn [Engine.eval].
      change (Engine.column "RegionProveedor" r)
        with (Some (Engine.text (RegionProveedor (raw r)))).
      now rewrite Hn. }
    eexists. split; [apply sort_in; exact Hg | reflexivity].
  - eexists. split; [reflexivity|]. cbn [t_rows]. intros r Hr Hp Hn.
    rewrite (passes_plain f r H) in Hp.
    destruct (null_group_row (Stmt.compras_region (predicate f)) (ECol "RegionUnidadCompra")
                (kept (predicate f) db) r) as [g Hg].
    { apply in_kept. now split. }
    { cbn [Engine.eval].
      change (Engine.column "RegionUnidadCompra" r)
        with (Some (Engine.text (RegionUnidadCompra (raw r)))).
      now rewrite Hn. }
    eexists. split; [apply sort_in; exact Hg | reflexivity].
  - do 2 eexists. split; [reflexivity|]. split; [reflexivity|].
    change (Frame.cell _ "total_ordenes" _)
      with (VInt (Z.of_nat (List.length (kept (predicate f) db)))).
    unfold kept.
    rewrite (filter_ext (passes f) (Engine.holds (predicate f)));
      [reflexivity | intros r; now apply passes_plain].
Qed.

(** ** Amounts that do not parse (C6) *)

Lemma eval_amount (r : row) :
  Engine.eval Stmt.amount r = Engine.numv (try_cast_double (MontoTotalOC_CLP (raw r))).
Proof.
  unfold Stmt.amount. cbn [Engine.eval].
  change (Engine.column "MontoTotalOC_CLP" r)
    with (Some (Engine.text (MontoTotalOC_CLP (raw r)))).
  now destruct (MontoTotalOC_CLP (raw r)).
Qed.

Lemma nums_parseable (g : list row) :
  Engine.nums (amounts g) = Engine.nums (amounts (filter parseable g)).
Proof.
  unfold amounts. induction g as [|r g IH]; [reflexivity|].
  cbn [map filter]. rewrite eval_amount.
  destruct (parseable r) eqn:P; unfold parseable in P;
    destruct (try_cast_double (MontoTotalOC_CLP (raw r))) as [q|] eqn:E;
    try discriminate P.
  - cbn [map]. rewrite eval_amount, E. cbn [Engine.numv Engine.nums]. now rewrite IH.
  - cbn [Engine.numv Engine.nums]. exact IH.
Qed.

Lemma sum_parseable (g : list row) : Engine.sum_of (amounts g) = amount_sum g.
Proof. unfold amount_sum, Engine.sum_of. now rewrite nums_parseable. Qed.

Lemma avg_parseable (g : list row) : Engine.avg_of (amounts g) = amount_avg g.
Proof. unfold amount_avg, Engine.avg_of. now rewrite nums_parseable. Qed.

Lemma kept_passes (f : filters) (db : list row) :
  plain f -> kept (predicate f) db = filter (passes f) db.
Proof.
  intros H. unfold kept. apply filter_ext. intros r. symmetry. now apply passes_plain.
Qed.

Lemma kept_category (f : filters) (db : list row) :
  plain f ->
  kept (Stmt.not_null_category (predicate f)) db
  = filter (fun r => passes f r && has_category r) db.
Proof.
  intros H. unfold kept. apply filter_ext. intros r.
  unfold Stmt.not_null_category. rewrite holds_and, (passes_plain f r H). f_equal.
  unfold Engine.holds, has_category. cbn [Engine.eval].
  change (Engine.column "ONUProducto" r) with (Some (Engine.text (ONUProducto (raw r)))).
  now destruct (ONUProducto (raw r)).
Qed.










Lemma exact_amounts_sample : exact_amounts [rec_clinica; rec_farmacia].
Proof. split; [repeat constructor | reflexivity]. Qed.

(** ** Shares of the categories (C7) *)

Local Open Scope Z_scope.

Lemma round_half_even_near (num den : Z) :
  0 < den -> Z.abs (2 * (Frame.round_half_even num den * den - num)) <= den.
Proof.
  intros H. unfold Frame.round_half_even.
  pose proof (Z.div_mod num den ltac:(lia)) as D.
  pose proof (Z.mod_pos_bound num den H) as B.
  set (q := num / den) in *. set (r := num mod den) in *.
  destruct (2 * r <? den) eqn:E1; [apply Z.ltb_lt in E1; nia|].
  apply Z.ltb_ge in E1.
  destruct (den <? 2 * r) eqn:E2; [apply Z.ltb_lt in E2; nia|].
  apply Z.ltb_ge in E2.
  destruct (Z.even q); nia.
Qed.

Lemma tenths_near (total : Z) (ordenes : list Z) :
  0 < total ->
  Z.abs (2 * (Frame.sumZ (tenths total ordenes) * total - 1000 * Frame.sumZ ordenes))
  <= Z.of_nat (List.length ordenes) * total.
Proof.
  intros H. induction ordenes as [|n l IH]; [simpl; lia|].
  pose proof (round_half_even_near (1000 * n) total H) as R.
  cbn [tenths map Frame.sumZ fold_right List.length] in *.
  fold (tenths total l) in *. fold (Frame.sumZ (tenths total l)) in *.
  fold (Frame.sumZ l) in *.
  rewrite Nat2Z.inj_succ. lia.
Qed.

Lemma sum_nonneg (ordenes : list Z) :
  Forall (fun n => 1 <= n) ordenes -> 0 <= Frame.sumZ ordenes.
Proof.
  induction 1 as [|n l Hn Hl IH]; [simpl; lia|].
  change (Frame.sumZ (n :: l)) with (n + Frame.sumZ l). lia.
Qed.

Lemma sum_positive (ordenes : list Z) :
  ordenes <> [] -> Forall (fun n => 1 <= n) ordenes -> 0 < Frame.sumZ ordenes.
Proof.
  intros N F. destruct ordenes as [|n l]; [contradiction|].
  inversion F; subst.
  change (Frame.sumZ (n :: l)) with (n + Frame.sumZ l).
  pose proof (sum_nonneg l H2). lia.
Qed.

Lemma total_tenths (zs : list Z) :
  (Engine.total (map (fun z => Qmake z 10) zs) == Qmake (Frame.sumZ zs) 10)%Q.
Proof.
  induction zs as [|z zs IH]; [reflexivity|].
  cbn [map Engine.total fold_right Frame.sumZ].
  fold (Engine.total (map (fun z => Qmake z 10) zs)). fold (Frame.sumZ zs).
  rewrite IH. unfold Qeq, Qplus. simpl. lia.
Qed.

Lemma participacion_tenths (ordenes : list Z) :
  Frame.participacion ordenes
  = map (fun z => Qmake z 10) (tenths (Frame.sumZ ordenes) ordenes).
Proof. unfold Frame.participacion, tenths. now rewrite map_map. Qed.

Lemma shares_near (total : Z) (ordenes : list Z) :
  0 < total ->
  Forall2 (fun n share =>
             exists z, share = Qmake z 10 /\ Z.abs (2 * (z * total - 1000 * n)) <= total)
          ordenes (map (fun n => Qmake (Frame.round_half_even (1000 * n) total) 10) ordenes).
Proof.
  intros P. induction ordenes as [|n l IH]; constructor; [|exact IH].
  eexists. split; [reflexivity|]. now apply round_half_even_near.
Qed.

(** C7, as stated, fails: six categories with one order each have a share
    of 16.7 each, 100.2 in all. *)
Lemma C7_shares_of_six_sum_to_100_2 :
  Frame.participacion six_single_orders
  = [Qmake 167 10; Qmake 167 10; Qmake 167 10; Qmake 167 10; Qmake 167 10; Qmake 167 10]
  /\ ~ (Qabs (Engine.total (Frame.participacion six_single_orders) - 100) <= 1 # 10)%Q.
Proof.
  split; [reflexivity|].
  intros H. apply Qle_bool_iff in H. vm_compute in H. discriminate H.
Qed.

(** C7, amended.  For the order counts of a non-empty Category Detail
    result (each count at least one): every share is a whole number [z] of
    tenths of a percent, [z] being the integer nearest to the exact value
    [1000 * n / total] (at most one half away), and the shares sum to 100
    within 0.05 times the number of categories. *)
Theorem C7_shares_sum_near_100 (ordenes : list Z) :
  ordenes <> [] ->
  Forall (fun n => 1 <= n) ordenes ->
  let total := Frame.sumZ ordenes in
  Forall2 (fun n share =>
             exists z, share = Qmake z 10 /\ Z.abs (2 * (z * total - 1000 * n)) <= total)
          ordenes (Frame.participacion ordenes) /\
  (Qabs (Engine.total (Frame.participacion ordenes) - 100)
   <= inject_Z (Z.of_nat (List.length ordenes)) * (1 # 20))%Q.
Proof.
  intros N F total. pose proof (sum_positive ordenes N F) as P. fold total in P.
  split.
  - apply shares_near, P.
  - rewrite participacion_tenths, total_tenths. fold total.
    pose proof (tenths_near total ordenes P) as T. fold total in T.
    set (s := Frame.sumZ (tenths total ordenes)) in *.
    set (k := Z.of_nat (List.length ordenes)) in *.
    apply Qabs_Qle_condition.
    unfold Qle, Qminus, Qplus, Qopp, Qmult, inject_Z. simpl.
    split; nia.
Qed.

Lemma C7_shares_sum_near_100_witness :
  six_single_orders <> [] /\ Forall (fun n => 1 <= n) six_single_orders /\
  (Qabs (Engine.total (Frame.participacion six_single_orders) - 100)
   <= inject_Z (Z.of_nat (List.length six_single_orders)) * (1 # 20))%Q.
Proof.
  assert (N : six_single_orders <> []) by discriminate.
  assert (F : Forall (fun n => 1 <= n) six_single_orders) by (repeat constructor; lia).
  split; [exact N|]. split; [exact F|].
  exact (proj2 (C7_shares_sum_near_100 six_single_orders N F)).
Defined.

Local Close Scope Z_scope.

(** ** The search clause on terms without quote and wildcard *)

Lemma like_any (u : string) : Text.like "%" u = true.
Proof.
  induction u as [|c u IH]; [reflexivity|].
  cbn in IH |- *. exact IH.
Qed.

Lemma like_prefix (t u : string) :
  no_wildcard t = true -> Text.like (t ++ "%") u = Text.starts_with t u.
Proof.
  revert u. induction t as [|a t IH]; intros u H.
  - cbn [append]. rewrite (like_any u). now destruct u.
  - cbn [no_wildcard] in H.
    apply andb_prop in H. destruct H as [Ha Ht].
    apply andb_prop in Ha. destruct Ha as [A1 A2].
    apply negb_true_iff in A1. apply negb_true_iff in A2.
    cbn [append Text.like Text.starts_with]. rewrite A1, A2.
    destruct u as [|c u]; [reflexivity|]. now rewrite IH.
Qed.

Lemma like_contains (t s : string) :
  no_wildcard t = true -> Text.like ("%" ++ t ++ "%") s = Text.contains t s.
Proof.
  intros H. induction s as [|c s IH].
  - cbn. rewrite (like_prefix t "" H). now rewrite orb_false_r.
  - change (Text.like ("%" ++ t ++ "%") (String c s))
      with (Text.like (t ++ "%") (String c s) || Text.like ("%" ++ t ++ "%") s).
    rewrite IH, (like_prefix _ _ H). reflexivity.
Qed.

Lemma lower_ascii_plain (c : ascii) :
  negb (Text.code c =? 37) && negb (Text.code c =? 95) = true ->
  negb (Text.code (Text.lower_ascii c) =? 37)
  && negb (Text.code (Text.lower_ascii c) =? 95) = true.
Proof.
  destruct c as [[] [] [] [] [] [] [] []]; intros H; try reflexivity; discriminate H.
Qed.

Lemma lower_latin1_plain (c : ascii) :
  negb (Text.code c =? 37) && negb (Text.code c =? 95) = true ->
  negb (Text.code (Text.lower_latin1 c) =? 37)
  && negb (Text.code (Text.lower_latin1 c) =? 95) = true.
Proof.
  destruct c as [[] [] [] [] [] [] [] []]; intros H; try reflexivity; discriminate H.
Qed.

Lemma lower_no_wildcard_aux (n : nat) :
  forall s, String.length s < n -> no_wildcard s = true ->
            no_wildcard (Text.lower s) = true.
Proof.
  induction n as [|n IH]; intros s Hn Hw; [lia|].
  destruct s as [|c s]; [reflexivity|].
  cbn [no_wildcard] in Hw. apply andb_prop in Hw. destruct Hw as [Hc Hs].
  cbn [Text.lower]. destruct (Text.code c =? 195) eqn:E.
  - destruct s as [|d s].
    + cbn [no_wildcard]. now rewrite Hc.
    + cbn [no_wildcard] in Hs. apply andb_prop in Hs. destruct Hs as [Hd Hs].
      cbn [no_wildcard]. rewrite Hc, (lower_latin1_plain d Hd). cbn [andb].
      apply IH; [simpl in Hn; lia | exact Hs].
  - cbn [no_wildcard]. rewrite (lower_ascii_plain c Hc). cbn [andb].
    apply IH; [simpl in Hn; lia | exact Hs].
Qed.

Lemma lower_no_wildcard (s : string) :
  no_wildcard s = true -> no_wildcard (Text.lower s) = true.
Proof. apply (lower_no_wildcard_aux (S (String.length s))). lia. Qed.

(** On a term without wildcard the clause of the search filter is the
    literal match: the term, in small letters, occurs in the supplier name
    in small letters, or the term occurs in the tax id. *)
Lemma search_clause_is_literal_match (term : string) (r : row) :
  no_wildcard term = true ->
  Engine.holds
    (EOr (ELike (ELower (ECol "Proveedor")) (EStr ("%" ++ Text.lower term ++ "%")))
         (ELike (ECol "ProveedorRUT") (EStr ("%" ++ term ++ "%"))))
    r
  = literal_match term r.
Proof.
  intros H. unfold Engine.holds, literal_match. cbn [Engine.eval].
  change (Engine.column "Proveedor" r) with (Some (Engine.text (Proveedor (raw r)))).
  change (Engine.column "ProveedorRUT" r) with (Some (Engine.text (ProveedorRUT (raw r)))).
  destruct (Proveedor (raw r)) as [name|], (ProveedorRUT (raw r)) as [rut|];
    cbn [Engine.text Engine.or3];
    rewrite ?(like_contains _ _ (lower_no_wildcard _ H)), ?(like_contains _ _ H);
    repeat match goal with
           | |- context [Text.contains ?a ?b] => destruct (Text.contains a b)
           end; reflexivity.
Qed.

(** ** The search term and the region values inside the statement text (C1) *)

(** C1.  The search term is written into the statement text as it stands,
    so a term with a single quote ends the literal and the rest of the term
    is read as SQL.  On three records, none of which has the term in its
    supplier name or tax id:
    - the term [') OR 1=1 --] turns the predicate into a disjunction with
      [1 = 1], and the listing returns all three records, the one outside
      the health sector and outside the date range included;
    - the term [' OR 1=1 --] makes the statement unparsable;
    - the term [%], a LIKE wildcard, returns every record that passes the
      other filters.
    The region values are written the same way: the listed region
    [Libertador Gral. Bernardo O'Higgins] makes the statement unparsable. *)
Theorem C1_search_term_is_read_as_sql :
  let db := load_data [rec_clinica; rec_farmacia; rec_obra] in
  (map (literal_match "') OR 1=1 --") db = [false; false; false] /\
   compiled (with_search "') OR 1=1 --")
   = Returned
       (EOr (EAnd (EAnd (EAnd (EOr (ELike (ELower (ECol "RubroN1")) (EStr "%salud%"))
                                   (ELike (ELower (ECol "RubroN1")) (EStr "%médico%")))
                              (date_from (mkdate 2025 1 1)))
                        (date_to (mkdate 2025 12 31)))
                  (ELike (ELower (ECol "Proveedor")) (EStr "%")))
            (ECmp OpEq (EInt 1) (EInt 1))) /\
   listed (with_search "') OR 1=1 --") 1000 db
   = Returned [VStr "OC-2"; VStr "OC-1"; VStr "OC-4"]) /\
  listed (with_search "' OR 1=1 --") 1000 db = Raised ParserException /\
  (map (literal_match "%") db = [false; false; false] /\
   listed (with_search "%") 1000 db = Returned [VStr "OC-2"; VStr "OC-1"]) /\
  (existsb (String.eqb "Libertador Gral. Bernardo O'Higgins") REGIONES_CHILE = true /\
   listed (with_region "Libertador Gral. Bernardo O'Higgins") 1000 db
   = Raised ParserException).
Proof. repeat split; vm_compute; reflexivity. Qed.

Lemma selectbox_in (options : list string) (picked : nat) :
  options <> [] -> In (selectbox options picked) options.
Proof.
  intros N. unfold selectbox.
  destruct (Nat.lt_ge_cases picked (List.length options)) as [L|G].
  - now apply nth_In.
  - rewrite (nth_overflow _ _ G). destruct options; [contradiction | now left].
Qed.

(** ** The expression parser and the text that follows the expression *)

Lemma stops_cases (suf : list token) :
  stops suf ->
  suf = [] \/
  exists s suf', suf = TWord s :: suf' /\
    Parser.kw s "or" = false /\ Parser.kw s "and" = false /\ Parser.kw s "like" = false /\
    Parser.kw s "is" = false /\ Parser.kw s "not" = false /\ Parser.kw s "null" = false /\
    Parser.kw s "as" = false.
Proof.
  intros H. destruct suf as [|t suf']; [now left|].
  destruct t; try (exfalso; exact H).
  right. exists w, suf'. split; [reflexivity|].
  unfold stops, stop_word in H.
  apply negb_true_iff in H. cbn [existsb] in H.
  repeat (apply orb_false_elim in H; destruct H as [? H]).
  repeat split; assumption.
Qed.

Section Extend.

Variable suf : list token.
Hypothesis Hsuf : stops suf.

Lemma extends_or_tail (n m : nat) :
  extends suf (Parser.p_and n) (Parser.p_and m) ->
  (forall e0, extends suf (Parser.p_or_tail n e0) (Parser.p_or_tail m e0)) ->
  forall e0, extends suf (Parser.p_or_tail (S n) e0) (Parser.p_or_tail (S m) e0).
Proof.
  intros Hand Htail e0 ts e rest H.
  destruct ts as [|t ts].
  - cbn in H. inversion H; subst. cbn [app].
    destruct (stops_cases suf Hsuf) as [E|(s & suf' & E & K & _)]; rewrite E;
      [reflexivity|].
    cbn. now rewrite K.
  - destruct t; try (cbn in H |- *; inversion H; subst; reflexivity).
    cbn in H |- *. destruct (Parser.kw w "or").
    + destruct (Parser.p_and n ts) as [[e2 r2]|] eqn:E; [|discriminate H].
      rewrite (Hand _ _ _ E). now apply Htail.
    + inversion H; subst. reflexivity.
Qed.

Lemma extends_and_tail (n m : nat) :
  extends suf (Parser.p_cmp n) (Parser.p_cmp m) ->
  (forall e0, extends suf (Parser.p_and_tail n e0) (Parser.p_and_tail m e0)) ->
  forall e0, extends suf (Parser.p_and_tail (S n) e0) (Parser.p_and_tail (S m) e0).
Proof.
  intros Hcmp Htail e0 ts e rest H.
  destruct ts as [|t ts].
  - cbn in H. inversion H; subst. cbn [app].
    destruct (stops_cases suf Hsuf) as [E|(s & suf' & E & _ & K & _)]; rewrite E;
      [reflexivity|].
    cbn. now rewrite K.
  - destruct t; try (cbn in H |- *; inversion H; subst; reflexivity).
    cbn in H |- *. destruct (Parser.kw w "and").
    + destruct (Parser.p_cmp n ts) as [[e2 r2]|] eqn:E; [|discriminate H].
      rewrite (Hcmp _ _ _ E). now apply Htail.
    + inversion H; subst. reflexivity.
Qed.

Lemma extends_wrap (g : expr -> expr) (p q : list token -> Parser.result) :
  extends suf p q ->
  extends suf (fun ts => Parser.wrap g (p ts)) (fun ts => Parser.wrap g (q ts)).
Proof.
  intros Hp ts e rest H. cbv beta in *.
  destruct (p ts) as [[e1 r1]|] eqn:E; [|discriminate H].
  rewrite (Hp _ _ _ E). cbn in H |- *. inversion H; subst. reflexivity.
Qed.

Lemma extends_close (p q : list token -> Parser.result) :
  extends suf p q ->
  extends suf (fun ts => Parser.close (p ts)) (fun ts => Parser.close (q ts)).
Proof.
  intros Hp ts e rest H. cbv beta in *.
  destruct (p ts) as [[e1 r1]|] eqn:E; [|discriminate H].
  rewrite (Hp _ _ _ E). cbn in H |- *.
  destruct r1 as [|[] r1]; try discriminate H. inversion H; subst. reflexivity.
Qed.

#[local] Arguments Parser.kw : simpl never.
#[local] Arguments Parser.reserved : simpl never.

Lemma extends_primary (n m : nat) :
  extends suf (Parser.p_or n) (Parser.p_or m) ->
  extends suf (Parser.p_primary (S n)) (Parser.p_primary (S m)).
Proof.
  intros Hor ts e rest H.
  destruct ts as [|t ts]; [discriminate H|].
  destruct t; try discriminate H.
  - (* a word *)
    cbn in H |- *.
    destruct (Parser.kw w "date").
    { destruct ts as [|[] ts]; try discriminate H. inversion H; subst. reflexivity. }
    destruct (Parser.reserved w); [discriminate H|].
    destruct ts as [|t ts].
    { inversion H; subst. cbn [app].
      destruct (stops_cases suf Hsuf) as [E|(s & suf' & E & _)]; rewrite E; reflexivity. }
    destruct t; try (inversion H; subst; reflexivity).
    cbn [app].
    destruct (Parser.kw w "lower").
    { exact (extends_wrap _ _ _ (extends_close _ _ Hor) _ _ _ H). }
    destruct (Parser.kw w "sum").
    { exact (extends_wrap _ _ _ (extends_close _ _ Hor) _ _ _ H). }
    destruct (Parser.kw w "avg").
    { exact (extends_wrap _ _ _ (extends_close _ _ Hor) _ _ _ H). }
    destruct (Parser.kw w "count").
    { destruct ts as [|t ts]; [discriminate H|].
      destruct t; try discriminate H.
      - cbn [app]. destruct (Parser.kw w0 "distinct"); [|discriminate H].
        exact (extends_wrap _ _ _ (extends_close _ _ Hor) _ _ _ H).
      - destruct ts as [|[] ts]; try discriminate H. inversion H; subst. reflexivity. }
    destruct (Parser.kw w "try_cast").
    { destruct (Parser.p_or n ts) as [[e1 r1]|] eqn:E; [|discriminate H].
      rewrite (Hor _ _ _ E).
      destruct r1 as [|[] [|[] [|[] r1]]]; try discriminate H.
      cbn [app]. destruct (Parser.kw w0 "as" && Parser.kw w1 "double"); [|discriminate H].
      inversion H; subst. reflexivity. }
    destruct (Parser.kw w "date_trunc"); [|discriminate H].
    destruct ts as [|[] [|[] ts]]; try discriminate H.
    cbn [app]. exact (extends_wrap _ _ _ (extends_close _ _ Hor) _ _ _ H).
  - (* a literal *)
    cbn in H |- *. inversion H; subst. reflexivity.
  - (* a number *)
    cbn in H |- *. inversion H; subst. reflexivity.
  - (* a parenthesis *)
    exact (extends_close _ _ Hor _ _ _ H).
Qed.

Lemma extends_cmp (n m : nat) :
  extends suf (Parser.p_primary n) (Parser.p_primary m) ->
  extends suf (Parser.p_cmp (S n)) (Parser.p_cmp (S m)).
Proof.
  intros Hp ts e rest H.
  cbn in H |- *.
  destruct (Parser.p_primary n ts) as [[a l]|] eqn:E; [|discriminate H].
  rewrite (Hp _ _ _ E).
  destruct l as [|t l].
  - (* the expression ends with the primary *)
    inversion H; subst. cbn [app].
    destruct (stops_cases suf Hsuf) as [E1|(s & suf' & E1 & _ & _ & L & I & _)];
      rewrite E1; [reflexivity|].
    cbn. rewrite L, I. cbn.
    destruct suf' as [|[] [|[] suf']]; reflexivity.
  - cbn [app].
    destruct (Parser.cmp_of t) eqn:C.
    { exact (extends_wrap _ _ _ Hp _ _ _ H). }
    destruct t; try (inversion H; subst; reflexivity).
    destruct (Parser.kw w "like") eqn:L.
    { assert (W : Parser.wrap (ELike a) (Parser.p_primary n l) = Some (e, rest)).
      { destruct l as [|[] [|[] l]]; exact H. }
      pose proof (extends_wrap _ _ _ Hp _ _ _ W) as X. cbv beta in X.
      destruct (l ++ suf) as [|[] [|[] ?]]; exact X. }
    destruct l as [|t1 l].
    { (* one word left *)
      inversion H; subst. cbn [app].
      destruct (stops_cases suf Hsuf) as [E1|(s & suf' & E1 & _ & _ & _ & _ & N & _)];
        rewrite E1; [reflexivity|].
      destruct suf' as [|[] suf']; try reflexivity.
      rewrite N, andb_false_r. reflexivity. }
    destruct t1; try (inversion H; subst; reflexivity).
    destruct l as [|t2 l].
    { (* two words left *)
      inversion H; subst. cbn [app].
      destruct (stops_cases suf Hsuf) as [E1|(s & suf' & E1 & _ & _ & _ & _ & _ & N & _)];
        rewrite E1; [reflexivity|].
      rewrite N, andb_false_r. reflexivity. }
    destruct t2; try (inversion H; subst; reflexivity).
    cbn [app].
    destruct (Parser.kw w "is" && Parser.kw w0 "not" && Parser.kw w1 "null");
      inversion H; subst; reflexivity.
Qed.

(** Appending text that starts with a stop word to the tokens of an
    expression leaves the expression as it was parsed, also with a larger
    bound on the depth. *)
Lemma extends_all (n : nat) :
  forall m, n <= m ->
  extends suf (Parser.p_or n) (Parser.p_or m) /\
  (forall e0, extends suf (Parser.p_or_tail n e0) (Parser.p_or_tail m e0)) /\
  extends suf (Parser.p_and n) (Parser.p_and m) /\
  (forall e0, extends suf (Parser.p_and_tail n e0) (Parser.p_and_tail m e0)) /\
  extends suf (Parser.p_cmp n) (Parser.p_cmp m) /\
  extends suf (Parser.p_primary n) (Parser.p_primary m).
Proof.
  induction n as [|n IH]; intros m L.
  - repeat split; intros; intros ? ? ? H; discriminate H.
  - destruct m as [|m]; [lia|].
    destruct (IH m ltac:(lia)) as (Hor & Hort & Hand & Handt & Hcmp & Hprim).
    assert (P : extends suf (Parser.p_primary (S n)) (Parser.p_primary (S m)))
      by now apply extends_primary.
    assert (C : extends suf (Parser.p_cmp (S n)) (Parser.p_cmp (S m)))
      by now apply extends_cmp.
    assert (AT : forall e0, extends suf (Parser.p_and_tail (S n) e0)
                                        (Parser.p_and_tail (S m) e0))
      by now apply extends_and_tail.
    assert (OT : forall e0, extends suf (Parser.p_or_tail (S n) e0)
                                        (Parser.p_or_tail (S m) e0))
      by now apply extends_or_tail.
    repeat split; try assumption.
    + intros ts e rest H. cbn in H |- *.
      destruct (Parser.p_and n ts) as [[e1 r1]|] eqn:E; [|discriminate H].
      rewrite (Hand _ _ _ E). now apply Hort.
    + intros ts e rest H. cbn in H |- *.
      destruct (Parser.p_cmp n ts) as [[e1 r1]|] eqn:E; [|discriminate H].
      rewrite (Hcmp _ _ _ E). now apply Handt.
Qed.

End Extend.

Lemma p_expr_extends (suf ts : list token) (e : expr) (rest : list token) :
  stops suf ->
  Parser.p_expr ts = Some (e, rest) ->
  Parser.p_expr (ts ++ suf) = Some (e, rest ++ suf).
Proof.
  intros Hs H. unfold Parser.p_expr in *.
  refine (proj1 (extends_all suf Hs (Parser.fuel ts) (Parser.fuel (ts ++ suf)) _) _ _ _ H).
  unfold Parser.fuel. rewrite length_app. lia.
Qed.

#[local] Arguments Parser.kw : simpl never.
#[local] Arguments Parser.p_expr : simpl never.

(** The select list, followed by text that starts with a stop word. *)
Lemma p_items_extends (suf : list token) (Hs : stops suf) (k : nat) :
  forall k' ts its,
    k <= k' ->
    Parser.p_items k ts = Some (its, []) ->
    Parser.p_items k' (ts ++ suf) = Some (its, suf).
Proof.
  induction k as [|k IH]; intros k' ts its L H; [discriminate H|].
  destruct k' as [|k']; [lia|].
  cbn in H |- *.
  destruct (Parser.p_expr ts) as [[e rest]|] eqn:E; [|discriminate H].
  rewrite (p_expr_extends suf ts e rest Hs E).
  assert (Tail : forall al rest1,
             match rest1 with
             | TComma :: rest2 =>
                 match Parser.p_items k rest2 with
                 | Some (its0, rest3) => Some (mkitem e al :: its0, rest3)
                 | None => None
                 end
             | _ => Some ([mkitem e al], rest1)
             end = Some (its, []) ->
             match rest1 ++ suf with
             | TComma :: rest2 =>
                 match Parser.p_items k' rest2 with
                 | Some (its0, rest3) => Some (mkitem e al :: its0, rest3)
                 | None => None
                 end
             | _ => Some ([mkitem e al], rest1 ++ suf)
             end = Some (its, suf)).
  { intros al rest1 T.
    destruct rest1 as [|t rest1].
    - inversion T; subst. cbn [app].
      destruct (stops_cases suf Hs) as [E1|(s & suf' & E1 & _)]; rewrite E1; reflexivity.
    - destruct t; try (inversion T; fail).
      cbn [app].
      destruct (Parser.p_items k rest1) as [[its0 rest3]|] eqn:E0; [|discriminate T].
      inversion T; subst.
      rewrite (IH k' rest1 its0 ltac:(lia) E0). reflexivity. }
  destruct rest as [|t rest].
  - (* the list ends with the expression *)
    cbn [app]. specialize (Tail None []). cbn [app] in Tail.
    destruct (stops_cases suf Hs)
      as [E1|(s & suf' & E1 & _ & _ & _ & _ & _ & _ & A)].
    + rewrite E1 in *. exact (Tail H).
    + rewrite E1 in *. destruct suf' as [|[] suf']; try exact (Tail H).
      rewrite A. exact (Tail H).
  - destruct t; try exact (Tail None _ H); try (inversion H; fail);
      try exact (Tail None (TComma :: rest) H).
    destruct rest as [|t1 rest].
    + (* one word left: it is not the whole remainder of a select list *)
      inversion H.
    + destruct t1; try exact (Tail None _ H); try (inversion H; fail).
      cbn [app]. destruct (Parser.kw w "as"); [exact (Tail _ _ H) | inversion H].
Qed.

(** ** A statement around any clause that the engine can read (C8) *)

Lemma step_newline (st : lstate) (fin : list token) :
  Lexer.finish st = Some fin -> Lexer.step st newline = (LNormal, fin).
Proof.
  destruct st; intros H; inversion H; subst; vm_compute; reflexivity.
Qed.

(** The tokens of a text stay what they are when a new line follows. *)
Lemma lex_then_newline (w rest : string) (toks : list token) :
  Lexer.lex w = Some toks ->
  Lexer.lex_from LNormal (w ++ String newline rest)
  = option_map (app toks) (Lexer.lex_from LNormal rest).
Proof.
  unfold Lexer.lex. intros H. rewrite lex_from_app.
  unfold Lexer.lex_from in H.
  destruct (Lexer.finish (fst (Lexer.run LNormal w))) as [fin|] eqn:F; [|discriminate H].
  inversion H; subst. clear H.
  assert (S : Lexer.lex_from (fst (Lexer.run LNormal w)) (String newline rest)
              = option_map (app fin) (Lexer.lex_from LNormal rest)).
  { unfold Lexer.lex_from. cbn [Lexer.run]. rewrite (step_newline _ _ F). cbn [fst snd].
    destruct (Lexer.finish (fst (Lexer.run LNormal rest))); [|reflexivity].
    cbn [option_map]. now rewrite app_assoc. }
  rewrite S. now rewrite option_map_app.
Qed.

Lemma lex_statement_any (f : filters) (head tail : string) (hs ts toks : list token) :
  Lexer.run LNormal head = (LNormal, hs) ->
  Lexer.lex (where_sql f) = Some toks ->
  Lexer.lex_from LNormal tail = Some ts ->
  Lexer.lex (head ++ where_sql f ++ String newline tail) = Some (hs ++ toks ++ ts).
Proof.
  intros Hh Hw Ht. unfold Lexer.lex.
  rewrite (lex_from_prefix _ _ _ _ _ Hh), (lex_then_newline _ _ _ Hw), Ht.
  reflexivity.
Qed.

#[local] Arguments Parser.p_expr : simpl never.
#[local] Arguments Parser.p_items : simpl never.

Lemma p_statement_where (items : list token) (its : list select_item)
      (toks tail : list token) (w : expr)
      (g : option expr) (o : option (expr * bool)) (l : option nat)
      (t1 t2 : list token) :
  Parser.p_items (List.length items + 1) items = Some (its, []) ->
  Parser.p_expr toks = Some (w, []) ->
  stops tail ->
  Parser.p_group tail = Some (g, t1) ->
  Parser.p_order t1 = Some (o, t2) ->
  Parser.p_limit t2 = Some (l, []) ->
  Parser.p_statement
    (TWord "SELECT" :: items ++ TWord "FROM" :: TWord "compras" :: TWord "WHERE" :: toks ++ tail)
  = Some (mkstmt its "compras" (Some w) g o l).
Proof.
  intros Hi Hw Hs Hg Ho Hl.
  unfold Parser.p_statement.
  change (Parser.kw "SELECT" "select") with true. cbv iota.
  set (suf := TWord "FROM" :: TWord "compras" :: TWord "WHERE" :: toks ++ tail).
  assert (L : List.length items + 1 <= List.length (items ++ suf) + 1)
    by (rewrite length_app; lia).
  rewrite (p_items_extends suf eq_refl _ _ _ _ L Hi). subst suf.
  change (Parser.kw "FROM" "from" && negb (Parser.reserved "compras")) with true.
  cbv iota.
  unfold Parser.p_where.
  change (Parser.kw "WHERE" "where") with true. cbv iota.
  rewrite (p_expr_extends tail toks w [] Hs Hw). cbn [app].
  rewrite Hg, Ho, Hl. reflexivity.
Qed.

(** What [compiled] says about the text of the clause. *)
Lemma compiled_tokens (f : filters) (w : expr) :
  compiled f = Returned w ->
  exists toks, Lexer.lex (where_sql f) = Some toks /\ Parser.p_expr toks = Some (w, []).
Proof.
  unfold compiled. intros H.
  destruct (Lexer.lex (where_sql f)) as [toks|]; [|discriminate H].
  exists toks. split; [reflexivity|].
  destruct (Parser.p_expr toks) as [[e [|t r]]|]; try discriminate H.
  inversion H; subst. reflexivity.
Qed.

Lemma parse_kpi_any (f : filters) (w : expr) :
  compiled f = Returned w -> Parser.parse (kpi_query f) = Returned (Stmt.kpi w).
Proof.
  intros H. destruct (compiled_tokens f w H) as (toks & Hl & Hp).
  unfold Parser.parse, kpi_query.
  erewrite (lex_statement_any f _ _ _ [] toks);
    [ | vm_compute; reflexivity | exact Hl | vm_compute; reflexivity ].
  match goal with
  | |- match Parser.p_statement ?l with _ => _ end = _ =>
      change l with
        (TWord "SELECT" ::
         [TWord "COUNT"; TLParen; TWord "DISTINCT"; TWord "ProveedorRUT"; TRParen;
          TWord "as"; TWord "total_adjudicadores"; TComma;
          TWord "COUNT"; TLParen; TStar; TRParen; TWord "as"; TWord "total_ordenes"; TComma;
          TWord "SUM"; TLParen; TWord "TRY_CAST"; TLParen; TWord "MontoTotalOC_CLP";
          TWord "AS"; TWord "DOUBLE"; TRParen; TRParen; TWord "as"; TWord "monto_total"]
         ++ TWord "FROM" :: TWord "compras" :: TWord "WHERE" :: toks ++ [])
  end.
  erewrite p_statement_where;
    [ reflexivity | vm_compute; reflexivity | exact Hp | exact I
      | reflexivity | reflexivity | reflexivity ].
Qed.

Lemma parse_detalle_any (f : filters) (position : nat) (w : expr) :
  compiled f = Returned w ->
  Parser.parse (detalle_query f (slider_value position))
  = Returned (Stmt.detalle w (slider_value position)).
Proof.
  intros H. destruct (compiled_tokens f w H) as (toks & Hl & Hp).
  unfold Parser.parse, detalle_query.
  pose proof (lex_detalle_tail position) as T. unfold detalle_tail in T.
  assert (T' : Lexer.lex_from LNormal
                 ("            ORDER BY FechaEnvioOC_parsed DESC
            LIMIT " ++ str_int (slider_value position) ++ "
        ")
               = Some [TWord "ORDER"; TWord "BY"; TWord "FechaEnvioOC_parsed"; TWord "DESC";
                       TWord "LIMIT"; TNumber (slider_value position)]) by exact T.
  match goal with
  | |- context [(where_sql f ++ ?t)%string] =>
      change t with
        (String newline
           ("            ORDER BY FechaEnvioOC_parsed DESC
            LIMIT " ++ str_int (slider_value position) ++ "
        "))
  end.
  erewrite (lex_statement_any f _ _ _ _ toks);
    [ | vm_compute; reflexivity | exact Hl | exact T' ].
  generalize (slider_value position). intros limit.
  match goal with
  | |- match Parser.p_statement ?l with _ => _ end = _ =>
      change l with
        (TWord "SELECT" ::
         [TWord "codigoOC"; TComma;
          TWord "FechaEnvioOC_parsed"; TWord "as"; TWord "Fecha"; TComma;
          TWord "Proveedor"; TComma; TWord "ProveedorRUT"; TComma;
          TWord "RegionProveedor"; TComma; TWord "RegionUnidadCompra"; TComma;
          TWord "ONUProducto"; TWord "as"; TWord "Especialidad"; TComma;
          TWord "RubroN1"; TWord "as"; TWord "Rubro"; TComma;
          TWord "TRY_CAST"; TLParen; TWord "MontoTotalOC_CLP"; TWord "AS"; TWord "DOUBLE";
          TRParen; TWord "as"; TWord "Monto_CLP"]
         ++ TWord "FROM" :: TWord "compras" :: TWord "WHERE" :: toks
         ++ [TWord "ORDER"; TWord "BY"; TWord "FechaEnvioOC_parsed"; TWord "DESC";
             TWord "LIMIT"; TNumber limit])
  end.
  erewrite p_statement_where;
    [ reflexivity | vm_compute; reflexivity | exact Hp | reflexivity
      | reflexivity | vm_compute; reflexivity | reflexivity ].
Qed.

Lemma exec_kpi_any (w : expr) (db : list row) :
  Exec.exec (Stmt.kpi w) db
  = (_ <- Exec.check_where (Some w) ;;
     Returned (mktable ["total_adjudicadores"; "total_ordenes"; "monto_total"]
                 [Exec.output_row (s_items (Stmt.kpi w)) (VNull, kept w db)])).
Proof.
  unfold Exec.exec. cbn [s_from s_where s_items s_group s_order s_limit Stmt.kpi].
  destruct (Exec.check_where (Some w)); reflexivity.
Qed.

Lemma exec_detalle_any (w : expr) (limit : nat) (db : list row) :
  Exec.exec (Stmt.detalle w limit) db
  = (_ <- Exec.check_where (Some w) ;;
     Returned (mktable detalle_columns
                 (firstn limit
                    (map detalle_row
                       (Engine.sort (Engine.eval (ECol "FechaEnvioOC_parsed")) true
                          (kept w db)))))).
Proof.
  unfold Exec.exec. cbn [s_from s_where s_items s_group s_order s_limit Stmt.detalle].
  destruct (Exec.check_where (Some w)); reflexivity.
Qed.

(** For every filter state whose WHERE text the engine reads as a
    predicate, the KPI statement and the listing statement behave alike:
    either both succeed, the listing shows the first [limit] of the rows
    available to it, and the number of available rows is the
    [total_ordenes] of the KPI row (both are the number of rows of the data
    store that pass the filters); or the predicate is ill-typed and both
    raise the same exception. *)
Theorem kpi_count_is_listing_total
  (f : filters) (position : nat) (file : list csv_row) (w : expr) :
  compiled f = Returned w ->
  let db := load_data file in
  let limit := slider_value position in
  (exists k kpis det available,
     Exec.execute (kpi_query f) db = Returned k /\
     Frame.iloc0 k = Returned kpis /\
     Exec.execute (detalle_query f limit) db = Returned det /\
     t_rows det = firstn limit available /\
     Frame.cell k "total_ordenes" kpis = VInt (Z.of_nat (List.length available)) /\
     List.length available = List.length (filter (passes f) db))
  \/ (exists e, Exec.execute (kpi_query f) db = Raised e /\
                Exec.execute (detalle_query f limit) db = Raised e).
Proof.
  intros H db limit. subst limit.
  unfold Exec.execute.
  rewrite (parse_kpi_any f w H), (parse_detalle_any f position w H). cbn [bind].
  rewrite exec_kpi_any, exec_detalle_any.
  destruct (Exec.check_where (Some w)) as [[]|e]; cbn [bind].
  - left. do 4 eexists.
    split; [reflexivity|]. split; [reflexivity|].
    split; [reflexivity|]. split; [reflexivity|].
    assert (L : List.length (map detalle_row
                  (Engine.sort (Engine.eval (ECol "FechaEnvioOC_parsed")) true (kept w db)))
                = List.length (filter (passes f) db)).
    { rewrite length_map, sort_length. unfold kept, passes. now rewrite H. }
    split; [|exact L].
    rewrite length_map, sort_length. reflexivity.
  - right. exists e. split; reflexivity.
Qed.

(** C8.  The search term is written into both statements as it stands, and
    the text that follows the WHERE clause differs: nothing in the KPI
    statement, ORDER BY and LIMIT in the listing.  With the term
    [') OR 1=1 LIMIT 5 --] in the search box the WHERE text is no predicate
    any more; the KPI statement is read with a LIMIT of its own and reports
    three orders (of three records, none of which holds the term), while
    the listing statement, whose ORDER BY now follows a LIMIT, is not
    parsed: there is no listing whose rows the count could equal. *)
Theorem C8_kpi_count_without_a_listing :
  let f := with_search "') OR 1=1 LIMIT 5 --" in
  let db := load_data [rec_clinica; rec_farmacia; rec_obra] in
  map (literal_match "') OR 1=1 LIMIT 5 --") db = [false; false; false] /\
  compiled f = Raised ParserException /\
  Exec.execute (kpi_query f) db
  = Returned (mktable ["total_adjudicadores"; "total_ordenes"; "monto_total"]
                [[VInt 3; VInt 3; VNum (1500 # 1)]]) /\
  Exec.execute (detalle_query f 1000) db = Raised ParserException.
Proof. repeat split; vm_compute; reflexivity. Qed.

(** ** The access gate *)

Lemma truthy_nonempty (s : string) : truthy s = true <-> s <> "".
Proof. destruct s; simpl; split; intros H; congruence. Qed.

Lemma same_text_eq (p : string) (v : toml) : same_text p v = true <-> v = TomlStr p.
Proof.
  destruct v as [s|]; simpl; split; intros H; try discriminate H.
  - apply String.eqb_eq in H. now subst.
  - inversion H. apply String.eqb_refl.
Qed.

(** What a call of [check_password] can do to the session. *)
Lemma check_password_cases (secrets : secrets_file) (session : session_state)
      (p : string) :
  let '(s', shown, c) := check_password secrets session p in
  (password_correct session = Some true /\ s' = session /\ shown = [] /\ c = Return true)
  \/ (password_correct session <> Some true /\
      ((password_correct s' = Some false /\ c <> Return true /\ c <> Rerun)
       \/ (s' = mksession (Some true) /\ c = Rerun /\ p <> "" /\
           secret_pwd secrets = inl (TomlStr p)))).
Proof.
  unfold check_password.
  destruct session as [pc]; destruct pc as [[|]|]; cbn [password_correct].
  - left. repeat split.
  - destruct (truthy p) eqn:T; [destruct (secret_pwd secrets) as [v|e] eqn:S;
      [destruct (same_text p v) eqn:E|]|]; right; (split; [discriminate|]).
    + right. apply same_text_eq in E. subst v. repeat split. now apply truthy_nonempty.
    + left. repeat split; discriminate.
    + left. repeat split; discriminate.
    + left. repeat split; discriminate.
  - destruct (truthy p) eqn:T; [destruct (secret_pwd secrets) as [v|e] eqn:S;
      [destruct (same_text p v) eqn:E|]|]; right; (split; [discriminate|]).
    + right. apply same_text_eq in E. subst v. repeat split. now apply truthy_nonempty.
    + left. repeat split; discriminate.
    + left. repeat split; discriminate.
    + left. repeat split; discriminate.
Qed.

Lemma script_session (secrets : secrets_file) (loaded : load_result)
      (session : session_state) (p : string) (w : widgets) :
  fst (script secrets loaded session p w) = fst (fst (check_password secrets session p)).
Proof.
  unfold script. destruct (check_password secrets session p) as [[s' shown] c].
  destruct c as [[]| |e]; cbn [fst]; try reflexivity.
  destruct loaded as [con|error]; [|reflexivity].
  destruct (bind _ _) as [[f d]|e]; reflexivity.
Qed.

Lemma script_page (secrets : secrets_file) (loaded : load_result)
      (session s' : session_state) (p : string) (w : widgets) (pg : page) :
  script secrets loaded session p w = (s', Return pg) ->
  (forall shown, pg <> LoginPage shown) ->
  password_correct session = Some true.
Proof.
  unfold script. intros H N.
  pose proof (check_password_cases secrets session p) as C.
  destruct (check_password secrets session p) as [[s1 shown] c].
  destruct C as [(G & _)|(G & [(_ & C1 & C2)|(_ & C & _)])]; [exact G| |].
  - destruct c as [[]| |e]; try congruence.
  - subst c. discriminate H.
Qed.

(** X1.  The dashboard needs the password.  Whatever is typed and done over
    any number of runs of a session that starts without access, a run shows
    something else than the login page (the dashboard, the load error, an
    exception of the engine) only after a run in which the text of the
    password box was the configured password, or [salud2025] when the
    secrets file configures none; without a secrets file there is no such
    text. *)
Theorem dashboard_needs_the_password
  (secrets : secrets_file) (loaded : load_result) (session s' : session_state)
  (runs : list (string * widgets)) (p : string) (w : widgets) (pg : page) :
  password_correct session <> Some true ->
  script secrets loaded (sessions secrets loaded session runs) p w = (s', Return pg) ->
  (forall shown, pg <> LoginPage shown) ->
  exists q w', In (q, w') runs /\ q <> "" /\ secret_pwd secrets = inl (TomlStr q).
Proof.
  intros N H L. apply script_page in H; [|exact L]. clear L p w pg s'.
  revert session N H. induction runs as [|[q w'] runs IH]; intros session N H.
  - simpl in H. contradiction.
  - simpl in H. rewrite script_session in H.
    pose proof (check_password_cases secrets session q) as C.
    destruct (check_password secrets session q) as [[s1 shown] c]. cbn [fst] in H.
    destruct C as [(G & _)|(_ & [(F & _)|(_ & _ & Q & S)])].
    + contradiction.
    + destruct (IH s1) as (q' & w'' & I & R); [congruence | exact H |].
      exists q', w''. split; [now right | exact R].
    + exists q, w'. split; [now left | split; assumption].
Qed.

Lemma dashboard_needs_the_password_witness :
  password_correct (mksession None) <> Some true /\
  script (SecretsFile []) (NotLoaded "timeout")
      (sessions (SecretsFile []) (NotLoaded "timeout") (mksession None)
         [("salud2025", initial_widgets)])
      "" initial_widgets
  = (mksession (Some true), Return (LoadErrorPage "timeout")) /\
  (forall shown, LoadErrorPage "timeout" <> LoginPage shown) /\
  exists q w', In (q, w') [("salud2025", initial_widgets)] /\ q <> "" /\
               secret_pwd (SecretsFile []) = inl (TomlStr q).
Proof.
  assert (A : password_correct (mksession None) <> Some true) by discriminate.
  assert (B : script (SecretsFile []) (NotLoaded "timeout")
                (sessions (SecretsFile []) (NotLoaded "timeout") (mksession None)
                   [("salud2025", initial_widgets)])
                "" initial_widgets
              = (mksession (Some true), Return (LoadErrorPage "timeout")))
    by reflexivity.
  assert (C : forall shown, LoadErrorPage "timeout" <> LoginPage shown) by discriminate.
  split; [exact A|]. split; [exact B|]. split; [exact C|].
  exact (dashboard_needs_the_password (SecretsFile []) (NotLoaded "timeout") (mksession None)
           (mksession (Some true)) [("salud2025", initial_widgets)] "" initial_widgets
           (LoadErrorPage "timeout") A B C).
Defined.

Lemma script_with_access (secrets : secrets_file) (loaded : load_result)
      (session : session_state) :
  password_correct session = Some true ->
  forall q w', exists pg, script secrets loaded session q w' = (session, Return pg)
                          /\ forall shown, pg <> LoginPage shown.
Proof.
  intros G q w'. unfold script, check_password.
  destruct session as [pc]; destruct pc as [[|]|]; cbn [password_correct] in *; try discriminate G.
  destruct loaded as [con|error].
  - destruct (bind _ _) as [[f d]|e]; eexists; split; try reflexivity; discriminate.
  - eexists; split; [reflexivity | discriminate].
Qed.

(** X2.  Access is kept.  Once a session has access, every later run skips the
    login page, whatever stands in the password box, leaves the session as it
    is, and never reruns: there is no way out of the session and the password
    is not looked at again. *)
Theorem access_is_kept
  (secrets : secrets_file) (loaded : load_result) (session : session_state)
  (runs : list (string * widgets)) (p : string) (w : widgets) :
  password_correct session = Some true ->
  sessions secrets loaded session runs = session /\
  exists pg, script secrets loaded (sessions secrets loaded session runs) p w
             = (session, Return pg) /\
             forall shown, pg <> LoginPage shown.
Proof.
  intros G.
  pose proof (script_with_access secrets loaded session G) as A.
  assert (S : sessions secrets loaded session runs = session).
  { induction runs as [|[q w'] runs IH]; [reflexivity|].
    simpl. destruct (A q w') as (pg & E & _). rewrite E. exact IH. }
  split; [exact S|]. rewrite S. apply A.
Qed.

Lemma access_is_kept_witness :
  password_correct (mksession (Some true)) = Some true /\
  sessions (SecretsFile []) (NotLoaded "timeout") (mksession (Some true))
           [("", initial_widgets); ("x", initial_widgets)]
  = mksession (Some true) /\
  exists pg, script (SecretsFile []) (NotLoaded "timeout")
                 (sessions (SecretsFile []) (NotLoaded "timeout") (mksession (Some true))
                    [("", initial_widgets); ("x", initial_widgets)])
                 "y" initial_widgets
             = (mksession (Some true), Return pg) /\
             forall shown, pg <> LoginPage shown.
Proof.
  split; [reflexivity|].
  exact (access_is_kept (SecretsFile []) (NotLoaded "timeout") (mksession (Some true))
           [("", initial_widgets); ("x", initial_widgets)] "y" initial_widgets eq_refl).
Defined.

(** X3.  The right password opens the session in two runs: the run in which it
    is typed sets [password_correct] and asks for a rerun without showing
    anything but the login form, and the rerun shows no login page.  With a
    secrets file, the right password is the text under GENERAL / APP_PASSWORD,
    and [salud2025] when the file has no GENERAL table or the table has no
    such key.  Without a secrets file no text opens the session: whatever is
    typed, the reading of the secrets raises, and the session stays closed. *)
Theorem right_password_opens
  (keys : list (string * secret)) (loaded : load_result) (session : session_state)
  (p : string) (w : widgets) :
  password_correct session <> Some true ->
  p <> "" ->
  (lookup "GENERAL" keys = None /\ p = "salud2025"
   \/ exists general,
        lookup "GENERAL" keys = Some (Table general) /\
        (lookup "APP_PASSWORD" general = Some (TomlStr p)
         \/ lookup "APP_PASSWORD" general = None /\ p = "salud2025")) ->
  (check_password (SecretsFile keys) session p
   = (mksession (Some true), [login_title; login_input], Rerun) /\
   script (SecretsFile keys) loaded session p w = (mksession (Some true), Rerun) /\
   exists pg, script (SecretsFile keys) loaded (mksession (Some true)) p w
              = (mksession (Some true), Return pg) /\
              forall shown, pg <> LoginPage shown) /\
  forall typed,
    typed <> "" ->
    check_password NoSecretsFile session typed
    = (mksession (Some false), [login_title; login_input],
       Raise StreamlitSecretNotFoundError) /\
    script NoSecretsFile loaded session typed w
    = (mksession (Some false), Raise StreamlitSecretNotFoundError).
Proof.
  intros N P S. split.
  - assert (E : secret_pwd (SecretsFile keys) = inl (TomlStr p)).
    { unfold secret_pwd.
      destruct S as [[-> ->]|(general & -> & [->|[-> ->]])]; reflexivity. }
    assert (C : check_password (SecretsFile keys) session p
                = (mksession (Some true), [login_title; login_input], Rerun)).
    { unfold check_password.
      apply truthy_nonempty in P.
      destruct session as [pc]; destruct pc as [[|]|]; cbn [password_correct] in *;
        [now elim N | |]; rewrite P, E; cbn [same_text]; now rewrite String.eqb_refl. }
    split; [exact C|]. split.
    + unfold script. now rewrite C.
    + destruct (script_with_access (SecretsFile keys) loaded (mksession (Some true))
                  eq_refl p w) as (pg & A & B).
      now exists pg.
  - intros typed T. apply truthy_nonempty in T.
    assert (C : check_password NoSecretsFile session typed
                = (mksession (Some false), [login_title; login_input],
                   Raise StreamlitSecretNotFoundError)).
    { unfold check_password.
      destruct session as [pc]; destruct pc as [[|]|]; cbn [password_correct] in *;
        [now elim N | |]; now rewrite T. }
    split; [exact C|]. unfold script. now rewrite C.
Qed.

Lemma right_password_opens_witness :
  password_correct (mksession None) <> Some true /\
  "clave" <> "" /\
  (check_password (SecretsFile [("GENERAL", Table [("APP_PASSWORD", TomlStr "clave")])])
                  (mksession None) "clave"
   = (mksession (Some true), [login_title; login_input], Rerun) /\
   script (SecretsFile [("GENERAL", Table [("APP_PASSWORD", TomlStr "clave")])])
       (NotLoaded "timeout") (mksession None) "clave" initial_widgets
   = (mksession (Some true), Rerun) /\
   exists pg, script (SecretsFile [("GENERAL", Table [("APP_PASSWORD", TomlStr "clave")])])
                  (NotLoaded "timeout") (mksession (Some true)) "clave" initial_widgets
              = (mksession (Some true), Return pg) /\
              forall shown, pg <> LoginPage shown) /\
  forall typed,
    typed <> "" ->
    check_password NoSecretsFile (mksession None) typed
    = (mksession (Some false), [login_title; login_input],
       Raise StreamlitSecretNotFoundError) /\
    script NoSecretsFile (NotLoaded "timeout") (mksession None) typed initial_widgets
    = (mksession (Some false), Raise StreamlitSecretNotFoundError).
Proof.
  assert (A : password_correct (mksession None) <> Some true) by discriminate.
  assert (B : "clave" <> "") by discriminate.
  split; [exact A|]. split; [exact B|].
  apply (right_password_opens [("GENERAL", Table [("APP_PASSWORD", TomlStr "clave")])]
           (NotLoaded "timeout") (mksession None) "clave" initial_widgets A B).
  right. exists [("APP_PASSWORD", TomlStr "clave")]. split; [reflexivity|]. now left.
Defined.

(** ** The filters read on the fields of a record *)

Lemma no_wildcard_salud : no_wildcard "salud" = true.
Proof. reflexivity. Qed.

Lemma no_wildcard_medico : no_wildcard "médico" = true.
Proof. reflexivity. Qed.

Lemma holds_health (r : row) :
  Engine.holds
    (EOr (ELike (ELower (ECol "RubroN1")) (EStr "%salud%"))
         (ELike (ELower (ECol "RubroN1")) (EStr "%médico%"))) r
  = in_health_sector r.
Proof.
  unfold Engine.holds, in_health_sector. cbn [Engine.eval].
  change (Engine.column "RubroN1" r) with (Some (Engine.text (RubroN1 (raw r)))).
  destruct (RubroN1 (raw r)) as [s|]; cbn [Engine.text Engine.or3]; [|reflexivity].
  rewrite <- (like_contains "salud" _ no_wildcard_salud).
  rewrite <- (like_contains "médico" _ no_wildcard_medico).
  change ("%" ++ "salud" ++ "%")%string with "%salud%".
  change ("%" ++ "médico" ++ "%")%string with "%médico%".
  destruct (Text.like "%salud%" (Text.lower s)), (Text.like "%médico%" (Text.lower s));
    reflexivity.
Qed.

Lemma holds_equal (col : string) (field : csv_row -> option string) (c : string) (r : row) :
  Engine.column col r = Some (Engine.text (field (raw r))) ->
  Engine.holds (ECmp OpEq (ECol col) (EStr c)) r
  = match field (raw r) with Some s => String.eqb s c | None => false end.
Proof.
  intros H. unfold Engine.holds. cbn [Engine.eval]. rewrite H.
  destruct (field (raw r)) as [s|]; cbn; [|reflexivity].
  now destruct (String.eqb s c).
Qed.

Lemma holds_search (term : string) (r : row) :
  Engine.holds
    (EOr (ELike (ELower (ECol "Proveedor")) (EStr ("%" ++ Text.lower term ++ "%")%string))
         (ELike (ECol "ProveedorRUT") (EStr ("%" ++ term ++ "%")%string))) r
  = found term r.
Proof.
  unfold Engine.holds, found. cbn [Engine.eval].
  change (Engine.column "Proveedor" r) with (Some (Engine.text (Proveedor (raw r)))).
  change (Engine.column "ProveedorRUT" r) with (Some (Engine.text (ProveedorRUT (raw r)))).
  destruct (Proveedor (raw r)) as [name|], (ProveedorRUT (raw r)) as [rut|];
    cbn [Engine.text Engine.or3];
    repeat match goal with
           | |- context [Text.like ?a ?b] => destruct (Text.like a b)
           end; reflexivity.
Qed.

Lemma holds_clauses (f : filters) (r : row) :
  plain f ->
  forallb (fun e => Engine.holds e r) (clause_exprs f) = row_passes f r.
Proof.
  intros (H1 & H2 & _). unfold clause_exprs, row_passes.
  rewrite !forallb_app.
  assert (A : forallb (fun e => Engine.holds e r)
                (if solo_salud f
                 then [EOr (ELike (ELower (ECol "RubroN1")) (EStr "%salud%"))
                           (ELike (ELower (ECol "RubroN1")) (EStr "%médico%"))]
                 else [])
              = negb (solo_salud f) || in_health_sector r).
  { destruct (solo_salud f); [|reflexivity].
    cbn [forallb negb orb]. now rewrite holds_health, andb_true_r. }
  assert (B : forallb (fun e => Engine.holds e r)
                [ECmp OpGe (ECol "FechaEnvioOC_parsed") (EDate (Date.str (fecha_inicio f)))]
              && forallb (fun e => Engine.holds e r)
                   [ECmp OpLe (ECol "FechaEnvioOC_parsed") (EDate (Date.str (fecha_fin f)))]
              = in_period (fecha_inicio f) (fecha_fin f) r).
  { cbn [forallb]. rewrite !andb_true_r.
    change (ECmp OpGe (ECol "FechaEnvioOC_parsed") (EDate (Date.str (fecha_inicio f))))
      with (date_from (fecha_inicio f)).
    change (ECmp OpLe (ECol "FechaEnvioOC_parsed") (EDate (Date.str (fecha_fin f))))
      with (date_to (fecha_fin f)).
    rewrite (holds_date_from _ r H1), (holds_date_to _ r H2). unfold in_period.
    now destruct (FechaEnvioOC_parsed r). }
  assert (C : forall col field c,
              Engine.column col r = Some (Engine.text (field (raw r))) ->
              forallb (fun e => Engine.holds e r)
                (if negb (String.eqb c "Todas") then [ECmp OpEq (ECol col) (EStr c)] else [])
              = chosen c (field (raw r))).
  { intros col field c E. unfold chosen.
    destruct (String.eqb c "Todas"); [reflexivity|].
    cbn [negb forallb orb]. now rewrite (holds_equal col field c r E), andb_true_r. }
  assert (D : forallb (fun e => Engine.holds e r)
                (if truthy (search_term f)
                 then [EOr (ELike (ELower (ECol "Proveedor"))
                                  (EStr ("%" ++ Text.lower (search_term f) ++ "%")%string))
                           (ELike (ECol "ProveedorRUT")
                                  (EStr ("%" ++ search_term f ++ "%")%string))]
                 else [])
              = negb (truthy (search_term f)) || found (search_term f) r).
  { destruct (truthy (search_term f)); [|reflexivity].
    cbn [forallb negb orb]. now rewrite holds_search, andb_true_r. }
  rewrite A, D.
  rewrite (C "RegionProveedor" RegionProveedor _ eq_refl).
  rewrite (C "RegionUnidadCompra" RegionUnidadCompra _ eq_refl).
  rewrite (C "ONUProducto" ONUProducto _ eq_refl).
  rewrite <- B. rewrite !andb_assoc. reflexivity.
Qed.

(** X4.  What the WHERE clause tests.  For filter texts without a single
    quote, the clause that [where_clauses] builds is true on a row exactly
    when the row passes each of the tests that are switched on: the sector
    text holds salud or médico in whatever letter case, the parsed send date
    lies in the period (both ends included), each of the three fields is the
    text chosen in its list, and the search pattern matches the supplier name
    in small letters or the tax id as it stands.  A test on a field that is
    NULL fails.  The texts that are folded to small letters (the search term,
    the sector and the supplier name of the row) are taken in the Latin-1
    range, and the search term without [_]. *)
Theorem where_clause_tests_the_fields (f : filters) (r : row) :
  plain f ->
  Text.latin1 (search_term f) = true ->
  no_underscore (search_term f) = true ->
  latin1_field (RubroN1 (raw r)) = true ->
  latin1_field (Proveedor (raw r)) = true ->
  passes f r = row_passes f r.
Proof.
  intros H _ _ _ _. now rewrite (passes_plain f r H), holds_predicate, (holds_clauses f r H).
Qed.

Lemma where_clause_tests_the_fields_witness :
  plain (with_search "sur") /\
  Text.latin1 (search_term (with_search "sur")) = true /\
  no_underscore (search_term (with_search "sur")) = true /\
  latin1_field (RubroN1 (raw (mkrow rec_farmacia (Some (mkdate 2025 4 10))))) = true /\
  latin1_field (Proveedor (raw (mkrow rec_farmacia (Some (mkdate 2025 4 10))))) = true /\
  passes (with_search "sur") (mkrow rec_farmacia (Some (mkdate 2025 4 10)))
  = row_passes (with_search "sur") (mkrow rec_farmacia (Some (mkdate 2025 4 10))) /\
  row_passes (with_search "sur") (mkrow rec_farmacia (Some (mkdate 2025 4 10))) = true.
Proof.
  assert (A : plain (with_search "sur")) by (repeat split; simpl; lia).
  split; [exact A|]. do 4 (split; [reflexivity|]).
  split; [|reflexivity].
  exact (where_clause_tests_the_fields (with_search "sur")
           (mkrow rec_farmacia (Some (mkdate 2025 4 10))) A eq_refl eq_refl eq_refl eq_refl).
Defined.

Lemma released_plain_chosen (c c' : string) (field : option string) :
  c' = "Todas" \/ c' = c -> chosen c field = true -> chosen c' field = true.
Proof. intros [->| ->] H; [reflexivity | exact H]. Qed.

Lemma row_passes_released (f g : filters) (r : row) :
  released f g -> row_passes f r = true -> row_passes g r = true.
Proof.
  intros (S & D1 & D2 & R1 & R2 & R3 & R4). unfold row_passes. intros H.
  repeat (apply andb_prop in H; destruct H as [H ?]).
  repeat (apply andb_true_intro; split).
  - destruct (solo_salud g); [|reflexivity].
    rewrite (S eq_refl) in H. exact H.
  - unfold in_period in *. destruct (FechaEnvioOC_parsed r) as [d|]; [|discriminate].
    match goal with
    | P : _ && _ = true |- _ => apply andb_prop in P; destruct P as [P1 P2]
    end.
    apply andb_true_intro. split; eapply leb_trans; eassumption.
  - eapply released_plain_chosen; eassumption.
  - eapply released_plain_chosen; eassumption.
  - eapply released_plain_chosen; eassumption.
  - destruct R4 as [->| ->]; [reflexivity | assumption].
Qed.

(** X5.  A filter only narrows.  When [g] is [f] with some filters released
    (the health flag off, a list back at 'Todas', the search box emptied, the
    period widened), every row that passes [f] passes [g], and the order count
    of the KPI cards under [f] is at most the one under [g]. *)
Theorem releasing_a_filter_keeps_the_rows
  (f g : filters) (position : nat) (file : list csv_row) :
  plain f -> plain g -> released f g ->
  let db := load_data file in
  (forall r, passes f r = true -> passes g r = true) /\
  exists d d',
    render f (slider_value position) db = Returned d /\
    render g (slider_value position) db = Returned d' /\
    (Frame.int_of (kpi_value d "total_ordenes")
     <= Frame.int_of (kpi_value d' "total_ordenes"))%Z.
Proof.
  intros Hf Hg R db.
  assert (P : forall r, passes f r = true -> passes g r = true).
  { intros r.
    rewrite (passes_plain f r Hf), (passes_plain g r Hg), !holds_predicate,
      (holds_clauses f r Hf), (holds_clauses g r Hg).
    now apply row_passes_released. }
  split; [exact P|].
  exists (run_of f (slider_value position) db), (run_of g (slider_value position) db).
  split; [now apply render_plain|]. split; [now apply render_plain|].
  unfold kpi_value, run_of. cbn [Frame.index_of String.eqb Ascii.eqb Bool.eqb kpis nth
                                  option_map].
  cbn. rewrite (kept_passes f db Hf), (kept_passes g db Hg).
  apply inj_le. clear -P. induction db as [|r db IH]; [apply Nat.le_refl|].
  simpl. destruct (passes f r) eqn:E.
  - rewrite (P r E). simpl. lia.
  - destruct (passes g r); simpl; lia.
Qed.

Lemma releasing_a_filter_keeps_the_rows_witness :
  plain (with_region "Maule") /\ plain default_filters /\
  released (with_region "Maule") default_filters /\
  (forall r, passes (with_region "Maule") r = true -> passes default_filters r = true) /\
  exists d d',
    render (with_region "Maule") (slider_value 9) (load_data [rec_clinica; rec_farmacia])
    = Returned d /\
    render default_filters (slider_value 9) (load_data [rec_clinica; rec_farmacia])
    = Returned d' /\
    (Frame.int_of (kpi_value d "total_ordenes")
     <= Frame.int_of (kpi_value d' "total_ordenes"))%Z.
Proof.
  assert (A : plain (with_region "Maule")) by (repeat split; simpl; lia).
  assert (B : released (with_region "Maule") default_filters).
  { repeat split; try reflexivity; auto. }
  split; [exact A|]. split; [exact plain_default|]. split; [exact B|].
  exact (releasing_a_filter_keeps_the_rows (with_region "Maule") default_filters 9
           [rec_clinica; rec_farmacia] A plain_default B).
Defined.

Lemma found_literal (term : string) (r : row) :
  no_wildcard term = true -> found term r = literal_match term r.
Proof.
  intros H. unfold found, literal_match.
  destruct (Proveedor (raw r)) as [name|], (ProveedorRUT (raw r)) as [rut|];
    rewrite ?(like_contains _ _ (lower_no_wildcard _ H)), ?(like_contains _ _ H);
    reflexivity.
Qed.

(** X6.  The search box on a term without quote, [%] and [_].  The rows that
    pass are the rows that pass the other filters and whose supplier name
    holds the term, letter case aside, or whose tax id holds the term as it is
    typed: the match on the tax id minds the letter case, and a record without
    name and without tax id is never found.  The term and the supplier name
    are taken in the Latin-1 range, where letter case is what [Text.lower]
    folds. *)
Theorem search_is_a_substring_match (f : filters) (r : row) :
  plain f -> search_term f <> "" -> no_wildcard (search_term f) = true ->
  Text.latin1 (search_term f) = true ->
  latin1_field (Proveedor (raw r)) = true ->
  passes f r
  = passes (mkfilters (solo_salud f) (fecha_inicio f) (fecha_fin f) (region_proveedor f)
              (region_compra f) (especialidad_selected f) "") r
    && (match Proveedor (raw r) with
        | Some name => Text.contains (Text.lower (search_term f)) (Text.lower name)
        | None => false
        end
        || match ProveedorRUT (raw r) with
           | Some rut => Text.contains (search_term f) rut
           | None => false
           end).
Proof.
  intros H T W _ _.
  assert (H' : plain (mkfilters (solo_salud f) (fecha_inicio f) (fecha_fin f)
                        (region_proveedor f) (region_compra f) (especialidad_selected f) "")).
  { destruct H as (H1 & H2 & H3 & H4 & H5 & _).
    split; [exact H1|]. split; [exact H2|]. split; [exact H3|]. split; [exact H4|].
    split; [exact H5 | reflexivity]. }
  rewrite (passes_plain f r H), (passes_plain _ r H'), !holds_predicate,
    (holds_clauses f r H), (holds_clauses _ r H').
  unfold row_passes. cbn [solo_salud fecha_inicio fecha_fin region_proveedor region_compra
                          especialidad_selected search_term truthy negb orb].
  apply truthy_nonempty in T. rewrite T. cbn [negb orb].
  rewrite (found_literal _ r W), andb_true_r. reflexivity.
Qed.

Lemma search_is_a_substring_match_witness :
  plain (with_search "NORTE") /\ search_term (with_search "NORTE") <> "" /\
  no_wildcard (search_term (with_search "NORTE")) = true /\
  Text.latin1 (search_term (with_search "NORTE")) = true /\
  latin1_field (Proveedor (raw (mkrow rec_clinica (Some (mkdate 2025 3 10))))) = true /\
  passes (with_search "NORTE") (mkrow rec_clinica (Some (mkdate 2025 3 10))) = true.
Proof.
  assert (A : plain (with_search "NORTE")) by (repeat split; simpl; lia).
  assert (B : search_term (with_search "NORTE") <> "") by discriminate.
  assert (C : no_wildcard (search_term (with_search "NORTE")) = true) by reflexivity.
  split; [exact A|]. split; [exact B|]. split; [exact C|].
  split; [reflexivity|]. split; [reflexivity|].
  rewrite (search_is_a_substring_match (with_search "NORTE")
             (mkrow rec_clinica (Some (mkdate 2025 3 10))) A B C eq_refl eq_refl).
  reflexivity.
Defined.

(** ** Groups and order, in full *)

Lemma date_eqb_eq (a b : date) : Date.eqb a b = true <-> a = b.
Proof.
  unfold Date.eqb. destruct a as [y m d], b as [y' m' d']. cbn [year month day].
  rewrite !andb_true_iff, !Nat.eqb_eq. split.
  - intros [[-> ->] ->]. reflexivity.
  - intros E. inversion E. auto.
Qed.

Lemma value_eqb_sym (a b : value) : Engine.value_eqb a b = Engine.value_eqb b a.
Proof.
  destruct a as [|x|x|x|x|x], b as [|y|y|y|y|y]; simpl; try reflexivity.
  - now destruct x, y.
  - apply Z.eqb_sym.
  - destruct (Qeq_bool x y) eqn:E, (Qeq_bool y x) eqn:E'; try reflexivity.
    + apply Qeq_bool_iff in E. symmetry in E. apply Qeq_bool_iff in E. congruence.
    + apply Qeq_bool_iff in E'. symmetry in E'. apply Qeq_bool_iff in E'. congruence.
  - apply String.eqb_sym.
  - destruct (Date.eqb x y) eqn:E, (Date.eqb y x) eqn:E'; try reflexivity.
    + apply date_eqb_eq in E. subst. rewrite (proj2 (date_eqb_eq y y) eq_refl) in E'.
      discriminate.
    + apply date_eqb_eq in E'. subst. rewrite (proj2 (date_eqb_eq x x) eq_refl) in E.
      discriminate.
Qed.

Lemma value_eqb_trans (a b c : value) :
  Engine.value_eqb a b = true -> Engine.value_eqb b c = true -> Engine.value_eqb a c = true.
Proof.
  destruct a as [|x|x|x|x|x], b as [|y|y|y|y|y]; simpl; try discriminate;
    destruct c as [|z|z|z|z|z]; simpl; try discriminate; try reflexivity.
  - destruct x, y, z; simpl; congruence.
  - rewrite !Z.eqb_eq. congruence.
  - rewrite !Qeq_bool_iff. intros E1 E2. now rewrite E1.
  - rewrite !String.eqb_eq. congruence.
  - rewrite !date_eqb_eq. congruence.
Qed.

Lemma filter_none {A : Type} (p : A -> bool) (l : list A) :
  (forall x, In x l -> p x = false) -> filter p l = [].
Proof.
  induction l as [|x l IH]; intros H; [reflexivity|].
  simpl. rewrite (H x (or_introl eq_refl)). apply IH. intros y Hy. apply H. now right.
Qed.

Section GroupsInFull.
Context (key : row -> value).

Lemma add_to_group_keys (k : value) (r : row) (gs : list (value * list row))
      (k' : value) (g' : list row) :
  In (k', g') (Engine.add_to_group k r gs) -> (exists g, In (k', g) gs) \/ k' = k.
Proof.
  induction gs as [|[k1 g1] gs IH]; simpl.
  - intros [E|[]]. inversion E. now right.
  - destruct (Engine.value_eqb k k1).
    + intros [E|H].
      * inversion E; subst. left. exists g1. now left.
      * left. exists g'. now right.
    + intros [E|H].
      * inversion E; subst. left. exists g'. now left.
      * destruct (IH H) as [[g Hg]| ->]; [left; exists g; now right | now right].
Qed.

Lemma add_to_group_apart (r : row) (gs : list (value * list row)) :
  ordered apart gs -> ordered apart (Engine.add_to_group (key r) r gs).
Proof.
  induction gs as [|[k1 g1] gs IH]; intros H.
  - simpl. split; [constructor | exact I].
  - destruct H as [H1 H2]. simpl.
    destruct (Engine.value_eqb (key r) k1) eqn:E.
    + split; [|exact H2]. exact H1.
    + split; [|now apply IH].
      apply Forall_forall. intros [k' g'] Hin. unfold apart. cbn [fst].
      destruct (add_to_group_keys _ _ _ _ _ Hin) as [[g Hg]| ->].
      * rewrite Forall_forall in H1. exact (H1 _ Hg).
      * now rewrite value_eqb_sym.
Qed.

Lemma add_to_group_exact (prefix : list row) (r : row) (gs : list (value * list row)) :
  ordered apart gs ->
  (forall k g, In (k, g) gs -> g = filter (same_key key k) prefix /\ g <> []) ->
  (forall x, In x prefix -> Engine.value_eqb (key x) (key r) = true -> has_key (key r) gs) ->
  forall k g, In (k, g) (Engine.add_to_group (key r) r gs) ->
              g = filter (same_key key k) (prefix ++ [r]) /\ g <> [].
Proof.
  induction gs as [|[k1 g1] gs IH]; intros Hap Hex Hcov k g Hin.
  - simpl in Hin. destruct Hin as [E|[]]. inversion E; subst.
    split; [|discriminate].
    rewrite filter_app. cbn [filter]. unfold same_key at 2. rewrite value_eqb_refl.
    rewrite filter_none; [reflexivity|].
    intros x Hx. unfold same_key. destruct (Engine.value_eqb (key x) (key r)) eqn:E'; auto.
    destruct (Hcov x Hx E') as (k' & g' & [] & _).
  - destruct Hap as [H1 H2]. simpl in Hin.
    destruct (Engine.value_eqb (key r) k1) eqn:E.
    + destruct Hin as [E'|Hin].
      * inversion E'; subst.
        destruct (Hex k g1 (or_introl eq_refl)) as [Hg Hn].
        split; [|now destruct g1].
        rewrite filter_app. cbn [filter]. unfold same_key at 2. rewrite E. now rewrite <- Hg.
      * destruct (Hex k g (or_intror Hin)) as [Hg Hn]. split; [|exact Hn].
        rewrite filter_app. cbn [filter]. unfold same_key at 2.
        assert (F : Engine.value_eqb (key r) k = false).
        { rewrite Forall_forall in H1. specialize (H1 _ Hin). unfold apart in H1.
          cbn [fst] in H1. destruct (Engine.value_eqb (key r) k) eqn:E''; auto.
          rewrite value_eqb_sym in E. rewrite (value_eqb_trans _ _ _ E E'') in H1.
          discriminate. }
        rewrite F, app_nil_r. exact Hg.
    + destruct Hin as [E'|Hin].
      * inversion E'; subst.
        destruct (Hex k g (or_introl eq_refl)) as [Hg Hn]. split; [|exact Hn].
        rewrite filter_app. cbn [filter]. unfold same_key at 2. rewrite E, app_nil_r.
        exact Hg.
      * apply (IH H2); [| |exact Hin].
        -- intros k' g' H'. apply Hex. now right.
        -- intros x Hx Ex. destruct (Hcov x Hx Ex) as (k' & g' & [E'|H'] & Ek).
           ++ inversion E'; subst. congruence.
           ++ now exists k', g'.
Qed.

Lemma group_rows_invariant (rs prefix : list row) (gs : list (value * list row)) :
  ordered apart gs ->
  (forall k g, In (k, g) gs -> g = filter (same_key key k) prefix /\ g <> []) ->
  (forall x, In x prefix -> has_key (key x) gs) ->
  let gs' := fold_left (fun gs r => Engine.add_to_group (key r) r gs) rs gs in
  ordered apart gs' /\
  (forall k g, In (k, g) gs' -> g = filter (same_key key k) (prefix ++ rs) /\ g <> []).
Proof.
  revert prefix gs. induction rs as [|r rs IH]; intros prefix gs Hap Hex Hcov.
  - simpl. rewrite app_nil_r. now split.
  - cbn [fold_left]. cbv zeta.
    replace (prefix ++ r :: rs) with ((prefix ++ [r]) ++ rs) by now rewrite <- app_assoc.
    apply IH.
    + now apply add_to_group_apart.
    + apply add_to_group_exact; try assumption.
      intros x Hx Ex. destruct (Hcov x Hx) as (k' & g' & Hin & Ek).
      exists k', g'. split; [exact Hin|].
      rewrite value_eqb_sym in Ex. exact (value_eqb_trans _ _ _ Ex Ek).
    + intros x Hx. apply in_app_or in Hx. destruct Hx as [Hx|[<-|[]]].
      * apply add_to_group_keeps. now apply Hcov.
      * apply add_to_group_has.
Qed.

(** The groups of GROUP BY: pairwise different keys, and under each key
    all the rows with that key, in the order of the table. *)
Lemma group_rows_exact (rs : list row) :
  ordered apart (Engine.group_rows key rs) /\
  forall k g, In (k, g) (Engine.group_rows key rs) ->
              g = filter (same_key key k) rs /\ g <> [].
Proof.
  unfold Engine.group_rows.
  apply (group_rows_invariant rs [] []).
  - exact I.
  - intros k g [].
  - intros x [].
Qed.

End GroupsInFull.

Section OrderedFacts.
Context {A : Type} (R : A -> A -> Prop).

Lemma ordered_app (l1 l2 : list A) :
  ordered R (l1 ++ l2) ->
  ordered R l1 /\ ordered R l2 /\ forall x y, In x l1 -> In y l2 -> R x y.
Proof.
  induction l1 as [|a l1 IH]; simpl.
  - intros H. repeat split; [exact H | intros x y []].
  - intros [H1 H2]. destruct (IH H2) as (I1 & I2 & I3).
    apply Forall_app in H1. destruct H1 as [F1 F2].
    repeat split; try assumption.
    intros x y [<-|Hx] Hy.
    + rewrite Forall_forall in F2. now apply F2.
    + now apply I3.
Qed.

Lemma ordered_firstn (n : nat) (l : list A) : ordered R l -> ordered R (firstn n l).
Proof.
  intros H. rewrite <- (firstn_skipn n l) in H. now apply ordered_app in H.
Qed.

End OrderedFacts.

Lemma ordered_map {A B : Type} (R : A -> A -> Prop) (R' : B -> B -> Prop) (f : A -> B)
      (l : list A) :
  (forall x y, In x l -> In y l -> R x y -> R' (f x) (f y)) ->
  ordered R l -> ordered R' (map f l).
Proof.
  induction l as [|a l IH]; intros H; simpl; [auto|].
  intros [H1 H2]. split.
  - apply Forall_map. rewrite Forall_forall in *. intros y Hy.
    apply H; [now left | now right | now apply H1].
  - apply IH; [|exact H2]. intros x y Hx Hy. apply H; now right.
Qed.

(** The result of ORDER BY is in order, when the keys are of one kind [P]
    on which the order is total and transitive. *)
Section SortInOrder.
Context {A : Type} (key : A -> value) (desc : bool) (P : value -> Prop).
Hypothesis total : forall a b, P a -> P b ->
  Engine.before desc a b = false -> Engine.before desc b a = true.
Hypothesis trans : forall a b c, P a -> P b -> P c ->
  Engine.before desc a b = true -> Engine.before desc b c = true ->
  Engine.before desc a c = true.

Lemma insert_ordered (x : A) (l : list A) :
  P (key x) -> Forall (fun y => P (key y)) l ->
  ordered (in_order key desc) l -> ordered (in_order key desc) (Engine.insert key desc x l).
Proof.
  intros Px. induction l as [|y l IH]; intros Pl H.
  - simpl. split; [constructor | exact I].
  - inversion Pl as [|? ? Py Pl']; subst. destruct H as [H1 H2]. simpl.
    destruct (Engine.before desc (key x) (key y)) eqn:E.
    + split; [|split; assumption].
      constructor; [exact E|].
      rewrite Forall_forall in *. intros z Hz.
      exact (trans _ _ _ Px Py (Pl' z Hz) E (H1 z Hz)).
    + split; [|now apply IH].
      rewrite Forall_forall in *. intros z Hz.
      apply (Permutation_in _ (insert_perm key desc x l)) in Hz.
      destruct Hz as [<-|Hz]; [now apply total | now apply H1].
Qed.

Lemma sort_ordered (l : list A) :
  Forall (fun y => P (key y)) l -> ordered (in_order key desc) (Engine.sort key desc l).
Proof.
  induction l as [|x l IH]; intros H; [exact I|].
  inversion H as [|? ? Px Pl]; subst.
  change (Engine.sort key desc (x :: l))
    with (Engine.insert key desc x (Engine.sort key desc l)).
  apply insert_ordered; [assumption | | apply IH; exact Pl].
  rewrite Forall_forall in *. intros y Hy. apply Pl.
  exact (proj1 (sort_in key desc y l) Hy).
Qed.

End SortInOrder.

Lemma before_int_total (desc : bool) (a b : value) :
  is_int a -> is_int b ->
  Engine.before desc a b = false -> Engine.before desc b a = true.
Proof.
  intros [x ->] [y ->]. unfold Engine.before. simpl.
  destruct desc; rewrite Z.leb_gt, Z.leb_le; lia.
Qed.

Lemma before_int_trans (desc : bool) (a b c : value) :
  is_int a -> is_int b -> is_int c ->
  Engine.before desc a b = true -> Engine.before desc b c = true ->
  Engine.before desc a c = true.
Proof.
  intros [x ->] [y ->] [z ->]. unfold Engine.before. simpl.
  destruct desc; rewrite !Z.leb_le; lia.
Qed.

Lemma date_leb_total (a b : date) : Date.leb a b = false -> Date.leb b a = true.
Proof.
  unfold Date.leb. intros H.
  destruct (year a <? year b) eqn:Y; [discriminate H|]. simpl in H.
  apply Nat.ltb_ge in Y.
  destruct (year a =? year b) eqn:Y'; simpl in H.
  - apply Nat.eqb_eq in Y'.
    replace (year b <? year a) with false by (symmetry; apply Nat.ltb_ge; lia).
    replace (year b =? year a) with true by (symmetry; apply Nat.eqb_eq; lia).
    simpl.
    destruct (month a <? month b) eqn:M; [discriminate H|]. simpl in H.
    apply Nat.ltb_ge in M.
    destruct (month a =? month b) eqn:M'; simpl in H.
    + apply Nat.eqb_eq in M'. apply Nat.leb_gt in H.
      replace (month b <? month a) with false by (symmetry; apply Nat.ltb_ge; lia).
      replace (month b =? month a) with true by (symmetry; apply Nat.eqb_eq; lia).
      simpl. apply Nat.leb_le. lia.
    + apply Nat.eqb_neq in M'.
      replace (month b <? month a) with true by (symmetry; apply Nat.ltb_lt; lia).
      reflexivity.
  - apply Nat.eqb_neq in Y'.
    replace (year b <? year a) with true by (symmetry; apply Nat.ltb_lt; lia).
    reflexivity.
Qed.

Lemma before_date_total (desc : bool) (a b : value) :
  is_date a -> is_date b ->
  Engine.before desc a b = false -> Engine.before desc b a = true.
Proof.
  intros [x ->] [y ->]. unfold Engine.before. simpl.
  destruct desc; apply date_leb_total.
Qed.

Lemma before_date_trans (desc : bool) (a b c : value) :
  is_date a -> is_date b -> is_date c ->
  Engine.before desc a b = true -> Engine.before desc b c = true ->
  Engine.before desc a c = true.
Proof.
  intros [x ->] [y ->] [z ->]. unfold Engine.before. simpl.
  destruct desc; intros H1 H2; eapply leb_trans; eassumption.
Qed.

Lemma before_desc_int (x y : value) :
  is_int x -> is_int y -> Engine.before true x y = true ->
  (Frame.int_of y <= Frame.int_of x)%Z.
Proof.
  intros [a ->] [b ->]. unfold Engine.before. simpl. apply Z.leb_le.
Qed.


(** ** The rows of the grouped views *)

Lemma filter_filter {A : Type} (p q : A -> bool) (l : list A) :
  filter p (filter q l) = filter (fun x => q x && p x) l.
Proof.
  induction l as [|x l IH]; [reflexivity|].
  simpl. destruct (q x); simpl; [destruct (p x)|]; now rewrite IH.
Qed.

Lemma apart_nodup (gs : list (value * list row)) :
  ordered apart gs -> NoDup (map fst gs).
Proof.
  induction gs as [|[k g] gs IH]; intros H; [constructor|].
  destruct H as [H1 H2]. simpl. constructor; [|now apply IH].
  intros Hin. apply in_map_iff in Hin. destruct Hin as ([k' g'] & E & Hin).
  simpl in E. subst k'. rewrite Forall_forall in H1. specialize (H1 _ Hin).
  unfold apart in H1. simpl in H1. now rewrite value_eqb_refl in H1.
Qed.

(** A grouped view, sorted: its rows are, in some order, one output row per
    key value of the kept rows, computed over all the kept rows with that
    key. *)
Lemma view_rows (st : statement) (key : expr) (rs : list row) (i : nat) (desc : bool) :
  let with_key k r := Engine.value_eqb (Engine.eval key r) k in
  let rows := Engine.sort (fun r => nth i r VNull) desc (grouped_rows st key rs) in
  exists gs,
    Permutation rows (map (Exec.output_row (s_items st)) gs) /\
    Permutation (members gs) rs /\
    NoDup (map fst gs) /\
    (forall k g, In (k, g) gs -> g = filter (with_key k) rs /\ g <> []) /\
    (forall r, In r rs -> exists k, with_key k r = true /\ In (k, filter (with_key k) rs) gs).
Proof.
  intros with_key rows.
  exists (Engine.group_rows (Engine.eval key) rs).
  destruct (group_rows_exact (Engine.eval key) rs) as [Hap Hex].
  split; [apply sort_perm|].
  split; [apply group_rows_members|].
  split; [now apply apart_nodup|].
  split; [exact Hex|].
  intros r Hr. destruct (group_rows_has_key (Engine.eval key) rs r Hr) as (k & g & Hin & E).
  exists k. split; [exact E|].
  destruct (Hex k g Hin) as [Hg _].
  replace (filter (with_key k) rs) with g by exact Hg. exact Hin.
Qed.

Lemma text_eqb_eq (x : option string) (k : value) :
  Engine.value_eqb (Engine.text x) k = true -> k = Engine.text x.
Proof.
  destruct x as [s|], k as [|b|n|q|t|d]; simpl; intros H; try discriminate H;
    [apply String.eqb_eq in H; now subst | reflexivity].
Qed.

Lemma eval_region_proveedor (r : row) :
  Engine.eval (ECol "RegionProveedor") r = Engine.text (RegionProveedor (raw r)).
Proof. reflexivity. Qed.

Lemma eval_region_compra (r : row) :
  Engine.eval (ECol "RegionUnidadCompra") r = Engine.text (RegionUnidadCompra (raw r)).
Proof. reflexivity. Qed.

Lemma eval_category (r : row) :
  Engine.eval (ECol "ONUProducto") r = Engine.text (ONUProducto (raw r)).
Proof. reflexivity. Qed.

Lemma orders_with_kept (f : filters) (db : list row) (col : expr) (k : value) :
  plain f ->
  filter (fun r => Engine.value_eqb (Engine.eval col r) k) (kept (predicate f) db)
  = orders_with f db col k.
Proof. intros H. rewrite (kept_passes f db H). apply filter_filter. Qed.

(** A view ordered by a count, largest first. *)
Lemma view_descending (st : statement) (key : expr) (rs : list row) (i : nat) :
  (forall kg, is_int (nth i (Exec.output_row (s_items st) kg) VNull)) ->
  ordered (fun a b => (b <= a)%Z)
    (map Frame.int_of
       (map (fun out => nth i out VNull)
          (Engine.sort (fun r => nth i r VNull) true (grouped_rows st key rs)))).
Proof.
  intros Hi.
  assert (Int : Forall (fun y => is_int (nth i y VNull)) (grouped_rows st key rs)).
  { apply Forall_forall. intros out Hin. unfold grouped_rows in Hin.
    apply in_map_iff in Hin. destruct Hin as (kg & <- & _). apply Hi. }
  pose proof (sort_ordered (fun r => nth i r VNull) true is_int
                (before_int_total true) (before_int_trans true) _ Int) as O.
  rewrite map_map.
  apply (ordered_map (in_order (fun r => nth i r VNull) true) _ _ _
           (fun x y Hx Hy R =>
              before_desc_int _ _
                (proj1 (Forall_forall _ _) Int x (proj1 (sort_in _ _ x _) Hx))
                (proj1 (Forall_forall _ _) Int y (proj1 (sort_in _ _ y _) Hy)) R) O).
Qed.

Ltac on_run f position db H :=
  exists (run_of f (slider_value position) db);
  split; [apply render_plain; exact H|];
  unfold run_of;
  cbn [kpis regiones_activas df_esp df_monto df_tend df_adj_reg df_comp_reg
       df_esp_completo df_detalle].

(** X7.  The two region breakdowns, row by row.  For filter texts without a
    single quote, the Supplier-Region breakdown has exactly one row for each
    supplier region that occurs among the rows passing the filters, the
    missing region (NULL) being one of them; the row holds the number of
    distinct tax ids and the number of all passing rows with that region.  The
    Purchase-Region breakdown is the same on the buyer's region, with the
    number of rows and the sum of the amounts that are numbers.  The first
    comes in order of non-increasing number of tax ids, the second in order of
    non-increasing number of rows.  The amounts of the file are whole numbers
    of pesos or no numbers at all ([exact_amounts]), so that the sums are
    exact. *)
Theorem region_breakdowns_row_by_row (f : filters) (position : nat) (file : list csv_row) :
  plain f ->
  exact_amounts file ->
  let db := load_data file in
  exists d,
    render f (slider_value position) db = Returned d /\
    (forall out, In out (t_rows (df_adj_reg d)) ->
       exists k, orders_with f db (ECol "RegionProveedor") k <> [] /\
                 out = [k; suppliers_of (orders_with f db (ECol "RegionProveedor") k);
                        count_of (orders_with f db (ECol "RegionProveedor") k)]) /\
    (forall r, In r db -> passes f r = true ->
       exists out, In out (t_rows (df_adj_reg d)) /\
                   Frame.cell (df_adj_reg d) "region" out
                   = Engine.text (RegionProveedor (raw r))) /\
    NoDup (Frame.column (df_adj_reg d) "region") /\
    ordered (fun a b => (b <= a)%Z) (ints (df_adj_reg d) "adjudicadores") /\
    (forall out, In out (t_rows (df_comp_reg d)) ->
       exists k, orders_with f db (ECol "RegionUnidadCompra") k <> [] /\
                 out = [k; count_of (orders_with f db (ECol "RegionUnidadCompra") k);
                        amount_sum (orders_with f db (ECol "RegionUnidadCompra") k)]) /\
    (forall r, In r db -> passes f r = true ->
       exists out, In out (t_rows (df_comp_reg d)) /\
                   Frame.cell (df_comp_reg d) "region" out
                   = Engine.text (RegionUnidadCompra (raw r))) /\
    NoDup (Frame.column (df_comp_reg d) "region") /\
    ordered (fun a b => (b <= a)%Z) (ints (df_comp_reg d) "ordenes").
Proof.
  intros H _ db. on_run f position db H.
  destruct (view_rows (Stmt.adj_region (predicate f)) (ECol "RegionProveedor")
              (kept (predicate f) db) 1 true) as (gs & P & _ & N & Ex & Cov).
  destruct (view_rows (Stmt.compras_region (predicate f)) (ECol "RegionUnidadCompra")
              (kept (predicate f) db) 1 true) as (gs' & P' & _ & N' & Ex' & Cov').
  cbn [t_rows].
  split; [|split; [|split; [|split; [|split; [|split; [|split]]]]]].
  - intros out Hin. apply (Permutation_in _ P) in Hin. apply in_map_iff in Hin.
    destruct Hin as ([k g] & E & Hin). destruct (Ex k g Hin) as [Hg Hn].
    rewrite (orders_with_kept f db _ k H) in Hg. subst g. exists k. split; [exact Hn|].
    now rewrite <- E.
  - intros r Hr Hp.
    assert (K : In r (kept (predicate f) db)).
    { apply in_kept. split; [exact Hr|]. now rewrite <- (passes_plain f r H). }
    destruct (Cov r K) as (k & E & Hin).
    rewrite eval_region_proveedor in E. apply text_eqb_eq in E.
    eexists. split.
    + apply (Permutation_in _ (Permutation_sym P)). apply in_map_iff.
      eexists. split; [reflexivity | exact Hin].
    + now rewrite <- E.
  - unfold Frame.column. cbn [t_rows].
    apply (Permutation_NoDup (Permutation_sym (Permutation_map _ P))).
    rewrite map_map. exact N.
  - apply (view_descending (Stmt.adj_region (predicate f)) (ECol "RegionProveedor") _ 1).
    intros [k g]. now eexists.
  - intros out Hin. apply (Permutation_in _ P') in Hin. apply in_map_iff in Hin.
    destruct Hin as ([k g] & E & Hin). destruct (Ex' k g Hin) as [Hg Hn].
    rewrite (orders_with_kept f db _ k H) in Hg. subst g. exists k. split; [exact Hn|].
    rewrite <- E. unfold Exec.output_row. cbn. now rewrite sum_parseable.
  - intros r Hr Hp.
    assert (K : In r (kept (predicate f) db)).
    { apply in_kept. split; [exact Hr|]. now rewrite <- (passes_plain f r H). }
    destruct (Cov' r K) as (k & E & Hin).
    rewrite eval_region_compra in E. apply text_eqb_eq in E.
    eexists. split.
    + apply (Permutation_in _ (Permutation_sym P')). apply in_map_iff.
      eexists. split; [reflexivity | exact Hin].
    + now rewrite <- E.
  - unfold Frame.column. cbn [t_rows].
    apply (Permutation_NoDup (Permutation_sym (Permutation_map _ P'))).
    rewrite map_map. exact N'.
  - apply (view_descending (Stmt.compras_region (predicate f)) (ECol "RegionUnidadCompra")
             _ 1).
    intros [k g]. now eexists.
Qed.

Lemma region_breakdowns_row_by_row_witness :
  plain default_filters /\
  exact_amounts [rec_clinica; rec_farmacia] /\
  let db := load_data [rec_clinica; rec_farmacia] in
  exists d,
    render default_filters (slider_value 9) db = Returned d /\
    (forall out, In out (t_rows (df_adj_reg d)) ->
       exists k, orders_with default_filters db (ECol "RegionProveedor") k <> [] /\
                 out = [k; suppliers_of (orders_with default_filters db
                                           (ECol "RegionProveedor") k);
                        count_of (orders_with default_filters db
                                    (ECol "RegionProveedor") k)]) /\
    (forall r, In r db -> passes default_filters r = true ->
       exists out, In out (t_rows (df_adj_reg d)) /\
                   Frame.cell (df_adj_reg d) "region" out
                   = Engine.text (RegionProveedor (raw r))) /\
    NoDup (Frame.column (df_adj_reg d) "region") /\
    ordered (fun a b => (b <= a)%Z) (ints (df_adj_reg d) "adjudicadores") /\
    (forall out, In out (t_rows (df_comp_reg d)) ->
       exists k, orders_with default_filters db (ECol "RegionUnidadCompra") k <> [] /\
                 out = [k; count_of (orders_with default_filters db
                                       (ECol "RegionUnidadCompra") k);
                        amount_sum (orders_with default_filters db
                                      (ECol "RegionUnidadCompra") k)]) /\
    (forall r, In r db -> passes default_filters r = true ->
       exists out, In out (t_rows (df_comp_reg d)) /\
                   Frame.cell (df_comp_reg d) "region" out
                   = Engine.text (RegionUnidadCompra (raw r))) /\
    NoDup (Frame.column (df_comp_reg d) "region") /\
    ordered (fun a b => (b <= a)%Z) (ints (df_comp_reg d) "ordenes").
Proof.
  split; [exact plain_default|]. split; [exact exact_amounts_sample|].
  exact (region_breakdowns_row_by_row default_filters 9 [rec_clinica; rec_farmacia]
           plain_default exact_amounts_sample).
Defined.

(** ** Counts across the views *)

Lemma sumZ_perm (a b : list Z) : Permutation a b -> Frame.sumZ a = Frame.sumZ b.
Proof.
  unfold Frame.sumZ. induction 1; simpl; lia.
Qed.

Lemma sumZ_lengths (gs : list (value * list row)) :
  Frame.sumZ (map (fun kg => Z.of_nat (List.length (snd kg))) gs)
  = Z.of_nat (List.length (members gs)).
Proof.
  unfold members, Frame.sumZ. induction gs as [|[k g] gs IH]; [reflexivity|].
  simpl. rewrite length_app, IH. lia.
Qed.

(** The order counts of a grouped view add up to the number of kept rows. *)
Lemma view_counts (st : statement) (key : expr) (rs : list row) (i j : nat) (desc : bool) :
  (forall kg, Frame.int_of (nth j (Exec.output_row (s_items st) kg) VNull)
              = Z.of_nat (List.length (snd kg))) ->
  Frame.sumZ
    (map Frame.int_of
       (map (fun out => nth j out VNull)
          (Engine.sort (fun r => nth i r VNull) desc (grouped_rows st key rs))))
  = Z.of_nat (List.length rs).
Proof.
  intros Hj.
  destruct (view_rows st key rs i desc) as (gs & P & M & _).
  rewrite (sumZ_perm _ _ (Permutation_map _ (Permutation_map _ P))).
  rewrite !map_map.
  rewrite (map_ext _ (fun kg => Z.of_nat (List.length (snd kg))) Hj).
  rewrite sumZ_lengths. now rewrite (Permutation_length M).
Qed.

(** X8.  The order counts add up.  For filter texts without a single quote,
    the order counts of the Supplier-Region breakdown, of the Purchase-Region
    breakdown and of the Monthly Trend each add up to the order count of the
    KPI cards, which is the number of rows that pass the filters: every
    passing row is counted once in each of these views, a row without a region
    included. *)
Theorem order_counts_add_up (f : filters) (position : nat) (file : list csv_row) :
  plain f ->
  let db := load_data file in
  exists d,
    render f (slider_value position) db = Returned d /\
    Frame.int_of (kpi_value d "total_ordenes")
    = Z.of_nat (List.length (filter (passes f) db)) /\
    Frame.sumZ (ints (df_adj_reg d) "ordenes") = Frame.int_of (kpi_value d "total_ordenes") /\
    Frame.sumZ (ints (df_comp_reg d) "ordenes") = Frame.int_of (kpi_value d "total_ordenes") /\
    Frame.sumZ (ints (df_tend d) "ordenes") = Frame.int_of (kpi_value d "total_ordenes").
Proof.
  intros H db. on_run f position db H.
  assert (K : Frame.int_of
                (kpi_value
                   (run_of f (slider_value position) db) "total_ordenes")
              = Z.of_nat (List.length (kept (predicate f) db))) by reflexivity.
  unfold run_of in K. rewrite K. clear K.
  split; [now rewrite (kept_passes f db H)|].
  unfold ints, Frame.column. cbn [t_rows].
  split; [|split].
  - apply (view_counts (Stmt.adj_region (predicate f)) (ECol "RegionProveedor") _ 1 2 true).
    intros [k g]. reflexivity.
  - apply (view_counts (Stmt.compras_region (predicate f)) (ECol "RegionUnidadCompra")
             _ 1 1 true).
    intros [k g]. reflexivity.
  - apply (view_counts (Stmt.tendencia (predicate f)) Stmt.month_of_date _ 0 1 false).
    intros [k g]. reflexivity.
Qed.

Lemma order_counts_add_up_witness :
  plain default_filters /\
  exists d,
    render default_filters (slider_value 9) (load_data [rec_clinica; rec_farmacia; rec_obra])
    = Returned d /\
    Frame.int_of (kpi_value d "total_ordenes")
    = Z.of_nat (List.length (filter (passes default_filters)
                               (load_data [rec_clinica; rec_farmacia; rec_obra]))) /\
    Frame.sumZ (ints (df_adj_reg d) "ordenes") = Frame.int_of (kpi_value d "total_ordenes") /\
    Frame.sumZ (ints (df_comp_reg d) "ordenes") = Frame.int_of (kpi_value d "total_ordenes") /\
    Frame.sumZ (ints (df_tend d) "ordenes") = Frame.int_of (kpi_value d "total_ordenes").
Proof.
  split; [exact plain_default|].
  exact (order_counts_add_up default_filters 9 [rec_clinica; rec_farmacia; rec_obra]
           plain_default).
Defined.

(** ** Empty views *)

Lemma is_nil_perm {A : Type} (a b : list A) : Permutation a b -> is_nil a = is_nil b.
Proof.
  intros P. destruct a, b; try reflexivity.
  - apply Permutation_nil in P. discriminate.
  - apply Permutation_sym, Permutation_nil in P. discriminate.
Qed.

Lemma is_nil_map {A B : Type} (f : A -> B) (l : list A) : is_nil (map f l) = is_nil l.
Proof. now destruct l. Qed.

Lemma is_nil_firstn {A : Type} (n : nat) (l : list A) : is_nil (firstn (S n) l) = is_nil l.
Proof. now destruct l. Qed.

Lemma is_nil_groups (gs : list (value * list row)) :
  (forall k g, In (k, g) gs -> g <> []) -> is_nil (members gs) = is_nil gs.
Proof.
  destruct gs as [|[k g] gs]; [reflexivity|]. intros H.
  destruct g; [now elim (H k [] (or_introl eq_refl)) | reflexivity].
Qed.

Lemma view_empty (st : statement) (key : expr) (rs : list row) (i : nat) (desc : bool) :
  is_nil (Engine.sort (fun r => nth i r VNull) desc (grouped_rows st key rs)) = is_nil rs.
Proof.
  destruct (view_rows st key rs i desc) as (gs & P & M & _ & Ex & _).
  rewrite (is_nil_perm _ _ P), is_nil_map, <- (is_nil_perm _ _ M).
  symmetry. apply is_nil_groups. intros k g Hin. now destruct (Ex k g Hin).
Qed.

Lemma slider_value_bounds (position : nat) :
  100 <= slider_value position <= 5000 /\ exists n, slider_value position = S n.
Proof.
  unfold slider_value. pose proof (Nat.mod_upper_bound position 50).
  split; [lia|]. exists (99 + 100 * (position mod 50)). lia.
Qed.

(** ** Derived columns of a frame *)

Lemma index_of_bound (name : string) (cols : list string) (i : nat) :
  Frame.index_of name cols = Some i -> i < List.length cols.
Proof.
  revert i. induction cols as [|c cols IH]; intros i; simpl; [discriminate|].
  destruct (String.eqb c name).
  - intros E. inversion E. lia.
  - destruct (Frame.index_of name cols) as [j|]; simpl; [|discriminate].
    intros E. inversion E. specialize (IH j eq_refl). lia.
Qed.

Lemma index_of_app (name : string) (cols more : list string) (i : nat) :
  Frame.index_of name cols = Some i -> Frame.index_of name (cols ++ more) = Some i.
Proof.
  revert i. induction cols as [|c cols IH]; intros i; simpl; [discriminate|].
  destruct (String.eqb c name); [auto|].
  destruct (Frame.index_of name cols) as [j|]; simpl; [|discriminate].
  intros E. now rewrite (IH j eq_refl).
Qed.

Lemma index_of_new (name : string) (cols : list string) :
  Frame.index_of name cols = None ->
  Frame.index_of name (cols ++ [name]) = Some (List.length cols).
Proof.
  induction cols as [|c cols IH]; simpl.
  - now rewrite String.eqb_refl.
  - destruct (String.eqb c name); [discriminate|].
    destruct (Frame.index_of name cols); simpl; [discriminate|].
    intros _. now rewrite IH.
Qed.

Lemma assign_rows (t : table) (name : string) (vals : list value) :
  List.length vals = List.length (t_rows t) ->
  List.length (t_rows (Frame.assign t name vals)) = List.length (t_rows t).
Proof.
  intros L. unfold Frame.assign. cbn [t_rows]. rewrite length_map, length_combine. lia.
Qed.

Lemma assign_well_formed (t : table) (name : string) (vals : list value) :
  well_formed t -> well_formed (Frame.assign t name vals).
Proof.
  unfold well_formed, Frame.assign. cbn [t_rows t_columns]. intros W.
  apply Forall_map. apply Forall_forall. intros [r v] Hin.
  apply in_combine_l in Hin. rewrite Forall_forall in W.
  cbn [fst snd]. rewrite !length_app, (W r Hin). reflexivity.
Qed.

Lemma assign_old_column (t : table) (name other : string) (vals : list value) (i : nat) :
  well_formed t -> List.length vals = List.length (t_rows t) ->
  Frame.index_of other (t_columns t) = Some i ->
  Frame.column (Frame.assign t name vals) other = Frame.column t other.
Proof.
  intros W L I. unfold Frame.column, Frame.cell, Frame.assign. cbn [t_rows t_columns].
  rewrite (index_of_app _ _ [name] _ I), I. rewrite map_map.
  pose proof (index_of_bound _ _ _ I) as B.
  unfold well_formed in W. revert vals L.
  induction (t_rows t) as [|r rows IH]; intros vals L; [reflexivity|].
  destruct vals as [|v vals]; [discriminate L|].
  inversion W; subst. cbn [combine map fst snd].
  rewrite app_nth1 by lia. f_equal. apply IH; [assumption|]. now inversion L.
Qed.

Lemma assign_new_column (t : table) (name : string) (vals : list value) :
  well_formed t -> List.length vals = List.length (t_rows t) ->
  Frame.index_of name (t_columns t) = None ->
  Frame.column (Frame.assign t name vals) name = vals.
Proof.
  intros W L I. unfold Frame.column, Frame.cell, Frame.assign. cbn [t_rows t_columns].
  rewrite (index_of_new _ _ I). rewrite map_map.
  unfold well_formed in W. revert vals L.
  induction (t_rows t) as [|r rows IH]; intros vals L.
  - destruct vals; [reflexivity | discriminate L].
  - destruct vals as [|v vals]; [discriminate L|].
    inversion W; subst. cbn [combine map fst snd].
    rewrite app_nth2 by lia.
    replace (List.length (t_columns t) - List.length r) with 0 by lia.
    cbn [nth]. f_equal. apply IH; [assumption|]. now inversion L.
Qed.

Lemma column_length (t : table) (name : string) :
  List.length (Frame.column t name) = List.length (t_rows t).
Proof. unfold Frame.column. apply length_map. Qed.

(** The frame of Category Detail as the statement returns it. *)
Lemma category_frame_well_formed (st : statement) (key : expr) (rs : list row) (i : nat)
      (desc : bool) (cols : list string) :
  List.length cols = List.length (s_items st) ->
  well_formed (mktable cols (Engine.sort (fun r => nth i r VNull) desc
                               (grouped_rows st key rs))).
Proof.
  intros L. unfold well_formed. cbn [t_rows t_columns].
  apply Forall_forall. intros out Hin. apply sort_in in Hin.
  unfold grouped_rows in Hin. apply in_map_iff in Hin. destruct Hin as (kg & <- & _).
  unfold Exec.output_row. now rewrite length_map.
Qed.

(** The three columns that tab 3 adds leave the columns of the statement as
    they are; the share column is computed from the order counts. *)
Lemma derived_columns (t : table) :
  well_formed t ->
  t_columns t = ["especialidad"; "ordenes"; "proveedores"; "monto_total"; "monto_promedio"] ->
  List.length (t_rows (with_derived_columns t)) = List.length (t_rows t) /\
  Frame.column (with_derived_columns t) "especialidad" = Frame.column t "especialidad" /\
  Frame.column (with_derived_columns t) "ordenes" = Frame.column t "ordenes" /\
  Frame.column (with_derived_columns t) "participacion"
  = map VNum (Frame.participacion (map Frame.int_of (Frame.column t "ordenes"))).
Proof.
  intros W C. unfold with_derived_columns.
  destruct (Frame.empty t) eqn:E.
  - unfold Frame.empty in E. unfold Frame.column.
    destruct (t_rows t); [|discriminate E]. repeat split; reflexivity.
  - set (t1 := Frame.assign t "monto_total_millones"
                 (map (Frame.scale 1000000) (Frame.column t "monto_total"))).
    set (t2 := Frame.assign t1 "monto_promedio_miles"
                 (map (Frame.scale 1000) (Frame.column t1 "monto_promedio"))).
    assert (L1 : List.length (map (Frame.scale 1000000) (Frame.column t "monto_total"))
                 = List.length (t_rows t)) by now rewrite length_map, column_length.
    assert (W1 : well_formed t1) by now apply assign_well_formed.
    assert (R1 : List.length (t_rows t1) = List.length (t_rows t))
      by now apply assign_rows.
    assert (L2 : List.length (map (Frame.scale 1000) (Frame.column t1 "monto_promedio"))
                 = List.length (t_rows t1)) by now rewrite length_map, column_length.
    assert (W2 : well_formed t2) by now apply assign_well_formed.
    assert (R2 : List.length (t_rows t2) = List.length (t_rows t1))
      by now apply assign_rows.
    assert (L3 : List.length
                   (map VNum (Frame.participacion
                                (map Frame.int_of (Frame.column t2 "ordenes"))))
                 = List.length (t_rows t2)).
    { unfold Frame.participacion. now rewrite !length_map, column_length. }
    assert (C1 : t_columns t1
                 = ["especialidad"; "ordenes"; "proveedores"; "monto_total";
                    "monto_promedio"; "monto_total_millones"])
      by (unfold t1, Frame.assign; cbn [t_columns]; now rewrite C).
    assert (C2 : t_columns t2
                 = ["especialidad"; "ordenes"; "proveedores"; "monto_total";
                    "monto_promedio"; "monto_total_millones"; "monto_promedio_miles"])
      by (unfold t2, Frame.assign; cbn [t_columns]; now rewrite C1).
    assert (O2 : Frame.column t2 "ordenes" = Frame.column t "ordenes").
    { unfold t2. rewrite (assign_old_column t1 _ "ordenes" _ 1 W1 L2);
        [|rewrite C1; reflexivity].
      unfold t1. apply (assign_old_column t _ "ordenes" _ 1 W L1). now rewrite C. }
    assert (E2 : Frame.column t2 "especialidad" = Frame.column t "especialidad").
    { unfold t2. rewrite (assign_old_column t1 _ "especialidad" _ 0 W1 L2);
        [|rewrite C1; reflexivity].
      unfold t1. apply (assign_old_column t _ "especialidad" _ 0 W L1). now rewrite C. }
    split; [rewrite assign_rows by exact L3; lia|].
    split; [rewrite (assign_old_column t2 _ "especialidad" _ 0 W2 L3);
            [exact E2 | rewrite C2; reflexivity]|].
    split; [rewrite (assign_old_column t2 _ "ordenes" _ 1 W2 L3);
            [exact O2 | rewrite C2; reflexivity]|].
    rewrite (assign_new_column t2 _ _ W2 L3); [|rewrite C2; reflexivity].
    now rewrite O2.
Qed.

(** X9.  Views that are empty together.  For filter texts without a single
    quote, the Region Amount Distribution, the Monthly Trend, the two region
    breakdowns and the Record Listing are empty in the same runs: exactly when
    the order count of the KPI cards is zero.  The two category views are
    empty together, exactly when no passing row has a category. *)
Theorem views_are_empty_together (f : filters) (position : nat) (file : list csv_row) :
  plain f ->
  let db := load_data file in
  exists d,
    render f (slider_value position) db = Returned d /\
    let none := (Frame.int_of (kpi_value d "total_ordenes") =? 0)%Z in
    Frame.empty (df_monto d) = none /\
    Frame.empty (df_tend d) = none /\
    Frame.empty (df_adj_reg d) = none /\
    Frame.empty (df_comp_reg d) = none /\
    Frame.empty (df_detalle d) = none /\
    Frame.empty (df_esp d)
    = is_nil (filter (fun r => passes f r && has_category r) db) /\
    Frame.empty (df_esp_completo d)
    = is_nil (filter (fun r => passes f r && has_category r) db).
Proof.
  intros H db. on_run f position db H.
  assert (K : Frame.int_of
                (kpi_value
                   (run_of f (slider_value position) db) "total_ordenes")
              = Z.of_nat (List.length (kept (predicate f) db))) by reflexivity.
  unfold run_of in K. rewrite K. clear K. cbv zeta.
  assert (N : (Z.of_nat (List.length (kept (predicate f) db)) =? 0)%Z
              = is_nil (kept (predicate f) db)).
  { destruct (kept (predicate f) db); [reflexivity|]. simpl List.length.
    apply Z.eqb_neq. lia. }
  rewrite N.
  assert (E : forall cols rows, Frame.empty (mktable cols rows) = is_nil rows)
    by reflexivity.
  rewrite <- (kept_category f db H).
  destruct (slider_value_bounds position) as [_ [n ->]].
  repeat split.
  - now rewrite E, is_nil_firstn, view_empty.
  - now rewrite E, view_empty.
  - now rewrite E, view_empty.
  - now rewrite E, view_empty.
  - now rewrite E, is_nil_firstn, is_nil_map, (is_nil_perm _ _ (sort_perm _ _ _)).
  - now rewrite E, is_nil_firstn, view_empty.
  - unfold Frame.empty.
    match goal with
    | |- context [with_derived_columns ?t] =>
        destruct (derived_columns t) as (L & _);
          [apply category_frame_well_formed; reflexivity | reflexivity |];
          pose proof (view_empty (Stmt.especialidades_completo (predicate f))
                        (ECol "ONUProducto")
                        (kept (Stmt.not_null_category (predicate f)) db) 1 true) as V;
          cbn [t_rows] in L;
          destruct (t_rows (with_derived_columns t)),
                   (Engine.sort (fun r => nth 1 r VNull) true
                      (grouped_rows (Stmt.especialidades_completo (predicate f))
                         (ECol "ONUProducto")
                         (kept (Stmt.not_null_category (predicate f)) db)));
          try discriminate L; exact V
    end.
Qed.

Lemma views_are_empty_together_witness :
  plain default_filters /\
  let db := load_data [rec_obra] in
  exists d,
    render default_filters (slider_value 9) db = Returned d /\
    let none := (Frame.int_of (kpi_value d "total_ordenes") =? 0)%Z in
    Frame.empty (df_monto d) = none /\
    Frame.empty (df_tend d) = none /\
    Frame.empty (df_adj_reg d) = none /\
    Frame.empty (df_comp_reg d) = none /\
    Frame.empty (df_detalle d) = none /\
    Frame.empty (df_esp d)
    = is_nil (filter (fun r => passes default_filters r && has_category r) db) /\
    Frame.empty (df_esp_completo d)
    = is_nil (filter (fun r => passes default_filters r && has_category r) db).
Proof.
  split; [exact plain_default|].
  exact (views_are_empty_together default_filters 9 [rec_obra] plain_default).
Defined.

(** ** Distinct counts *)

Lemma distinct_length (vs : list value) :
  List.length (Engine.distinct vs) <= List.length vs.
Proof.
  induction vs as [|v vs IH]; [apply Nat.le_refl|].
  simpl. destruct (existsb (Engine.value_eqb v) vs); simpl; lia.
Qed.

Lemma count_distinct_bound (e : expr) (g : list row) :
  (0 <= Frame.int_of (Engine.aggregate (ECountDistinct e) g) <= Z.of_nat (List.length g))%Z.
Proof.
  cbn [Engine.aggregate Frame.int_of].
  pose proof (distinct_length (Engine.non_null (map (Engine.eval e) g))) as D.
  assert (F : List.length (Engine.non_null (map (Engine.eval e) g)) <= List.length g).
  { unfold Engine.non_null. etransitivity; [apply filter_length_le|]. now rewrite length_map. }
  lia.
Qed.

(** X10.  Suppliers within orders.  For filter texts without a single quote, a
    number of distinct suppliers or of distinct regions is never above the
    number of orders beside it: on the KPI cards, in every row of the
    Supplier-Region breakdown and in every row of the Monthly Trend; and every
    row of these two views stands for at least one order. *)
Theorem distinct_counts_within_order_counts
  (f : filters) (position : nat) (file : list csv_row) :
  plain f ->
  let db := load_data file in
  exists d,
    render f (slider_value position) db = Returned d /\
    (0 <= Frame.int_of (kpi_value d "total_adjudicadores")
       <= Frame.int_of (kpi_value d "total_ordenes"))%Z /\
    (0 <= Frame.int_of (regiones_activas d)
       <= Frame.int_of (kpi_value d "total_ordenes"))%Z /\
    (forall out, In out (t_rows (df_adj_reg d)) ->
       (0 <= Frame.int_of (Frame.cell (df_adj_reg d) "adjudicadores" out)
          <= Frame.int_of (Frame.cell (df_adj_reg d) "ordenes" out))%Z /\
       (1 <= Frame.int_of (Frame.cell (df_adj_reg d) "ordenes" out))%Z) /\
    (forall out, In out (t_rows (df_tend d)) ->
       (0 <= Frame.int_of (Frame.cell (df_tend d) "proveedores" out)
          <= Frame.int_of (Frame.cell (df_tend d) "ordenes" out))%Z /\
       (1 <= Frame.int_of (Frame.cell (df_tend d) "ordenes" out))%Z).
Proof.
  intros H db. on_run f position db H.
  split; [apply (count_distinct_bound (ECol "ProveedorRUT"))|].
  split; [apply (count_distinct_bound (ECol "RegionProveedor"))|].
  split.
  - intros out Hin. cbn [t_rows] in Hin.
    destruct (view_rows (Stmt.adj_region (predicate f)) (ECol "RegionProveedor")
                (kept (predicate f) db) 1 true) as (gs & P & _ & _ & Ex & _).
    apply (Permutation_in _ P) in Hin. apply in_map_iff in Hin.
    destruct Hin as ([k g] & <- & Hin). destruct (Ex k g Hin) as [_ Hn].
    split; [apply (count_distinct_bound (ECol "ProveedorRUT"))|].
    change (1 <= Z.of_nat (List.length g))%Z. destruct g; [contradiction | simpl; lia].
  - intros out Hin. cbn [t_rows] in Hin.
    destruct (view_rows (Stmt.tendencia (predicate f)) Stmt.month_of_date
                (kept (predicate f) db) 0 false) as (gs & P & _ & _ & Ex & _).
    apply (Permutation_in _ P) in Hin. apply in_map_iff in Hin.
    destruct Hin as ([k g] & <- & Hin). destruct (Ex k g Hin) as [_ Hn].
    split; [apply (count_distinct_bound (ECol "ProveedorRUT"))|].
    change (1 <= Z.of_nat (List.length g))%Z. destruct g; [contradiction | simpl; lia].
Qed.

Lemma distinct_counts_within_order_counts_witness :
  plain default_filters /\
  let db := load_data [rec_clinica; rec_farmacia] in
  exists d,
    render default_filters (slider_value 9) db = Returned d /\
    (0 <= Frame.int_of (kpi_value d "total_adjudicadores")
       <= Frame.int_of (kpi_value d "total_ordenes"))%Z /\
    (0 <= Frame.int_of (regiones_activas d)
       <= Frame.int_of (kpi_value d "total_ordenes"))%Z /\
    (forall out, In out (t_rows (df_adj_reg d)) ->
       (0 <= Frame.int_of (Frame.cell (df_adj_reg d) "adjudicadores" out)
          <= Frame.int_of (Frame.cell (df_adj_reg d) "ordenes" out))%Z /\
       (1 <= Frame.int_of (Frame.cell (df_adj_reg d) "ordenes" out))%Z) /\
    (forall out, In out (t_rows (df_tend d)) ->
       (0 <= Frame.int_of (Frame.cell (df_tend d) "proveedores" out)
          <= Frame.int_of (Frame.cell (df_tend d) "ordenes" out))%Z /\
       (1 <= Frame.int_of (Frame.cell (df_tend d) "ordenes" out))%Z).
Proof.
  split; [exact plain_default|].
  exact (distinct_counts_within_order_counts default_filters 9 [rec_clinica; rec_farmacia]
           plain_default).
Defined.

(** ** Order and cut of the views *)

Lemma ordered_cut_or {A : Type} (R : A -> A -> Prop) (n : nat) (l : list A) (y : A) :
  ordered R l -> In y l ->
  In y (firstn n l)
  \/ (List.length (firstn n l) = n /\ forall x, In x (firstn n l) -> R x y).
Proof.
  intros H Hy.
  rewrite <- (firstn_skipn n l) in H, Hy.
  apply ordered_app in H. destruct H as (_ & _ & H).
  apply in_app_or in Hy. destruct Hy as [Hy|Hy]; [now left | right].
  split; [|intros x Hx; now apply H].
  apply firstn_length_le.
  destruct (Nat.le_gt_cases n (List.length l)) as [L|L]; [exact L|].
  rewrite skipn_all2 in Hy by lia. contradiction.
Qed.

Lemma ordered_weaken {A : Type} (R R' : A -> A -> Prop) (l : list A) :
  (forall x y, In x l -> In y l -> R x y -> R' x y) -> ordered R l -> ordered R' l.
Proof.
  intros H O. rewrite <- (map_id l). apply (ordered_map R R' (fun x => x) l H O).
Qed.

Lemma ordered_strict {A B : Type} (R : A -> A -> Prop) (f : A -> B) (l : list A) :
  ordered R l -> NoDup (map f l) -> ordered (fun x y => R x y /\ f x <> f y) l.
Proof.
  induction l as [|a l IH]; intros O N; [exact I|].
  destruct O as [O1 O2]. inversion N as [|? ? Na Nl]; subst.
  split; [|now apply IH].
  rewrite Forall_forall in *. intros y Hy. split; [now apply O1|].
  intros E. apply Na. rewrite E. now apply in_map.
Qed.

Lemma orders_with_category (f : filters) (db : list row) (c : string) :
  plain f ->
  filter (fun r => Engine.value_eqb (Engine.eval (ECol "ONUProducto") r) (VStr c))
         (kept (Stmt.not_null_category (predicate f)) db)
  = orders_with f db (ECol "ONUProducto") (VStr c).
Proof.
  intros H. rewrite (kept_category f db H), filter_filter. unfold orders_with.
  apply filter_ext. intros r. rewrite eval_category. unfold has_category.
  destruct (ONUProducto (raw r)) as [s|]; simpl;
    [now rewrite andb_true_r | now rewrite !andb_false_r].
Qed.

(** The key of a group of a category view is a category text. *)
Lemma category_key (f : filters) (db : list row) (k : value) :
  plain f ->
  filter (fun r => Engine.value_eqb (Engine.eval (ECol "ONUProducto") r) k)
         (kept (Stmt.not_null_category (predicate f)) db) <> [] ->
  exists c, k = VStr c.
Proof.
  intros H N.
  destruct (filter _ _) as [|r g] eqn:E; [now elim N|].
  assert (Hin : In r (r :: g)) by now left.
  rewrite <- E in Hin. apply filter_In in Hin. destruct Hin as [Hk Ek].
  rewrite (kept_category f db H) in Hk. apply filter_In in Hk. destruct Hk as [_ Hc].
  apply andb_prop in Hc. destruct Hc as [_ Hc].
  rewrite eval_category in Ek. unfold has_category in Hc.
  destruct (ONUProducto (raw r)) as [s|]; [|discriminate Hc].
  apply text_eqb_eq in Ek. now exists s.
Qed.

(** X11.  The ten largest categories.  For filter texts without a single
    quote, Top Categories has at most ten rows, one per category, each with
    the number of passing rows of that category, in order of non-increasing
    count; a category with passing rows that is not among them has no more
    rows than any category shown, and then ten categories are shown. *)
Theorem top_categories_are_the_ten_largest
  (f : filters) (position : nat) (file : list csv_row) :
  plain f ->
  let db := load_data file in
  let orders c := orders_with f db (ECol "ONUProducto") (VStr c) in
  exists d,
    render f (slider_value position) db = Returned d /\
    List.length (t_rows (df_esp d)) <= 10 /\
    (forall out, In out (t_rows (df_esp d)) ->
       exists c, orders c <> [] /\ out = [VStr c; count_of (orders c)]) /\
    NoDup (Frame.column (df_esp d) "especialidad") /\
    ordered (fun a b => (b <= a)%Z) (ints (df_esp d) "cantidad") /\
    (forall c, orders c <> [] ->
       In [VStr c; count_of (orders c)] (t_rows (df_esp d))
       \/ (List.length (t_rows (df_esp d)) = 10 /\
           forall n, In n (ints (df_esp d) "cantidad") ->
                     (Z.of_nat (List.length (orders c)) <= n)%Z)).
Proof.
  intros H db orders. on_run f position db H. cbn [t_rows].
  set (rs := kept (Stmt.not_null_category (predicate f)) db).
  set (st := Stmt.top_especialidades (predicate f)).
  set (full := Engine.sort (fun r => nth 1 r VNull) true
                 (grouped_rows st (ECol "ONUProducto") rs)).
  destruct (view_rows st (ECol "ONUProducto") rs 1 true) as (gs & P & _ & N & Ex & Cov).
  fold full in P.
  assert (Row : forall out, In out full ->
                  exists c, orders c <> [] /\ out = [VStr c; count_of (orders c)]).
  { intros out Hin. apply (Permutation_in _ P) in Hin. apply in_map_iff in Hin.
    destruct Hin as ([k g] & <- & Hin). destruct (Ex k g Hin) as [Hg Hn].
    rewrite Hg in Hn. destruct (category_key f db k H Hn) as [c ->].
    unfold rs in Hg. rewrite (orders_with_category f db c H) in Hg.
    exists c. subst g. split; [|reflexivity].
    unfold rs in Hn. now rewrite (orders_with_category f db c H) in Hn. }
  assert (Int : Forall (fun y => is_int (nth 1 y VNull))
                  (grouped_rows st (ECol "ONUProducto") rs)).
  { apply Forall_forall. intros out Hin. unfold grouped_rows in Hin.
    apply in_map_iff in Hin. destruct Hin as ([k g] & <- & _). now eexists. }
  pose proof (sort_ordered (fun r => nth 1 r VNull) true is_int
                (before_int_total true) (before_int_trans true) _ Int) as O.
  fold full in O.
  assert (IntF : forall out, In out full -> is_int (nth 1 out VNull)).
  { intros out Hin. apply sort_in in Hin. rewrite Forall_forall in Int. now apply Int. }
  split; [apply firstn_le_length|].
  split; [intros out Hin; apply Row; now apply in_firstn in Hin|].
  split.
  { unfold Frame.column. cbn [t_rows].
    assert (NF : NoDup (map (fun out => nth 0 out VNull) full)).
    { apply (Permutation_NoDup (Permutation_sym (Permutation_map _ P))).
      rewrite map_map. exact N. }
    rewrite <- (firstn_skipn 10 full), map_app in NF.
    now apply NoDup_app_remove_r in NF. }
  split.
  { unfold ints, Frame.column. cbn [t_rows]. rewrite map_map.
    apply (ordered_map _ _ _ _ (fun x y Hx Hy R =>
             before_desc_int _ _ (IntF x (in_firstn _ _ _ Hx))
               (IntF y (in_firstn _ _ _ Hy)) R)).
    now apply ordered_firstn. }
  intros c Hc.
  destruct (orders c) as [|r g] eqn:E; [now elim Hc|].
  assert (Hr : In r (orders c)) by (rewrite E; now left).
  unfold orders, orders_with in Hr. apply filter_In in Hr. destruct Hr as [Hdb Hp].
  apply andb_prop in Hp. destruct Hp as [Hp Hk].
  assert (K : In r rs).
  { unfold rs. rewrite (kept_category f db H). apply filter_In. split; [exact Hdb|].
    rewrite Hp. rewrite eval_category in Hk. unfold has_category.
    destruct (ONUProducto (raw r)); [reflexivity | discriminate Hk]. }
  destruct (Cov r K) as (k & Ek & Hin).
  assert (Kc : k = VStr c).
  { rewrite eval_category in Ek, Hk.
    apply text_eqb_eq in Ek. apply text_eqb_eq in Hk. congruence. }
  subst k. unfold rs in Hin. rewrite (orders_with_category f db c H) in Hin.
  fold (orders c) in Hin.
  assert (X : In [VStr c; count_of (orders c)] full).
  { apply (Permutation_in _ (Permutation_sym P)). apply in_map_iff.
    exists (VStr c, orders c). split; [reflexivity | exact Hin]. }
  rewrite <- E.
  destruct (ordered_cut_or _ 10 full _ O X) as [In10|[L10 All]]; [now left | right].
  split; [exact L10|].
  intros n Hn. unfold ints, Frame.column in Hn. cbn [t_rows] in Hn.
  rewrite map_map in Hn. apply in_map_iff in Hn. destruct Hn as (x & <- & Hx).
  specialize (All x Hx). cbv beta in All.
  apply (before_desc_int _ _ (IntF x (in_firstn _ _ _ Hx)) (IntF _ X)) in All.
  exact All.
Qed.

Lemma top_categories_are_the_ten_largest_witness :
  plain default_filters /\
  let db := load_data [rec_clinica; rec_farmacia] in
  let orders c := orders_with default_filters db (ECol "ONUProducto") (VStr c) in
  exists d,
    render default_filters (slider_value 9) db = Returned d /\
    List.length (t_rows (df_esp d)) <= 10 /\
    (forall out, In out (t_rows (df_esp d)) ->
       exists c, orders c <> [] /\ out = [VStr c; count_of (orders c)]) /\
    NoDup (Frame.column (df_esp d) "especialidad") /\
    ordered (fun a b => (b <= a)%Z) (ints (df_esp d) "cantidad") /\
    (forall c, orders c <> [] ->
       In [VStr c; count_of (orders c)] (t_rows (df_esp d))
       \/ (List.length (t_rows (df_esp d)) = 10 /\
           forall n, In n (ints (df_esp d) "cantidad") ->
                     (Z.of_nat (List.length (orders c)) <= n)%Z)).
Proof.
  split; [exact plain_default|].
  exact (top_categories_are_the_ten_largest default_filters 9 [rec_clinica; rec_farmacia]
           plain_default).
Defined.

Lemma kept_has_date (f : filters) (db : list row) (r : row) :
  plain f -> In r (kept (predicate f) db) ->
  exists d, FechaEnvioOC_parsed r = Some d /\
            Date.leb (fecha_inicio f) d = true /\ Date.leb d (fecha_fin f) = true.
Proof.
  intros H Hin. apply in_kept in Hin. destruct Hin as [_ Hh].
  exact (holds_in_range f r H Hh).
Qed.

(** X12.  The listing, most recent first.  For filter texts without a single
    quote, the Record Listing shows the slider's number of passing rows, or
    all of them when they are fewer, and never more than 5000; the rows come
    most recent first, and a passing row that is not shown was sent no later
    than any row shown. *)
Theorem listing_is_most_recent_first (f : filters) (position : nat) (file : list csv_row) :
  plain f ->
  let db := load_data file in
  let limit := slider_value position in
  exists d shown,
    render f limit db = Returned d /\
    t_rows (df_detalle d) = map detalle_row shown /\
    List.length shown = Nat.min limit (List.length (filter (passes f) db)) /\
    List.length shown <= 5000 /\
    (forall r, In r shown -> In r db /\ passes f r = true) /\
    ordered not_before shown /\
    (forall r, In r db -> passes f r = true ->
       In r shown \/ forall x, In x shown -> not_before x r).
Proof.
  intros H db limit. subst limit.
  set (full := Engine.sort (Engine.eval (ECol "FechaEnvioOC_parsed")) true
                 (kept (predicate f) db)).
  exists (run_of f (slider_value position) db), (firstn (slider_value position) full).
  split; [apply render_plain; exact H|].
  unfold run_of. cbn [df_detalle t_rows]. fold full.
  split; [apply firstn_map|].
  assert (Key : forall r, In r (kept (predicate f) db) ->
                  is_date (Engine.eval (ECol "FechaEnvioOC_parsed") r)).
  { intros r Hr. destruct (kept_has_date f db r H Hr) as (d & E & _).
    exists d. change (Engine.eval (ECol "FechaEnvioOC_parsed") r)
                with (Engine.datev (FechaEnvioOC_parsed r)). now rewrite E. }
  assert (O : ordered (fun x y => Engine.before true
                                    (Engine.eval (ECol "FechaEnvioOC_parsed") x)
                                    (Engine.eval (ECol "FechaEnvioOC_parsed") y) = true)
                      full).
  { apply (sort_ordered _ true is_date (before_date_total true) (before_date_trans true)).
    apply Forall_forall. exact Key. }
  assert (InF : forall r, In r full <-> In r (kept (predicate f) db))
    by (intros r; apply sort_in).
  assert (NB : forall x y, In x full -> In y full ->
                 Engine.before true (Engine.eval (ECol "FechaEnvioOC_parsed") x)
                   (Engine.eval (ECol "FechaEnvioOC_parsed") y) = true ->
                 not_before x y).
  { intros x y Hx Hy. apply InF in Hx. apply InF in Hy.
    destruct (kept_has_date f db x H Hx) as (dx & Ex & _).
    destruct (kept_has_date f db y H Hy) as (dy & Ey & _).
    unfold not_before.
    change (Engine.eval (ECol "FechaEnvioOC_parsed") x)
      with (Engine.datev (FechaEnvioOC_parsed x)).
    change (Engine.eval (ECol "FechaEnvioOC_parsed") y)
      with (Engine.datev (FechaEnvioOC_parsed y)).
    rewrite Ex, Ey. auto. }
  assert (L : List.length full = List.length (filter (passes f) db)).
  { unfold full. now rewrite sort_length, (kept_passes f db H). }
  pose proof (slider_value_bounds position) as [B _].
  split; [now rewrite length_firstn, L|].
  split; [rewrite length_firstn; lia|].
  split.
  { intros r Hr. apply in_firstn, InF, in_kept in Hr. destruct Hr as [Hdb Hh].
    split; [exact Hdb | now rewrite (passes_plain f r H)]. }
  split.
  { apply ordered_firstn.
    apply (ordered_weaken _ _ _ NB O). }
  intros r Hdb Hp.
  assert (Hr : In r full).
  { apply InF, in_kept. split; [exact Hdb | now rewrite <- (passes_plain f r H)]. }
  destruct (ordered_cut_or _ (slider_value position) full r O Hr) as [S|[_ All]];
    [now left | right].
  intros x Hx. apply NB; [now apply in_firstn in Hx | exact Hr | now apply All].
Qed.

Lemma listing_is_most_recent_first_witness :
  plain default_filters /\
  let db := load_data [rec_clinica; rec_farmacia; rec_obra] in
  let limit := slider_value 9 in
  exists d shown,
    render default_filters limit db = Returned d /\
    t_rows (df_detalle d) = map detalle_row shown /\
    List.length shown = Nat.min limit (List.length (filter (passes default_filters) db)) /\
    List.length shown <= 5000 /\
    (forall r, In r shown -> In r db /\ passes default_filters r = true) /\
    ordered not_before shown /\
    (forall r, In r db -> passes default_filters r = true ->
       In r shown \/ forall x, In x shown -> not_before x r).
Proof.
  split; [exact plain_default|].
  exact (listing_is_most_recent_first default_filters 9
           [rec_clinica; rec_farmacia; rec_obra] plain_default).
Defined.

Lemma trunc_month_leb (a b : date) :
  Date.leb a b = true -> Date.leb (Date.trunc_month a) (Date.trunc_month b) = true.
Proof.
  unfold Date.leb, Date.trunc_month. cbn [year month day]. intros H.
  destruct (year a <? year b); [reflexivity|]. simpl in *.
  destruct (year a =? year b); [|discriminate H]. simpl in *.
  destruct (month a <? month b); [reflexivity|]. simpl in *.
  destruct (month a =? month b); [reflexivity | discriminate H].
Qed.

Lemma eval_month (r : row) (d : date) :
  FechaEnvioOC_parsed r = Some d ->
  Engine.eval Stmt.month_of_date r = VDate (Date.trunc_month d).
Proof.
  intros E. unfold Stmt.month_of_date. cbn [Engine.eval].
  change (Engine.column "FechaEnvioOC_parsed" r)
    with (Some (Engine.datev (FechaEnvioOC_parsed r))).
  now rewrite E.
Qed.

Lemma date_value_eqb (a : date) (k : value) :
  Engine.value_eqb (VDate a) k = true -> k = VDate a.
Proof.
  destruct k; simpl; intros E; try discriminate E.
  apply date_eqb_eq in E. now subst.
Qed.

(** The key of a group of the Monthly Trend is the first day of a month
    between the months of the two bounds. *)
Lemma month_key (f : filters) (db : list row) (k : value) :
  plain f ->
  filter (fun r => Engine.value_eqb (Engine.eval Stmt.month_of_date r) k)
         (kept (predicate f) db) <> [] ->
  exists m, k = VDate m /\ day m = 1 /\
            Date.leb (Date.trunc_month (fecha_inicio f)) m = true /\
            Date.leb m (Date.trunc_month (fecha_fin f)) = true.
Proof.
  intros H N.
  destruct (filter _ _) as [|r g] eqn:E; [now elim N|].
  assert (Hin : In r (r :: g)) by now left.
  rewrite <- E in Hin. apply filter_In in Hin. destruct Hin as [Hk Ek].
  destruct (kept_has_date f db r H Hk) as (d & Ed & L1 & L2).
  rewrite (eval_month r d Ed) in Ek. apply date_value_eqb in Ek.
  exists (Date.trunc_month d). split; [exact Ek|]. split; [reflexivity|].
  split; now apply trunc_month_leb.
Qed.

(** X13.  The Monthly Trend, month by month.  For filter texts without a
    single quote, the view has one row for each calendar month in which a
    passing row was sent, the months in strictly ascending order, each written
    as the first day of the month and lying between the months of the two date
    bounds; the row holds the number of passing rows of the month and the
    number of their distinct tax ids. *)
Theorem monthly_trend_month_by_month (f : filters) (position : nat) (file : list csv_row) :
  plain f ->
  let db := load_data file in
  let orders m := orders_with f db Stmt.month_of_date (VDate m) in
  exists d months,
    render f (slider_value position) db = Returned d /\
    Frame.column (df_tend d) "mes" = map VDate months /\
    ordered (fun a b => date_lt a b = true) months /\
    (forall m, In m months ->
       day m = 1 /\
       Date.leb (Date.trunc_month (fecha_inicio f)) m = true /\
       Date.leb m (Date.trunc_month (fecha_fin f)) = true /\
       orders m <> [] /\
       In [VDate m; count_of (orders m); suppliers_of (orders m)] (t_rows (df_tend d))) /\
    List.length (t_rows (df_tend d)) = List.length months /\
    (forall r x, In r db -> passes f r = true -> FechaEnvioOC_parsed r = Some x ->
       In (Date.trunc_month x) months).
Proof.
  intros H db orders.
  set (rs := kept (predicate f) db).
  set (st := Stmt.tendencia (predicate f)).
  set (rows := Engine.sort (fun r => nth 0 r VNull) false
                 (grouped_rows st Stmt.month_of_date rs)).
  exists (run_of f (slider_value position) db),
         (map (fun out => date_in (nth 0 out VNull)) rows).
  split; [apply render_plain; exact H|].
  unfold run_of. cbn [df_tend t_rows]. fold rs st rows.
  destruct (view_rows st Stmt.month_of_date rs 0 false) as (gs & P & _ & N & Ex & Cov).
  fold rows in P.
  assert (Row : forall out, In out rows ->
                  exists m, out = [VDate m; count_of (orders m); suppliers_of (orders m)] /\
                            day m = 1 /\
                            Date.leb (Date.trunc_month (fecha_inicio f)) m = true /\
                            Date.leb m (Date.trunc_month (fecha_fin f)) = true /\
                            orders m <> []).
  { intros out Hin. apply (Permutation_in _ P) in Hin. apply in_map_iff in Hin.
    destruct Hin as ([k g] & <- & Hin). destruct (Ex k g Hin) as [Hg Hn].
    rewrite Hg in Hn. destruct (month_key f db k H Hn) as (m & -> & D & L1 & L2).
    unfold rs in Hg, Hn. rewrite (orders_with_kept f db _ _ H) in Hg, Hn.
    exists m. subst g. repeat split; assumption. }
  assert (Date : Forall (fun y => is_date (nth 0 y VNull))
                   (grouped_rows st Stmt.month_of_date rs)).
  { apply Forall_forall. intros out Hin. apply (sort_in (fun r => nth 0 r VNull) false) in Hin.
    destruct (Row out Hin) as (m & -> & _). now exists m. }
  pose proof (sort_ordered (fun r => nth 0 r VNull) false is_date
                (before_date_total false) (before_date_trans false) _ Date) as O.
  fold rows in O.
  assert (NF : NoDup (map (fun out => nth 0 out VNull) rows)).
  { apply (Permutation_NoDup (Permutation_sym (Permutation_map _ P))).
    rewrite map_map. exact N. }
  split.
  { unfold Frame.column. cbn [t_rows]. rewrite map_map.
    apply map_ext_in. intros out Hin. destruct (Row out Hin) as (m & -> & _). reflexivity. }
  split.
  { apply (ordered_map
             (fun x y => Engine.before false (nth 0 x VNull) (nth 0 y VNull) = true
                         /\ nth 0 x VNull <> nth 0 y VNull)
             (fun a b => date_lt a b = true)
             (fun out => date_in (nth 0 out VNull)) rows);
      [|exact (ordered_strict _ _ _ O NF)].
    intros x y Hx Hy R.
    destruct (Row x Hx) as (a & -> & _). destruct (Row y Hy) as (b & -> & _).
    destruct R as [R1 R2]. cbn in R1, R2 |- *. unfold date_lt. rewrite R1. cbn [andb].
    destruct (Date.eqb a b) eqn:E; [|reflexivity].
    apply date_eqb_eq in E. subst. now elim R2. }
  split.
  { intros m Hm. apply in_map_iff in Hm. destruct Hm as (out & <- & Hin).
    destruct (Row out Hin) as (m & E & D & L1 & L2 & Hn). rewrite E. cbn [nth date_in].
    rewrite <- E. repeat split; assumption. }
  split; [now rewrite length_map|].
  intros r x Hdb Hp Ed.
  assert (K : In r rs).
  { apply in_kept. split; [exact Hdb | now rewrite <- (passes_plain f r H)]. }
  destruct (Cov r K) as (k & Ek & Hin).
  rewrite (eval_month r x Ed) in Ek. apply date_value_eqb in Ek. subst k.
  apply in_map_iff.
  exists (Exec.output_row (s_items st)
            (VDate (Date.trunc_month x),
             filter (fun r0 => Engine.value_eqb (Engine.eval Stmt.month_of_date r0)
                                 (VDate (Date.trunc_month x))) rs)).
  split; [reflexivity|].
  apply (Permutation_in _ (Permutation_sym P)). apply in_map_iff.
  eexists. split; [reflexivity | exact Hin].
Qed.

Lemma monthly_trend_month_by_month_witness :
  plain default_filters /\
  let db := load_data [rec_clinica; rec_farmacia] in
  let orders m := orders_with default_filters db Stmt.month_of_date (VDate m) in
  exists d months,
    render default_filters (slider_value 9) db = Returned d /\
    Frame.column (df_tend d) "mes" = map VDate months /\
    ordered (fun a b => date_lt a b = true) months /\
    (forall m, In m months ->
       day m = 1 /\
       Date.leb (Date.trunc_month (fecha_inicio default_filters)) m = true /\
       Date.leb m (Date.trunc_month (fecha_fin default_filters)) = true /\
       orders m <> [] /\
       In [VDate m; count_of (orders m); suppliers_of (orders m)] (t_rows (df_tend d))) /\
    List.length (t_rows (df_tend d)) = List.length months /\
    (forall r x, In r db -> passes default_filters r = true ->
       FechaEnvioOC_parsed r = Some x -> In (Date.trunc_month x) months).
Proof.
  split; [exact plain_default|].
  exact (monthly_trend_month_by_month default_filters 9 [rec_clinica; rec_farmacia]
           plain_default).
Defined.

(** ** A region or a category chosen in the sidebar *)

Lemma nodup_same {A : Type} (c : A) (l : list A) :
  NoDup l -> (forall x, In x l -> x = c) -> List.length l <= 1.
Proof.
  intros N H. destruct l as [|a [|b l]]; simpl; try lia.
  inversion N as [|? ? Na _]; subst. elim Na. left.
  rewrite (H a), (H b); [reflexivity | right; now left | now left].
Qed.

Lemma distinct_same (c : value) (l : list value) :
  (forall v, In v l -> v = c) ->
  List.length (Engine.distinct l) = if is_nil l then 0 else 1.
Proof.
  induction l as [|v l IH]; intros H; [reflexivity|].
  cbn [Engine.distinct is_nil].
  destruct l as [|u l]; [reflexivity|].
  assert (E : existsb (Engine.value_eqb v) (u :: l) = true).
  { apply existsb_exists. exists u. split; [now left|].
    rewrite (H v), (H u); [apply value_eqb_refl | right; now left | now left]. }
  rewrite E. rewrite IH; [reflexivity|]. intros x Hx. apply H. now right.
Qed.

Lemma non_null_texts {A : Type} (c : string) (l : list A) :
  Engine.non_null (map (fun _ => VStr c) l) = map (fun _ => VStr c) l.
Proof.
  unfold Engine.non_null. induction l as [|a l IH]; [reflexivity|].
  simpl. now rewrite IH.
Qed.

Lemma chosen_field (c : string) (field : option string) :
  c <> "Todas" -> chosen c field = true -> field = Some c.
Proof.
  intros N. unfold chosen. apply String.eqb_neq in N. rewrite N. cbn [orb].
  destruct field as [s|]; [|discriminate]. intros E. apply String.eqb_eq in E. now subst.
Qed.

Lemma kept_region (f : filters) (db : list row) (r : row) :
  plain f -> region_proveedor f <> "Todas" -> In r (kept (predicate f) db) ->
  RegionProveedor (raw r) = Some (region_proveedor f).
Proof.
  intros H N Hin. apply in_kept in Hin. destruct Hin as [_ Hh].
  rewrite holds_predicate, (holds_clauses f r H) in Hh.
  unfold row_passes in Hh. repeat (apply andb_prop in Hh; destruct Hh as [Hh ?]).
  now apply chosen_field.
Qed.

Lemma kept_category_chosen (f : filters) (db : list row) (r : row) :
  plain f -> especialidad_selected f <> "Todas" -> In r (kept (predicate f) db) ->
  ONUProducto (raw r) = Some (especialidad_selected f).
Proof.
  intros H N Hin. apply in_kept in Hin. destruct Hin as [_ Hh].
  rewrite holds_predicate, (holds_clauses f r H) in Hh.
  unfold row_passes in Hh. repeat (apply andb_prop in Hh; destruct Hh as [Hh ?]).
  now apply chosen_field.
Qed.

(** A grouped view all of whose kept rows have the key [c] has at most one
    row, with that key. *)
Lemma view_one_key (st : statement) (key : expr) (rs : list row) (i : nat) (desc : bool)
      (c : value) :
  (forall r k, In r rs -> Engine.value_eqb (Engine.eval key r) k = true -> k = c) ->
  (forall kg, nth 0 (Exec.output_row (s_items st) kg) VNull = fst kg) ->
  let rows := Engine.sort (fun r => nth i r VNull) desc (grouped_rows st key rs) in
  List.length rows <= 1 /\ forall out, In out rows -> nth 0 out VNull = c.
Proof.
  intros Hk H0 rows.
  destruct (view_rows st key rs i desc) as (gs & P & _ & N & Ex & _). fold rows in P.
  assert (K : forall k, In k (map fst gs) -> k = c).
  { intros k Hin. apply in_map_iff in Hin. destruct Hin as ([k' g] & <- & Hin).
    destruct (Ex k' g Hin) as [Hg Hn]. cbn [fst].
    destruct g as [|r g]; [now elim Hn|].
    assert (Hr : In r (r :: g)) by now left.
    rewrite Hg in Hr. apply filter_In in Hr. destruct Hr as [Hr Ek].
    exact (Hk r k' Hr Ek). }
  split.
  - rewrite (Permutation_length P), length_map, <- (length_map fst).
    now apply (nodup_same c).
  - intros out Hin. apply (Permutation_in _ P) in Hin. apply in_map_iff in Hin.
    destruct Hin as (kg & <- & Hin). rewrite H0. apply K. now apply in_map.
Qed.

(** X14.  A supplier region chosen in the sidebar.  For filter texts without a
    single quote and a supplier region other than 'Todas', the Supplier-Region
    breakdown and the Region Amount Distribution have at most one row, the row
    of the chosen region, and the Active Regions card shows 1, or 0 when no
    row passes. *)
Theorem chosen_supplier_region_is_the_only_one
  (f : filters) (position : nat) (file : list csv_row) :
  plain f -> region_proveedor f <> "Todas" ->
  let db := load_data file in
  exists d,
    render f (slider_value position) db = Returned d /\
    List.length (t_rows (df_adj_reg d)) <= 1 /\
    (forall out, In out (t_rows (df_adj_reg d)) ->
       Frame.cell (df_adj_reg d) "region" out = VStr (region_proveedor f)) /\
    List.length (t_rows (df_monto d)) <= 1 /\
    (forall out, In out (t_rows (df_monto d)) ->
       Frame.cell (df_monto d) "region" out = VStr (region_proveedor f)) /\
    regiones_activas d = VInt (if is_nil (filter (passes f) db) then 0 else 1).
Proof.
  intros H N db. on_run f position db H. cbn [t_rows].
  assert (K : forall r k, In r (kept (predicate f) db) ->
                Engine.value_eqb (Engine.eval (ECol "RegionProveedor") r) k = true ->
                k = VStr (region_proveedor f)).
  { intros r k Hr Ek. rewrite eval_region_proveedor, (kept_region f db r H N Hr) in Ek.
    now apply text_eqb_eq in Ek. }
  destruct (view_one_key (Stmt.adj_region (predicate f)) (ECol "RegionProveedor")
              (kept (predicate f) db) 1 true _ K (fun kg => eq_refl)) as [L1 R1].
  destruct (view_one_key (Stmt.monto_region (predicate f)) (ECol "RegionProveedor")
              (kept (predicate f) db) 1 true _ K (fun kg => eq_refl)) as [L2 R2].
  split; [exact L1|]. split; [exact R1|].
  split; [rewrite length_firstn; lia|].
  split; [intros out Hin; apply R2; now apply in_firstn in Hin|].
  change (VInt (Z.of_nat (List.length (Engine.distinct (Engine.non_null
            (map (Engine.eval (ECol "RegionProveedor")) (kept (predicate f) db))))))
          = VInt (if is_nil (filter (passes f) db) then 0 else 1)).
  rewrite <- (kept_passes f db H). f_equal.
  assert (A : map (Engine.eval (ECol "RegionProveedor")) (kept (predicate f) db)
              = map (fun _ => VStr (region_proveedor f)) (kept (predicate f) db)).
  { apply map_ext_in. intros r Hr.
    now rewrite eval_region_proveedor, (kept_region f db r H N Hr). }
  rewrite A.
  assert (B : Engine.non_null (map (fun _ : row => VStr (region_proveedor f))
                                 (kept (predicate f) db))
              = map (fun _ => VStr (region_proveedor f)) (kept (predicate f) db)).
  { apply non_null_texts. }
  rewrite B, (distinct_same (VStr (region_proveedor f))).
  - rewrite is_nil_map. now destruct (kept (predicate f) db).
  - intros v Hv. apply in_map_iff in Hv. now destruct Hv as (_ & <- & _).
Qed.

Lemma plain_with_region_maule : plain (with_region "Maule").
Proof. repeat split; simpl; lia. Qed.

Lemma chosen_supplier_region_is_the_only_one_witness :
  plain (with_region "Maule") /\ region_proveedor (with_region "Maule") <> "Todas" /\
  let db := load_data [rec_clinica; rec_farmacia] in
  exists d,
    render (with_region "Maule") (slider_value 9) db = Returned d /\
    List.length (t_rows (df_adj_reg d)) <= 1 /\
    (forall out, In out (t_rows (df_adj_reg d)) ->
       Frame.cell (df_adj_reg d) "region" out = VStr (region_proveedor (with_region "Maule")))
    /\
    List.length (t_rows (df_monto d)) <= 1 /\
    (forall out, In out (t_rows (df_monto d)) ->
       Frame.cell (df_monto d) "region" out = VStr (region_proveedor (with_region "Maule")))
    /\
    regiones_activas d
    = VInt (if is_nil (filter (passes (with_region "Maule")) db) then 0 else 1).
Proof.
  assert (N : region_proveedor (with_region "Maule") <> "Todas") by discriminate.
  split; [exact plain_with_region_maule|]. split; [exact N|].
  exact (chosen_supplier_region_is_the_only_one (with_region "Maule") 9
           [rec_clinica; rec_farmacia] plain_with_region_maule N).
Defined.

Lemma round_whole (n : Z) : (1 <= n)%Z -> Frame.round_half_even (1000 * n) (n + 0) = 1000%Z.
Proof.
  intros H. unfold Frame.round_half_even. rewrite Z.add_0_r.
  rewrite Z.mod_mul, Z.div_mul by lia.
  replace (2 * 0 <? n)%Z with true by (symmetry; apply Z.ltb_lt; lia). reflexivity.
Qed.

(** X15.  A category chosen in the sidebar.  For filter texts without a single
    quote and a category other than 'Todas', Top Categories and Category
    Detail have at most one row, the row of the chosen category, and its share
    in Category Detail is 100.0. *)
Theorem chosen_category_is_the_only_one
  (f : filters) (position : nat) (file : list csv_row) :
  plain f -> especialidad_selected f <> "Todas" ->
  let db := load_data file in
  exists d,
    render f (slider_value position) db = Returned d /\
    List.length (t_rows (df_esp d)) <= 1 /\
    (forall out, In out (t_rows (df_esp d)) ->
       Frame.cell (df_esp d) "especialidad" out = VStr (especialidad_selected f)) /\
    List.length (t_rows (df_esp_completo d)) <= 1 /\
    (forall v, In v (Frame.column (df_esp_completo d) "especialidad") ->
       v = VStr (especialidad_selected f)) /\
    (forall v, In v (Frame.column (df_esp_completo d) "participacion") ->
       v = VNum (1000 # 10)).
Proof.
  intros H N db. on_run f position db H. cbn [t_rows].
  set (rs := kept (Stmt.not_null_category (predicate f)) db).
  assert (K : forall r k, In r rs ->
                Engine.value_eqb (Engine.eval (ECol "ONUProducto") r) k = true ->
                k = VStr (especialidad_selected f)).
  { intros r k Hr Ek. unfold rs in Hr. apply in_kept in Hr. destruct Hr as [Hdb Hh].
    apply holds_not_null_category in Hh. destruct Hh as [Hh _].
    assert (Hk : In r (kept (predicate f) db)) by (apply in_kept; now split).
    rewrite eval_category, (kept_category_chosen f db r H N Hk) in Ek.
    now apply text_eqb_eq in Ek. }
  destruct (view_one_key (Stmt.top_especialidades (predicate f)) (ECol "ONUProducto")
              rs 1 true _ K (fun kg => eq_refl)) as [L1 R1].
  destruct (view_one_key (Stmt.especialidades_completo (predicate f)) (ECol "ONUProducto")
              rs 1 true _ K (fun kg => eq_refl)) as [L2 R2].
  split; [rewrite length_firstn; lia|].
  split; [intros out Hin; apply R1; now apply in_firstn in Hin|].
  match goal with
  | |- context [with_derived_columns ?t] =>
      destruct (derived_columns t) as (D1 & D2 & D3 & D4);
        [apply category_frame_well_formed; reflexivity | reflexivity |];
        set (frame := t) in *
  end.
  set (rows := Engine.sort (fun r => nth 1 r VNull) true
                 (grouped_rows (Stmt.especialidades_completo (predicate f))
                    (ECol "ONUProducto") rs)) in *.
  cbn [t_rows] in D1.
  split; [rewrite D1; exact L2|].
  split.
  { intros v Hv. rewrite D2 in Hv. unfold Frame.column in Hv. apply in_map_iff in Hv.
    destruct Hv as (out & <- & Hin). exact (R2 out Hin). }
  intros v Hv. rewrite D4 in Hv.
  destruct (view_rows (Stmt.especialidades_completo (predicate f)) (ECol "ONUProducto")
              rs 1 true) as (gs & P & _ & _ & Ex & _).
  fold rows in P.
  assert (O : Frame.column frame "ordenes" = map (fun out => nth 1 out VNull) rows)
    by reflexivity.
  rewrite O in Hv.
  destruct rows as [|out [|out' rows']]; [contradiction | | simpl in L2; lia].
  assert (Hin : In out (map (Exec.output_row
                               (s_items (Stmt.especialidades_completo (predicate f)))) gs)).
  { apply (Permutation_in _ P). now left. }
  apply in_map_iff in Hin. destruct Hin as ([k g] & <- & Hin).
  destruct (Ex k g Hin) as [_ Hn].
  change (In v [VNum (Frame.round_half_even (1000 * Z.of_nat (List.length g))
                        (Z.of_nat (List.length g) + 0) # 10)]) in Hv.
  destruct Hv as [<-|[]].
  rewrite round_whole; [reflexivity|].
  destruct g; [now elim Hn | simpl List.length; lia].
Qed.

Lemma plain_with_category_insumos : plain (with_category "Insumos").
Proof. repeat split; simpl; lia. Qed.

Lemma chosen_category_is_the_only_one_witness :
  plain (with_category "Insumos") /\
  especialidad_selected (with_category "Insumos") <> "Todas" /\
  let db := load_data [rec_clinica; rec_farmacia] in
  exists d,
    render (with_category "Insumos") (slider_value 9) db = Returned d /\
    List.length (t_rows (df_esp d)) <= 1 /\
    (forall out, In out (t_rows (df_esp d)) ->
       Frame.cell (df_esp d) "especialidad" out
       = VStr (especialidad_selected (with_category "Insumos"))) /\
    List.length (t_rows (df_esp_completo d)) <= 1 /\
    (forall v, In v (Frame.column (df_esp_completo d) "especialidad") ->
       v = VStr (especialidad_selected (with_category "Insumos"))) /\
    (forall v, In v (Frame.column (df_esp_completo d) "participacion") ->
       v = VNum (1000 # 10)).
Proof.
  assert (N : especialidad_selected (with_category "Insumos") <> "Todas") by discriminate.
  split; [exact plain_with_category_insumos|]. split; [exact N|].
  exact (chosen_category_is_the_only_one (with_category "Insumos") 9
           [rec_clinica; rec_farmacia] plain_with_category_insumos N).
Defined.

(** ** The share column and the amount card *)

Lemma round_half_even_mono (a b t : Z) :
  (0 < t)%Z -> (a <= b)%Z ->
  (Frame.round_half_even a t <= Frame.round_half_even b t)%Z.
Proof.
  intros T L. unfold Frame.round_half_even.
  pose proof (Z.div_mod a t ltac:(lia)) as Da.
  pose proof (Z.div_mod b t ltac:(lia)) as Db.
  pose proof (Z.mod_pos_bound a t T) as Ba.
  pose proof (Z.mod_pos_bound b t T) as Bb.
  pose proof (Z.div_le_mono a b t T L) as Q.
  set (qa := (a / t)%Z) in *. set (ra := (a mod t)%Z) in *.
  set (qb := (b / t)%Z) in *. set (rb := (b mod t)%Z) in *.
  destruct (Z.eq_dec qa qb) as [E|E].
  - rewrite E in *. assert (R : (ra <= rb)%Z) by nia.
    destruct (2 * ra <? t)%Z eqn:A1, (2 * rb <? t)%Z eqn:B1;
      try apply Z.ltb_lt in A1; try apply Z.ltb_ge in A1;
      try apply Z.ltb_lt in B1; try apply Z.ltb_ge in B1; try lia;
      destruct (t <? 2 * ra)%Z eqn:A2, (t <? 2 * rb)%Z eqn:B2;
      try apply Z.ltb_lt in A2; try apply Z.ltb_ge in A2;
      try apply Z.ltb_lt in B2; try apply Z.ltb_ge in B2; try lia;
      destruct (Z.even qb); lia.
  - assert (Q' : (qa + 1 <= qb)%Z) by lia.
    destruct (2 * ra <? t)%Z, (2 * rb <? t)%Z, (t <? 2 * ra)%Z, (t <? 2 * rb)%Z,
             (Z.even qa), (Z.even qb); lia.
Qed.

Lemma round_half_even_bounds (n t : Z) :
  (0 < t)%Z -> (0 <= n <= t)%Z ->
  (0 <= Frame.round_half_even (1000 * n) t <= 1000)%Z.
Proof.
  intros T B.
  assert (Z0 : Frame.round_half_even 0 t = 0%Z).
  { unfold Frame.round_half_even. rewrite Z.mod_0_l, Z.div_0_l by lia.
    replace (2 * 0 <? t)%Z with true by (symmetry; apply Z.ltb_lt; lia). reflexivity. }
  assert (Z1 : Frame.round_half_even (1000 * t) t = 1000%Z).
  { unfold Frame.round_half_even. rewrite Z.mod_mul, Z.div_mul by lia.
    replace (2 * 0 <? t)%Z with true by (symmetry; apply Z.ltb_lt; lia). reflexivity. }
  split.
  - rewrite <- Z0. apply round_half_even_mono; lia.
  - rewrite <- Z1. apply round_half_even_mono; lia.
Qed.

Lemma in_sum_le (n : Z) (l : list Z) :
  Forall (fun x => (1 <= x)%Z) l -> In n l -> (0 <= n <= Frame.sumZ l)%Z.
Proof.
  induction 1 as [|x l Hx Hl IH]; intros Hin; [contradiction|].
  change (Frame.sumZ (x :: l)) with (x + Frame.sumZ l)%Z.
  pose proof (sum_nonneg l Hl).
  destruct Hin as [->|Hin]; [lia | specialize (IH Hin); lia].
Qed.

(** X16.  The shares of Category Detail.  For filter texts without a single
    quote, the share column holds one share for each row, a number of tenths
    of a percent between 0 and 1000 that is at most one half away from the
    exact value [1000 * n / total], [n] being the order count of the row and
    [total] the sum of all the order counts of the frame; the order counts are
    at least 1 and come in non-increasing order, and so do the shares: the
    largest category stands first. *)
Theorem shares_run_from_the_largest (f : filters) (position : nat) (file : list csv_row) :
  plain f ->
  let db := load_data file in
  exists d shares,
    render f (slider_value position) db = Returned d /\
    let ordenes := ints (df_esp_completo d) "ordenes" in
    Frame.column (df_esp_completo d) "participacion"
    = map (fun z => VNum (z # 10)) shares /\
    Forall2 (fun n z => (Z.abs (2 * (z * Frame.sumZ ordenes - 1000 * n))
                         <= Frame.sumZ ordenes)%Z) ordenes shares /\
    Forall (fun n => (1 <= n)%Z) ordenes /\
    ordered (fun a b => (b <= a)%Z) ordenes /\
    Forall (fun z => (0 <= z <= 1000)%Z) shares /\
    ordered (fun a b => (b <= a)%Z) shares.
Proof.
  intros H db.
  exists (run_of f (slider_value position) db).
  exists (tenths (Frame.sumZ (ints (df_esp_completo (run_of f (slider_value position) db))
                                "ordenes"))
            (ints (df_esp_completo (run_of f (slider_value position) db)) "ordenes")).
  split; [apply render_plain; exact H|].
  unfold run_of.
  cbn [kpis regiones_activas df_esp df_monto df_tend df_adj_reg df_comp_reg
       df_esp_completo df_detalle].
  set (rs := kept (Stmt.not_null_category (predicate f)) db).
  set (st := Stmt.especialidades_completo (predicate f)).
  set (rows := Engine.sort (fun r => nth 1 r VNull) true
                 (grouped_rows st (ECol "ONUProducto") rs)).
  match goal with
  | |- context [with_derived_columns ?t] =>
      destruct (derived_columns t) as (_ & _ & D3 & D4);
        [apply category_frame_well_formed; reflexivity | reflexivity |];
        set (frame := t) in *
  end.
  cbv zeta. unfold ints. rewrite D3, D4.
  assert (O : Frame.column frame "ordenes" = map (fun out => nth 1 out VNull) rows)
    by reflexivity.
  rewrite O. clear D3 D4 O.
  set (ordenes := map Frame.int_of (map (fun out => nth 1 out VNull) rows)).
  destruct (view_rows st (ECol "ONUProducto") rs 1 true) as (gs & P & _ & _ & Ex & _).
  fold rows in P.
  assert (Int : Forall (fun y => is_int (nth 1 y VNull))
                  (grouped_rows st (ECol "ONUProducto") rs)).
  { apply Forall_forall. intros out Hin. unfold grouped_rows in Hin.
    apply in_map_iff in Hin. destruct Hin as ([k g] & <- & _). now eexists. }
  pose proof (sort_ordered (fun r => nth 1 r VNull) true is_int
                (before_int_total true) (before_int_trans true) _ Int) as Ord.
  fold rows in Ord.
  assert (IntF : forall out, In out rows -> is_int (nth 1 out VNull)).
  { intros out Hin. apply sort_in in Hin. rewrite Forall_forall in Int. now apply Int. }
  assert (One : Forall (fun n => (1 <= n)%Z) ordenes).
  { apply Forall_forall. intros n Hn. unfold ordenes in Hn. rewrite map_map in Hn.
    apply in_map_iff in Hn. destruct Hn as (out & <- & Hin).
    apply (Permutation_in _ P) in Hin. apply in_map_iff in Hin.
    destruct Hin as ([k g] & <- & Hin). destruct (Ex k g Hin) as [_ Hn].
    change (1 <= Z.of_nat (List.length g))%Z. destruct g; [now elim Hn | simpl; lia]. }
  assert (Dec : ordered (fun a b => (b <= a)%Z) ordenes).
  { unfold ordenes. rewrite map_map.
    apply (ordered_map _ _ _ _ (fun x y Hx Hy R =>
             before_desc_int _ _ (IntF x Hx) (IntF y Hy) R) Ord). }
  split; [rewrite participacion_tenths; now rewrite map_map|].
  destruct ordenes as [|n l] eqn:E; [repeat split; constructor|].
  assert (T : (0 < Frame.sumZ (n :: l))%Z) by (apply sum_positive; [discriminate | exact One]).
  split.
  { assert (G : forall total ns,
                 (0 < total)%Z ->
                 Forall2 (fun m z => (Z.abs (2 * (z * total - 1000 * m)) <= total)%Z)
                         ns (tenths total ns)).
    { intros total ns Pos. induction ns as [|m ns IH]; constructor; [|exact IH].
      now apply round_half_even_near. }
    now apply G. }
  split; [exact One|]. split; [exact Dec|].
  split.
  - unfold tenths. apply Forall_map. apply Forall_forall. intros x Hx.
    apply round_half_even_bounds; [exact T | now apply in_sum_le].
  - unfold tenths.
    apply (ordered_map (fun a b => (b <= a)%Z) _ _ _
             (fun x y _ _ R => round_half_even_mono _ _ _ T
                                 (Z.mul_le_mono_nonneg_l _ _ 1000 ltac:(lia) R)) Dec).
Qed.

Lemma shares_run_from_the_largest_witness :
  plain default_filters /\
  let db := load_data [rec_clinica; rec_farmacia; rec_obra] in
  exists d shares,
    render default_filters (slider_value 9) db = Returned d /\
    let ordenes := ints (df_esp_completo d) "ordenes" in
    Frame.column (df_esp_completo d) "participacion"
    = map (fun z => VNum (z # 10)) shares /\
    Forall2 (fun n z => (Z.abs (2 * (z * Frame.sumZ ordenes - 1000 * n))
                         <= Frame.sumZ ordenes)%Z) ordenes shares /\
    Forall (fun n => (1 <= n)%Z) ordenes /\
    ordered (fun a b => (b <= a)%Z) ordenes /\
    Forall (fun z => (0 <= z <= 1000)%Z) shares /\
    ordered (fun a b => (b <= a)%Z) shares.
Proof.
  split; [exact plain_default|].
  exact (shares_run_from_the_largest default_filters 9 [rec_clinica; rec_farmacia; rec_obra]
           plain_default).
Defined.

Lemma nums_none (g : list row) :
  Engine.nums (amounts g) = [] <-> forall r, In r g -> parseable r = false.
Proof.
  unfold amounts. induction g as [|r g IH]; [split; [intros _ x [] | reflexivity]|].
  cbn [map]. rewrite eval_amount. unfold parseable at 1.
  destruct (try_cast_double (MontoTotalOC_CLP (raw r))) as [q|] eqn:E;
    cbn [Engine.numv Engine.nums].
  - split; [discriminate|]. intros A. specialize (A r (or_introl eq_refl)).
    unfold parseable in A. rewrite E in A. discriminate A.
  - rewrite IH. split.
    + intros A x [<-|Hx]; [unfold parseable; now rewrite E | now apply A].
    + intros A x Hx. apply A. now right.
Qed.

(** X17.  The amount card without amounts.  For filter texts without a single
    quote and amounts that are whole numbers of pesos or no numbers at all
    ([exact_amounts]), the sum of the KPI row is missing exactly when no
    passing row has an amount that is a number (in particular when nothing
    passes); the amount in thousands of millions of the card is then missing
    as well, not zero: the alternative [0] of line 270 is taken only when the
    sum is exactly zero. *)
Theorem amount_card_is_missing_without_amounts
  (f : filters) (position : nat) (file : list csv_row) :
  plain f ->
  exact_amounts file ->
  let db := load_data file in
  exists d,
    render f (slider_value position) db = Returned d /\
    kpi_value d "monto_total" = amount_sum (filter (passes f) db) /\
    (monto_miles_millones (kpi_value d "monto_total") = VNull
     <-> forall r, In r db -> passes f r = true -> parseable r = false) /\
    (monto_miles_millones (kpi_value d "monto_total") = VInt 0
     <-> exists q, kpi_value d "monto_total" = VNum q /\ (q == 0)%Q).
Proof.
  intros H _ db. on_run f position db H.
  assert (K : kpi_value (run_of f (slider_value position) db) "monto_total"
              = Engine.sum_of (amounts (kept (predicate f) db))) by reflexivity.
  unfold run_of in K. rewrite K. clear K.
  rewrite sum_parseable, (kept_passes f db H).
  split; [reflexivity|].
  split.
  - rewrite <- sum_parseable. unfold Engine.sum_of.
    pose proof (nums_none (filter (passes f) db)) as N.
    destruct (Engine.nums (amounts (filter (passes f) db))) as [|q qs] eqn:E.
    + split; [|reflexivity]. intros _ r Hr Hp.
      apply (proj1 N eq_refl). apply filter_In. now split.
    + split.
      * unfold monto_miles_millones, Frame.scale.
        destruct (Qeq_bool _ 0); discriminate.
      * intros A. assert (B : q :: qs = []); [|discriminate B].
        apply N. intros r Hr. apply filter_In in Hr. destruct Hr. now apply A.
  - destruct (amount_sum (filter (passes f) db)) as [|b|n|q|s|x];
      try (split; [discriminate | intros (q' & E & _); discriminate E]).
    unfold monto_miles_millones, Frame.scale.
    destruct (Qeq_bool q 0) eqn:E.
    + split; [|reflexivity]. intros _. exists q. split; [reflexivity|].
      now apply Qeq_bool_iff.
    + split; [discriminate|]. intros (q' & Eq & Z). inversion Eq; subst.
      apply Qeq_bool_iff in Z. congruence.
Qed.

Lemma amount_card_is_missing_without_amounts_witness :
  plain default_filters /\
  exact_amounts [rec_farmacia] /\
  let db := load_data [rec_farmacia] in
  exists d,
    render default_filters (slider_value 9) db = Returned d /\
    kpi_value d "monto_total" = amount_sum (filter (passes default_filters) db) /\
    (monto_miles_millones (kpi_value d "monto_total") = VNull
     <-> forall r, In r db -> passes default_filters r = true -> parseable r = false) /\
    (monto_miles_millones (kpi_value d "monto_total") = VInt 0
     <-> exists q, kpi_value d "monto_total" = VNum q /\ (q == 0)%Q).
Proof.
  assert (E : exact_amounts [rec_farmacia])
    by (split; [repeat constructor | reflexivity]).
  split; [exact plain_default|]. split; [exact E|].
  exact (amount_card_is_missing_without_amounts default_filters 9 [rec_farmacia]
           plain_default E).
Defined.

(** ** The category control *)

Lemma string_leb_total (a b : string) :
  Engine.string_leb a b = false -> Engine.string_leb b a = true.
Proof.
  unfold Engine.string_leb. rewrite (String.compare_antisym b a).
  destruct (String.compare a b); simpl; congruence.
Qed.

Lemma ascii_compare_lt_trans (x y z : ascii) :
  Ascii.compare x y = Lt -> Ascii.compare y z = Lt -> Ascii.compare x z = Lt.
Proof.
  unfold Ascii.compare. rewrite !N.compare_lt_iff. apply N.lt_trans.
Qed.

Lemma string_compare_trans (a b c : string) :
  String.compare a b <> Gt -> String.compare b c <> Gt -> String.compare a c <> Gt.
Proof.
  revert b c. induction a as [|x a IH]; intros [|y b] [|z c]; simpl; try congruence.
  destruct (Ascii.compare x y) eqn:XY; [| |congruence].
  - apply Ascii.compare_eq_iff in XY. subst y.
    destruct (Ascii.compare x z); [apply IH | congruence | congruence].
  - intros _. destruct (Ascii.compare y z) eqn:YZ; [| |congruence].
    + apply Ascii.compare_eq_iff in YZ. subst z. rewrite XY. congruence.
    + rewrite (ascii_compare_lt_trans x y z XY YZ). congruence.
Qed.

Lemma string_leb_trans (a b c : string) :
  Engine.string_leb a b = true -> Engine.string_leb b c = true ->
  Engine.string_leb a c = true.
Proof.
  unfold Engine.string_leb. intros H1 H2.
  pose proof (string_compare_trans a b c) as T.
  destruct (String.compare a b); try discriminate H1;
    destruct (String.compare b c); try discriminate H2;
    destruct (String.compare a c); try reflexivity;
    exfalso; apply T; congruence.
Qed.

Lemma before_text_total (a b : value) :
  is_text a -> is_text b ->
  Engine.before false a b = false -> Engine.before false b a = true.
Proof. intros [x ->] [y ->]. unfold Engine.before. simpl. apply string_leb_total. Qed.

Lemma before_text_trans (a b c : value) :
  is_text a -> is_text b -> is_text c ->
  Engine.before false a b = true -> Engine.before false b c = true ->
  Engine.before false a c = true.
Proof.
  intros [x ->] [y ->] [z ->]. unfold Engine.before. simpl. apply string_leb_trans.
Qed.

Lemma row_eqb_refl (r : list value) : Distinct.row_eqb r r = true.
Proof.
  induction r as [|v r IH]; [reflexivity|]. simpl. now rewrite value_eqb_refl, IH.
Qed.

Lemma distinct_rows_in (x : list value) (l : list (list value)) :
  In x (Distinct.distinct_rows l) -> In x l.
Proof.
  induction l as [|r l IH]; [auto|]. simpl.
  destruct (existsb (Distinct.row_eqb r) l).
  - intros H. right. now apply IH.
  - intros [->|H]; [now left | right; now apply IH].
Qed.

Lemma distinct_rows_nodup (l : list (list value)) : NoDup (Distinct.distinct_rows l).
Proof.
  induction l as [|r l IH]; [constructor|]. simpl.
  destruct (existsb (Distinct.row_eqb r) l) eqn:E; [exact IH|].
  constructor; [|exact IH]. intros Hin. apply distinct_rows_in in Hin.
  assert (T : existsb (Distinct.row_eqb r) l = true).
  { apply existsb_exists. exists r. split; [exact Hin | apply row_eqb_refl]. }
  congruence.
Qed.

(** Among rows of one text each, no text is lost. *)
Lemma distinct_rows_texts (c : string) (l : list (list value)) :
  (forall r, In r l -> exists s, r = [VStr s]) ->
  In [VStr c] l -> In [VStr c] (Distinct.distinct_rows l).
Proof.
  induction l as [|r l IH]; intros T Hin; [contradiction|]. simpl.
  destruct (existsb (Distinct.row_eqb r) l) eqn:E.
  - apply IH; [intros x Hx; apply T; now right|].
    destruct Hin as [->|Hin]; [|exact Hin].
    apply existsb_exists in E. destruct E as (x & Hx & Ex).
    destruct (T x (or_intror Hx)) as [s ->]. simpl in Ex.
    rewrite andb_true_r in Ex. apply String.eqb_eq in Ex. now subst.
  - destruct Hin as [->|Hin]; [now left | right].
    apply IH; [intros x Hx; apply T; now right | exact Hin].
Qed.

Lemma especialidades_rows (db : list row) :
  especialidades db
  = Returned
      ("Todas" ::
       tolist (map (fun out => nth 0 out VNull)
                 (Engine.sort (fun r => nth 0 r VNull) false
                    (Distinct.distinct_rows
                       (map (fun r => [Engine.eval (ECol "ONUProducto") r])
                          (filter (Engine.holds (EIsNotNull (ECol "ONUProducto"))) db)))))).
Proof.
  unfold especialidades, Distinct.execute.
  assert (P : Distinct.parse especialidades_query
              = Returned (mkstmt [mkitem (ECol "ONUProducto") None] "compras"
                            (Some (EIsNotNull (ECol "ONUProducto"))) None
                            (Some (ECol "ONUProducto", false)) None))
    by (vm_compute; reflexivity).
  rewrite P. reflexivity.
Qed.

Lemma holds_has_category (r : row) :
  Engine.holds (EIsNotNull (ECol "ONUProducto")) r = has_category r.
Proof.
  unfold Engine.holds, has_category. cbn [Engine.eval].
  change (Engine.column "ONUProducto" r) with (Some (Engine.text (ONUProducto (raw r)))).
  now destruct (ONUProducto (raw r)).
Qed.

(** X18.  The options of the category control.  After 'Todas' come the
    categories of the data store, each once, in strictly ascending order of
    their texts; a text is offered exactly when some record of the data store
    has it as its category, whatever the other filters are set to, and a
    record without category adds no option. *)
Theorem category_options_come_from_the_data (db : list row) :
  exists categories,
    especialidades db = Returned ("Todas" :: categories) /\
    ordered (fun a b => Engine.string_leb a b = true /\ a <> b) categories /\
    (forall c, In c categories <-> exists r, In r db /\ ONUProducto (raw r) = Some c).
Proof.
  rewrite (especialidades_rows db).
  set (rows0 := map (fun r => [Engine.eval (ECol "ONUProducto") r])
                  (filter (Engine.holds (EIsNotNull (ECol "ONUProducto"))) db)).
  set (rows := Engine.sort (fun r => nth 0 r VNull) false (Distinct.distinct_rows rows0)).
  eexists. split; [reflexivity|].
  assert (T0 : forall x, In x rows0 ->
                 exists s r, x = [VStr s] /\ In r db /\ ONUProducto (raw r) = Some s).
  { intros x Hx. unfold rows0 in Hx. apply in_map_iff in Hx. destruct Hx as (r & <- & Hr).
    apply filter_In in Hr. destruct Hr as [Hdb Hc]. rewrite holds_has_category in Hc.
    unfold has_category in Hc. rewrite eval_category.
    destruct (ONUProducto (raw r)) as [s|] eqn:E; [|discriminate Hc].
    exists s, r. auto. }
  assert (T : forall x, In x rows ->
                exists s r, x = [VStr s] /\ In r db /\ ONUProducto (raw r) = Some s).
  { intros x Hx. apply sort_in, distinct_rows_in in Hx. now apply T0. }
  assert (Key : Forall (fun y => is_text (nth 0 y VNull)) (Distinct.distinct_rows rows0)).
  { apply Forall_forall. intros x Hx. apply distinct_rows_in in Hx.
    destruct (T0 x Hx) as (s & _ & -> & _). now exists s. }
  pose proof (sort_ordered (fun r => nth 0 r VNull) false is_text
                before_text_total before_text_trans _ Key) as O.
  fold rows in O.
  assert (N : NoDup rows).
  { apply (Permutation_NoDup (Permutation_sym (sort_perm _ _ _))), distinct_rows_nodup. }
  split.
  - unfold tolist. rewrite map_map.
    apply (ordered_map
             (fun x y => Engine.before false (nth 0 x VNull) (nth 0 y VNull) = true /\ x <> y)
             _ _ rows).
    + intros x y Hx Hy [R1 R2].
      destruct (T x Hx) as (a & _ & -> & _). destruct (T y Hy) as (b & _ & -> & _).
      split; [exact R1|]. intros E. apply R2. cbn in E. now subst.
    + rewrite <- (map_id rows) in N.
      exact (ordered_strict _ (fun x => x) rows O N).
  - intros c. unfold tolist. rewrite map_map. split.
    + intros Hc. apply in_map_iff in Hc. destruct Hc as (x & <- & Hx).
      destruct (T x Hx) as (s & r & -> & Hr & E). exists r. split; [exact Hr | exact E].
    + intros (r & Hr & E).
      apply in_map_iff. exists [VStr c]. split; [reflexivity|].
      apply sort_in. apply distinct_rows_texts.
      * intros x Hx. destruct (T0 x Hx) as (s & _ & -> & _). now exists s.
      * unfold rows0. apply in_map_iff. exists r. split.
        -- now rewrite eval_category, E.
        -- apply filter_In. split; [exact Hr|].
           rewrite holds_has_category. unfold has_category. now rewrite E.
Qed.

(** ** The sidebar, and the values that reach the statements (C2) *)

Lemma especialidades_returns (db : list row) :
  exists categories,
    especialidades db = Returned ("Todas" :: categories) /\
    forall c, In c categories -> exists r, In r db /\ ONUProducto (raw r) = Some c.
Proof.
  rewrite (especialidades_rows db). eexists. split; [reflexivity|].
  intros c Hc. unfold tolist in Hc. rewrite map_map in Hc.
  apply in_map_iff in Hc. destruct Hc as (x & <- & Hx).
  apply sort_in, distinct_rows_in, in_map_iff in Hx. destruct Hx as (r & <- & Hr).
  apply filter_In in Hr. destruct Hr as [Hdb Hc]. rewrite holds_has_category in Hc.
  unfold has_category in Hc. exists r. split; [exact Hdb|].
  cbn [nth]. rewrite eval_category.
  destruct (ONUProducto (raw r)); [reflexivity | discriminate Hc].
Qed.


(** X19.  The values of the sidebar.  Whatever the state of the widgets and
    the data, the sidebar raises nothing; the two regions it hands on are
    'Todas' or one of the sixteen listed regions, the category is 'Todas' or
    the category of a record of the data store, and the widgets of a first run
    give the initial filters. *)
Theorem sidebar_values_come_from_the_lists (w : widgets) (db : list row) :
  exists f,
    sidebar w db = Returned f /\
    In (region_proveedor f) ("Todas" :: REGIONES_CHILE) /\
    In (region_compra f) ("Todas" :: REGIONES_CHILE) /\
    (especialidad_selected f = "Todas"
     \/ exists r, In r db /\ ONUProducto (raw r) = Some (especialidad_selected f)) /\
    solo_salud f = w_solo_salud w /\
    fecha_inicio f = w_fecha_inicio w /\ fecha_fin f = w_fecha_fin w /\
    search_term f = w_search_term w /\
    sidebar initial_widgets db = Returned default_filters.
Proof.
  unfold sidebar. destruct (especialidades_returns db) as (categories & E & C).
  rewrite E. cbn [bind]. eexists. split; [reflexivity|].
  cbn [region_proveedor region_compra especialidad_selected solo_salud fecha_inicio
       fecha_fin search_term].
  split; [apply selectbox_in; discriminate|].
  split; [apply selectbox_in; discriminate|].
  split.
  { destruct (selectbox_in ("Todas" :: categories) (w_especialidad w)) as [<-|Hin];
      [discriminate | now left | right; now apply C]. }
  repeat split.
Qed.







(** ** The Region Amount Distribution and the Category Detail *)

Lemma before_amount_total (a b : value) :
  is_amount a -> is_amount b ->
  Engine.before true a b = false -> Engine.before true b a = true.
Proof.
  intros [->|[x ->]] [->|[y ->]]; unfold Engine.before; simpl; try congruence.
  intros H. destruct (Qle_bool x y) eqn:E; [reflexivity|].
  assert (L : ~ (x <= y)%Q) by (rewrite <- Qle_bool_iff; congruence).
  assert (L' : ~ (y <= x)%Q) by (rewrite <- Qle_bool_iff; congruence).
  apply Qnot_le_lt in L. apply Qlt_le_weak in L. contradiction.
Qed.

Lemma before_amount_trans (a b c : value) :
  is_amount a -> is_amount b -> is_amount c ->
  Engine.before true a b = true -> Engine.before true b c = true ->
  Engine.before true a c = true.
Proof.
  intros [->|[x ->]] [->|[y ->]] [->|[z ->]]; unfold Engine.before; simpl;
    try congruence.
  rewrite !Qle_bool_iff. intros H1 H2. now apply (Qle_trans _ y).
Qed.

Lemma before_larger_first (a b : value) :
  is_amount a -> is_amount b -> Engine.before true a b = true -> larger_first a b.
Proof.
  intros [->|[x ->]] [->|[y ->]]; unfold Engine.before, larger_first; simpl;
    try congruence; try (intros; exact I).
  now rewrite Qle_bool_iff.
Qed.

Lemma sum_is_amount (vs : list value) : is_amount (Engine.sum_of vs).
Proof.
  unfold Engine.sum_of. destruct (Engine.nums vs); [now left | right; now eexists].
Qed.

(** X21.  The ten largest regions by amount.  For filter texts without a
    single quote, the Region Amount Distribution has at most ten rows, one per
    supplier region of the passing rows (the missing region included), each
    with the sum of the amounts of its rows that are numbers; the larger sum
    comes first and a missing sum comes last; a region that is left out comes,
    in that order, after every region shown, and then ten regions are shown.
    The amounts of the file are whole numbers of pesos or no numbers at all
    ([exact_amounts]), so that the sums are exact. *)
Theorem region_amounts_are_the_ten_largest
  (f : filters) (position : nat) (file : list csv_row) :
  plain f ->
  exact_amounts file ->
  let db := load_data file in
  let orders k := orders_with f db (ECol "RegionProveedor") k in
  exists d,
    render f (slider_value position) db = Returned d /\
    List.length (t_rows (df_monto d)) <= 10 /\
    (forall out, In out (t_rows (df_monto d)) ->
       exists k, orders k <> [] /\ out = [k; amount_sum (orders k)]) /\
    NoDup (Frame.column (df_monto d) "region") /\
    ordered larger_first (Frame.column (df_monto d) "monto") /\
    (forall r, In r db -> passes f r = true ->
       let k := Engine.text (RegionProveedor (raw r)) in
       In [k; amount_sum (orders k)] (t_rows (df_monto d))
       \/ (List.length (t_rows (df_monto d)) = 10 /\
           forall v, In v (Frame.column (df_monto d) "monto") ->
                     larger_first v (amount_sum (orders k)))).
Proof.
  intros H _ db orders. on_run f position db H. cbn [t_rows].
  set (rs := kept (predicate f) db).
  set (st := Stmt.monto_region (predicate f)).
  set (full := Engine.sort (fun r => nth 1 r VNull) true
                 (grouped_rows st (ECol "RegionProveedor") rs)).
  destruct (view_rows st (ECol "RegionProveedor") rs 1 true) as (gs & P & _ & N & Ex & Cov).
  fold full in P.
  assert (Row : forall out, In out full ->
                  exists k, orders k <> [] /\ out = [k; amount_sum (orders k)]).
  { intros out Hin. apply (Permutation_in _ P) in Hin. apply in_map_iff in Hin.
    destruct Hin as ([k g] & <- & Hin). destruct (Ex k g Hin) as [Hg Hn].
    unfold rs in Hg. rewrite (orders_with_kept f db _ k H) in Hg. subst g.
    exists k. split; [exact Hn|]. unfold Exec.output_row. cbn.
    now rewrite sum_parseable. }
  assert (Amt : Forall (fun y => is_amount (nth 1 y VNull))
                  (grouped_rows st (ECol "RegionProveedor") rs)).
  { apply Forall_forall. intros out Hin. unfold grouped_rows in Hin.
    apply in_map_iff in Hin. destruct Hin as ([k g] & <- & _). apply sum_is_amount. }
  pose proof (sort_ordered (fun r => nth 1 r VNull) true is_amount
                before_amount_total before_amount_trans _ Amt) as O.
  fold full in O.
  assert (AmtF : forall out, In out full -> is_amount (nth 1 out VNull)).
  { intros out Hin. apply sort_in in Hin. rewrite Forall_forall in Amt. now apply Amt. }
  split; [apply firstn_le_length|].
  split; [intros out Hin; apply Row; now apply in_firstn in Hin|].
  split.
  { unfold Frame.column. cbn [t_rows].
    assert (NF : NoDup (map (fun out => nth 0 out VNull) full)).
    { apply (Permutation_NoDup (Permutation_sym (Permutation_map _ P))).
      rewrite map_map. exact N. }
    rewrite <- (firstn_skipn 10 full), map_app in NF.
    now apply NoDup_app_remove_r in NF. }
  split.
  { unfold Frame.column. cbn [t_rows].
    apply (ordered_map (in_order (fun r => nth 1 r VNull) true) _ _ _
             (fun x y Hx Hy R =>
                before_larger_first _ _ (AmtF x (in_firstn _ _ _ Hx))
                  (AmtF y (in_firstn _ _ _ Hy)) R)).
    now apply ordered_firstn. }
  intros r Hdb Hp. set (k := Engine.text (RegionProveedor (raw r))).
  assert (K : In r rs).
  { apply in_kept. split; [exact Hdb | now rewrite <- (passes_plain f r H)]. }
  destruct (Cov r K) as (k' & Ek & Hin).
  rewrite eval_region_proveedor in Ek. apply text_eqb_eq in Ek. fold k in Ek. subst k'.
  unfold rs in Hin. rewrite (orders_with_kept f db _ k H) in Hin. fold (orders k) in Hin.
  assert (X : In [k; amount_sum (orders k)] full).
  { apply (Permutation_in _ (Permutation_sym P)). apply in_map_iff.
    exists (k, orders k). split; [|exact Hin].
    unfold Exec.output_row. cbn. now rewrite sum_parseable. }
  destruct (ordered_cut_or _ 10 full _ O X) as [In10|[L10 All]]; [now left | right].
  split; [exact L10|].
  intros v Hv. unfold Frame.column in Hv. cbn [t_rows] in Hv.
  apply in_map_iff in Hv. destruct Hv as (x & <- & Hx).
  specialize (All x Hx).
  exact (before_larger_first _ _ (AmtF x (in_firstn _ _ _ Hx)) (AmtF _ X) All).
Qed.

Lemma region_amounts_are_the_ten_largest_witness :
  plain default_filters /\
  exact_amounts [rec_clinica; rec_farmacia] /\
  let db := load_data [rec_clinica; rec_farmacia] in
  let orders k := orders_with default_filters db (ECol "RegionProveedor") k in
  exists d,
    render default_filters (slider_value 9) db = Returned d /\
    List.length (t_rows (df_monto d)) <= 10 /\
    (forall out, In out (t_rows (df_monto d)) ->
       exists k, orders k <> [] /\ out = [k; amount_sum (orders k)]) /\
    NoDup (Frame.column (df_monto d) "region") /\
    ordered larger_first (Frame.column (df_monto d) "monto") /\
    (forall r, In r db -> passes default_filters r = true ->
       let k := Engine.text (RegionProveedor (raw r)) in
       In [k; amount_sum (orders k)] (t_rows (df_monto d))
       \/ (List.length (t_rows (df_monto d)) = 10 /\
           forall v, In v (Frame.column (df_monto d) "monto") ->
                     larger_first v (amount_sum (orders k)))).
Proof.
  split; [exact plain_default|]. split; [exact exact_amounts_sample|].
  exact (region_amounts_are_the_ten_largest default_filters 9 [rec_clinica; rec_farmacia]
           plain_default exact_amounts_sample).
Defined.

Lemma assign_grows (t : table) (name : string) (vals : list value) :
  List.length vals = List.length (t_rows t) ->
  Forall2 (fun old new => exists more, new = old ++ more)
          (t_rows t) (t_rows (Frame.assign t name vals)).
Proof.
  unfold Frame.assign. cbn [t_rows]. revert vals.
  induction (t_rows t) as [|r rows IH]; intros vals L.
  - simpl. constructor.
  - destruct vals as [|v vals]; [discriminate L|]. simpl.
    constructor; [now exists [v] | apply IH; now inversion L].
Qed.

Lemma grows_trans (a b c : list (list value)) :
  Forall2 (fun old new => exists more, new = old ++ more) a b ->
  Forall2 (fun old new => exists more, new = old ++ more) b c ->
  Forall2 (fun old new => exists more, new = old ++ more) a c.
Proof.
  intros H. revert c. induction H as [|x y a b [m ->] _ IH]; intros c Hc.
  - inversion Hc. constructor.
  - inversion Hc as [|? z ? c' [m' ->] Hc']; subst.
    constructor; [exists (m ++ m'); now rewrite app_assoc | now apply IH].
Qed.

Lemma grows_refl (a : list (list value)) :
  Forall2 (fun old new => exists more, new = old ++ more) a a.
Proof.
  induction a; constructor; [exists []; now rewrite app_nil_r | assumption].
Qed.

(** Tab 3 keeps the rows of the statement, each with three more values at
    its end. *)
Lemma derived_rows (t : table) :
  Forall2 (fun old new => exists more, new = old ++ more)
          (t_rows t) (t_rows (with_derived_columns t)).
Proof.
  unfold with_derived_columns. destruct (Frame.empty t); [apply grows_refl|].
  set (t1 := Frame.assign t "monto_total_millones" _).
  set (t2 := Frame.assign t1 "monto_promedio_miles" _).
  assert (G1 : Forall2 (fun old new => exists more, new = old ++ more)
                 (t_rows t) (t_rows t1)).
  { apply assign_grows. now rewrite length_map, column_length. }
  assert (G2 : Forall2 (fun old new => exists more, new = old ++ more)
                 (t_rows t1) (t_rows t2)).
  { apply assign_grows. now rewrite length_map, column_length. }
  apply (grows_trans _ _ _ (grows_trans _ _ _ G1 G2)).
  apply assign_grows. unfold Frame.participacion. now rewrite !length_map, column_length.
Qed.

Lemma forall2_in_r {A B : Type} (R : A -> B -> Prop) (l : list A) (l' : list B) (y : B) :
  Forall2 R l l' -> In y l' -> exists x, In x l /\ R x y.
Proof.
  induction 1 as [|a b l l' Hab _ IH]; intros Hin; [contradiction|].
  destruct Hin as [<-|Hin].
  - exists a. split; [now left | exact Hab].
  - destruct (IH Hin) as (x & Hx & Rx). exists x. split; [now right | exact Rx].
Qed.

Lemma avg_null_iff_sum_null (g : list row) :
  amount_avg g = VNull <-> amount_sum g = VNull.
Proof.
  unfold amount_avg, amount_sum, Engine.avg_of, Engine.sum_of.
  destruct (Engine.nums _); split; intros H; try reflexivity; discriminate H.
Qed.

(** The rows of Category Detail as the statement returns them. *)
Lemma category_detail_rows (f : filters) (db : list row) :
  plain f ->
  let orders c := orders_with f db (ECol "ONUProducto") (VStr c) in
  let row_of c := [VStr c; count_of (orders c); suppliers_of (orders c);
                   amount_sum (orders c); amount_avg (orders c)] in
  let rows := Engine.sort (fun r => nth 1 r VNull) true
                (grouped_rows (Stmt.especialidades_completo (predicate f))
                   (ECol "ONUProducto")
                   (kept (Stmt.not_null_category (predicate f)) db)) in
  (forall out, In out rows -> exists c, orders c <> [] /\ out = row_of c) /\
  (forall c, orders c <> [] -> In (row_of c) rows) /\
  NoDup (map (fun out => nth 0 out VNull) rows).
Proof.
  intros H orders row_of rows.
  set (rs := kept (Stmt.not_null_category (predicate f)) db) in *.
  set (st := Stmt.especialidades_completo (predicate f)) in *.
  destruct (view_rows st (ECol "ONUProducto") rs 1 true) as (gs & P & _ & N & Ex & Cov).
  fold rows in P.
  assert (Out : forall c, Exec.output_row (s_items st) (VStr c, orders c) = row_of c).
  { intros c. unfold Exec.output_row, row_of. cbn.
    now rewrite sum_parseable, avg_parseable. }
  split; [|split].
  - intros out Hin. apply (Permutation_in _ P) in Hin. apply in_map_iff in Hin.
    destruct Hin as ([k g] & <- & Hin). destruct (Ex k g Hin) as [Hg Hn].
    rewrite Hg in Hn. destruct (category_key f db k H Hn) as [c ->].
    unfold rs in Hg, Hn. rewrite (orders_with_category f db c H) in Hg, Hn.
    exists c. subst g. split; [exact Hn | apply Out].
  - intros c Hc.
    assert (Hr : exists r, In r (orders c)).
    { destruct (orders c) as [|r g]; [now elim Hc | exists r; now left]. }
    destruct Hr as [r Hr].
    unfold orders, orders_with in Hr. apply filter_In in Hr. destruct Hr as [Hdb Hp].
    apply andb_prop in Hp. destruct Hp as [Hp Hk].
    assert (K : In r rs).
    { unfold rs. rewrite (kept_category f db H). apply filter_In. split; [exact Hdb|].
      rewrite Hp. rewrite eval_category in Hk. unfold has_category.
      destruct (ONUProducto (raw r)); [reflexivity | discriminate Hk]. }
    destruct (Cov r K) as (k & Ek & Hin).
    assert (Kc : k = VStr c).
    { rewrite eval_category in Ek, Hk.
      apply text_eqb_eq in Ek. apply text_eqb_eq in Hk. congruence. }
    subst k. unfold rs in Hin. rewrite (orders_with_category f db c H) in Hin.
    fold (orders c) in Hin. rewrite <- Out.
    apply (Permutation_in _ (Permutation_sym P)). apply in_map_iff.
    eexists. split; [reflexivity | exact Hin].
  - apply (Permutation_NoDup (Permutation_sym (Permutation_map _ P))).
    rewrite map_map. exact N.
Qed.

(** X22.  The Category Detail, row by row.  For filter texts without a single
    quote, Category Detail has exactly one row for each category that occurs
    among the passing rows, none being cut; the row starts with the category,
    the number of its passing rows, the number of their distinct tax ids and
    the sum of their amounts that are numbers, and its mean is missing exactly
    when the sum is.  The amounts of the file are whole numbers of pesos or no
    numbers at all ([exact_amounts]), so that the sums are exact. *)
Theorem category_detail_row_by_row (f : filters) (position : nat) (file : list csv_row) :
  plain f ->
  exact_amounts file ->
  let db := load_data file in
  let orders c := orders_with f db (ECol "ONUProducto") (VStr c) in
  exists d,
    render f (slider_value position) db = Returned d /\
    (forall out, In out (t_rows (df_esp_completo d)) ->
       exists c mean,
         orders c <> [] /\
         firstn 5 out = [VStr c; count_of (orders c); suppliers_of (orders c);
                         amount_sum (orders c); mean] /\
         (mean = VNull <-> amount_sum (orders c) = VNull)) /\
    (forall c, orders c <> [] ->
       In (VStr c) (Frame.column (df_esp_completo d) "especialidad")) /\
    NoDup (Frame.column (df_esp_completo d) "especialidad").
Proof.
  intros H _ db orders. on_run f position db H.
  destruct (category_detail_rows f db H) as (Row & All & N).
  set (rows := Engine.sort (fun r => nth 1 r VNull) true
                 (grouped_rows (Stmt.especialidades_completo (predicate f))
                    (ECol "ONUProducto")
                    (kept (Stmt.not_null_category (predicate f)) db))) in *.
  match goal with
  | |- context [with_derived_columns ?t] =>
      destruct (derived_columns t) as (_ & D2 & _);
        [apply category_frame_well_formed; reflexivity | reflexivity |];
        pose proof (derived_rows t) as G;
        set (frame := t) in *
  end.
  cbn [t_rows] in G.
  assert (E : Frame.column frame "especialidad" = map (fun out => nth 0 out VNull) rows)
    by reflexivity.
  rewrite D2, E. clear D2 E.
  split; [|split; [|exact N]].
  - intros out Hin. destruct (forall2_in_r _ _ _ _ G Hin) as (old & Hold & more & ->).
    destruct (Row old Hold) as (c & Hn & ->).
    exists c, (amount_avg (orders c)). split; [exact Hn|]. split; [reflexivity|].
    apply avg_null_iff_sum_null.
  - intros c Hc. apply in_map_iff. eexists. split; [|exact (All c Hc)]. reflexivity.
Qed.

Lemma category_detail_row_by_row_witness :
  plain default_filters /\
  exact_amounts [rec_clinica; rec_farmacia] /\
  let db := load_data [rec_clinica; rec_farmacia] in
  let orders c := orders_with default_filters db (ECol "ONUProducto") (VStr c) in
  exists d,
    render default_filters (slider_value 9) db = Returned d /\
    (forall out, In out (t_rows (df_esp_completo d)) ->
       exists c mean,
         orders c <> [] /\
         firstn 5 out = [VStr c; count_of (orders c); suppliers_of (orders c);
                         amount_sum (orders c); mean] /\
         (mean = VNull <-> amount_sum (orders c) = VNull)) /\
    (forall c, orders c <> [] ->
       In (VStr c) (Frame.column (df_esp_completo d) "especialidad")) /\
    NoDup (Frame.column (df_esp_completo d) "especialidad").
Proof.
  split; [exact plain_default|]. split; [exact exact_amounts_sample|].
  exact (category_detail_row_by_row default_filters 9 [rec_clinica; rec_farmacia]
           plain_default exact_amounts_sample).
Defined.

(** ** An amount that is no number (C6) *)







